(** * Truthly extension: content-script pipeline, cache and settings

    A shallow embedding of the content script (class [TruthlyExtension]):
    the JavaScript values read from the analysis service, the part of the
    DOM the script queries and mutates, and the methods of the class as
    state-passing functions over an explicit extension state.  The
    listeners of the background service worker follow in [Background],
    over the storage areas, tabs and responses they act on.

    What the embedding assumes:
    - an element object is named by a number ([eid]), different elements
      of a document have different numbers, and [document.createElement]
      takes the next unused one; the operations that mutate the tree find
      their target by that number;
    - an element the script holds on to is looked up in the document: on
      an element that has left the document the methods find nothing and
      change nothing;
    - the markup a label gets through [innerHTML] is kept as data
      ([widget]) on the label element: it adds no element a selector of
      the script could match and no text to [textContent];
    - an asynchronous method is cut at its [await]: [processSearchResult]
      runs up to the fetch, [resume] runs the rest once the fetch has
      settled, and in between any other event may be handled. *)

From Stdlib Require Import Ascii String QArith Qround.
From stdpp Require Import base option list gmap strings pretty.

Close Scope Q_scope.
Open Scope string_scope.
Open Scope list_scope.

(** ** JavaScript values *)

Module JS.

(** A JavaScript number.  Every finite double is a rational, and
    [Math.round] on a finite double is exact, so finite numbers are
    kept as rationals; the sign of zero is not kept (both zeros are
    falsy and both print as 0). *)
Inductive number :=
| NaN
| Infinity (negative : bool)
| Finite (q : Q).

(** The values [response.json()] can produce, plus [undefined] for an
    absent property.  [Obj] lists the own properties of an object. *)
#[local] Unset Elimination Schemes.
Inductive value :=
| Undefined
| Null
| Bool (b : bool)
| Num (n : number)
| Str (s : string)
| Arr (items : list value)
| Obj (fields : list (string * value)).
#[local] Set Elimination Schemes.

Inductive exn :=
| TypeError (what : string)
| ReferenceError (name : string).

Definition int (z : Z) : number := Finite (inject_Z z).

(** ToBoolean. *)
Definition truthy (v : value) : bool :=
  match v with
  | Undefined | Null => false
  | Bool b => b
  | Num NaN => false
  | Num (Infinity _) => true
  | Num (Finite q) => negb (Qeq_bool q 0)
  | Str s => negb (String.eqb s "")
  | Arr _ | Obj _ => true
  end.

(** [a || b] *)
Definition or (a b : value) : value := if truthy a then a else b.

Fixpoint assoc (k : string) (fs : list (string * value)) : value :=
  match fs with
  | [] => Undefined
  | (k', v) :: rest => if String.eqb k k' then v else assoc k rest
  end.

(** [v.k] for the property names the script reads (success, data, label,
    confidence, summary, model): none of them exists on a primitive or
    on an array; reading a property of null or undefined throws. *)
Definition field (v : value) (k : string) : value :=
  match v with
  | Obj fs => assoc k fs
  | _ => Undefined
  end.

Definition get (v : value) (k : string) : exn + value :=
  match v with
  | Undefined | Null => inl (TypeError "Cannot read properties of null or undefined")
  | _ => inr (field v k)
  end.

(** ToNumber on the operands whose conversion needs no string parsing.
    [None]: the operand is a string, an array or an object, whose
    conversion goes through StringToNumber (or throws, for an object
    with an own property toString that is not callable) and is not
    modelled. *)
Definition ToNumber (v : value) : option number :=
  match v with
  | Undefined => Some NaN
  | Null => Some (int 0)
  | Bool b => Some (int (if b then 1 else 0))
  | Num n => Some n
  | Str _ | Arr _ | Obj _ => None
  end.

(** [Math.round]: the nearest integer, ties towards +Infinity. *)
Definition round (n : number) : number :=
  match n with
  | NaN => NaN
  | Infinity s => Infinity s
  | Finite q => int (Qfloor (q + (1 # 2))%Q)
  end.

Definition Math_round (v : value) : option number := round <$> ToNumber v.

(** [String.prototype.toLowerCase] on the ASCII letters.  A character
    outside ASCII never lower-cases to an ASCII letter of "trustworthy"
    or "real", so comparisons with these two words are exact. *)
Definition lower_ascii (c : ascii) : ascii :=
  let n := nat_of_ascii c in
  if (65 <=? n)%nat && (n <=? 90)%nat then ascii_of_nat (n + 32) else c.

Fixpoint toLowerCase (s : string) : string :=
  match s with
  | EmptyString => EmptyString
  | String c r => String (lower_ascii c) (toLowerCase r)
  end.

Definition startsWith (s p : string) : bool := String.prefix p s.

Fixpoint includes (s sub : string) : bool :=
  String.prefix sub s ||
  match s with
  | EmptyString => false
  | String _ r => includes r sub
  end.

Definition is_space (c : ascii) : bool :=
  let n := nat_of_ascii c in (n =? 32)%nat || ((9 <=? n)%nat && (n <=? 13)%nat).

Fixpoint trimStart (s : string) : string :=
  match s with
  | EmptyString => EmptyString
  | String c r => if is_space c then trimStart r else s
  end.

Fixpoint trimEnd (s : string) : string :=
  match s with
  | EmptyString => EmptyString
  | String c r =>
      match trimEnd r with
      | EmptyString => if is_space c then EmptyString else String c EmptyString
      | r' => String c r'
      end
  end.

(** [String.prototype.trim] on ASCII white space; the other characters
    the method strips (U+00A0, U+FEFF, U+2028 and the like) are left in
    place, so the title of a request is exact for titles whose white
    space is ASCII. *)
Definition trim (s : string) : string := trimEnd (trimStart s).

End JS.

(** ** The document *)

Module DOM.

(** Markup the script writes with [innerHTML], kept as data: the
    loading indicator, a trust verdict and the error label.  The
    interpolated strings are kept as values, before their conversion
    to text.  [ErrorLabel] records the element its retry button
    re-processes. *)
Inductive widget :=
| Spinner
| Verdict (isTrustworthy : bool) (confidence : option JS.number)
          (summary model : JS.value) (analysis : JS.value) (url : string)
| ErrorLabel (result : nat) (url : string).

(** An element: [eid] is the identity of the JavaScript object, [attrs]
    its attributes ([dataset.truthlyProcessing] is the attribute
    data-truthly-processing; the href of an anchor holds the resolved
    URL, as the [href] property returns it). *)
Record element := {
  eid : nat;
  tag : string;
  classes : list string;
  attrs : gmap string string;
  inner : option widget
}.

#[local] Unset Elimination Schemes.
Inductive node :=
| Text (s : string)
| Elem (e : element) (children : list node).
#[local] Set Elimination Schemes.

(** The document is the list of nodes under the Document node. *)
Definition document := list node.

Section node_ind.
Variable P : node -> Prop.
Hypothesis P_text : forall s, P (Text s).
Hypothesis P_elem : forall e kids, Forall P kids -> P (Elem e kids).

Fixpoint node_ind (n : node) : P n :=
  match n with
  | Text s => P_text s
  | Elem e kids =>
      P_elem e kids
        ((fix all (l : list node) : Forall P l :=
            match l with
            | [] => List.Forall_nil P
            | k :: r => List.Forall_cons P k r (node_ind k) (all r)
            end) kids)
  end.
End node_ind.

Definition is_text (n : node) : bool :=
  match n with Text _ => true | Elem _ _ => false end.

(** Where an element sits: under the Document or inside a parent
    element, and whether an element sibling follows it. *)
Inductive ctx :=
| TopLevel (last_child : bool)
| Inside (parent : element) (pctx : ctx) (last_child : bool).

Definition last_child (c : ctx) : bool :=
  match c with TopLevel l | Inside _ _ l => l end.

Definition parentElement (c : ctx) : option element :=
  match c with TopLevel _ => None | Inside p _ _ => Some p end.

(** The selectors the script uses. *)
Inductive selector :=
| Tag (t : string)
| Class (c : string)
| HasAttr (k : string)
| AttrIs (k v : string)
| LastChild
| And (a b : selector)
| Child (p c : selector)
| Or (a b : selector).

Definition has_class (k : string) (e : element) : bool :=
  existsb (String.eqb k) (classes e).

Definition has_attr (k : string) (e : element) : bool :=
  match attrs e !! k with Some _ => true | None => false end.

Definition attr_is (k v : string) (e : element) : bool :=
  match attrs e !! k with Some v' => String.eqb v' v | None => false end.

Fixpoint matches (s : selector) (c : ctx) (e : element) : bool :=
  match s with
  | Tag t => String.eqb (tag e) t
  | Class k => has_class k e
  | HasAttr k => has_attr k e
  | AttrIs k v => attr_is k v e
  | LastChild => last_child c
  | And a b => matches a c e && matches b c e
  | Child p q =>
      matches q c e &&
      match c with
      | Inside pe pc _ => matches p pc pe
      | TopLevel _ => false
      end
  | Or a b => matches a c e || matches b c e
  end.

(** An element found in the tree, with its position and its subtree. *)
Record entry := { e_ctx : ctx; e_elem : element; e_kids : list node }.

Fixpoint walk (c : ctx) (n : node) : list entry :=
  match n with
  | Text _ => []
  | Elem e kids =>
      {| e_ctx := c; e_elem := e; e_kids := kids |} ::
      (fix go (l : list node) : list entry :=
         match l with
         | [] => []
         | k :: r => walk (Inside e c (forallb is_text r)) k ++ go r
         end) kids
  end.

(** The elements below [e], in document order. *)
Fixpoint walk_children (e : element) (c : ctx) (l : list node) : list entry :=
  match l with
  | [] => []
  | k :: r => walk (Inside e c (forallb is_text r)) k ++ walk_children e c r
  end.

(** The elements of the document, in document order. *)
Fixpoint walk_top (l : document) : list entry :=
  match l with
  | [] => []
  | k :: r => walk (TopLevel (forallb is_text r)) k ++ walk_top r
  end.

Definition selects (s : selector) (en : entry) : bool :=
  matches s (e_ctx en) (e_elem en).

(** [document.querySelectorAll(s)] *)
Definition querySelectorAll (s : selector) (d : document) : list entry :=
  filter (fun en => selects s en = true) (walk_top d).

(** [el.querySelector(s)]: the first matching descendant of [el]. *)
Definition querySelector (s : selector) (el : entry) : option entry :=
  head (filter (fun en => selects s en = true)
               (walk_children (e_elem el) (e_ctx el) (e_kids el))).

(** The element object [i], if it is in the document. *)
Definition find_entry (i : nat) (d : document) : option entry :=
  head (filter (fun en => eid (e_elem en) = i) (walk_top d)).

Fixpoint textContent (n : node) : string :=
  match n with
  | Text s => s
  | Elem _ kids =>
      (fix go (l : list node) : string :=
         match l with
         | [] => ""
         | k :: r => (textContent k ++ go r)%string
         end) kids
  end.

Definition textContent_of (en : entry) : string :=
  textContent (Elem (e_elem en) (e_kids en)).

Fixpoint firstElementChild (l : list node) : option element :=
  match l with
  | [] => None
  | Text _ :: r => firstElementChild r
  | Elem e _ :: _ => Some e
  end.

(** *** Mutation, by element identity *)

Fixpoint map_elements (g : element -> element) (n : node) : node :=
  match n with
  | Text s => Text s
  | Elem e kids => Elem (g e) (map (map_elements g) kids)
  end.

Definition with_attrs (g : gmap string string -> gmap string string)
           (e : element) : element :=
  {| eid := eid e; tag := tag e; classes := classes e;
     attrs := g (attrs e); inner := inner e |}.

Definition update (i : nat) (g : gmap string string -> gmap string string)
           (d : document) : document :=
  map (map_elements (fun e => if decide (eid e = i) then with_attrs g e else e)) d.

(** [el.setAttribute(k, v)] / [el.dataset.x = v] *)
Definition set_attr (i : nat) (k v : string) : document -> document :=
  update i (insert k v).

(** [delete el.dataset.x] *)
Definition del_attr (i : nat) (k : string) : document -> document :=
  update i (delete k).

Fixpoint strip (i : nat) (n : node) : list node :=
  match n with
  | Text s => [Text s]
  | Elem e kids =>
      if decide (eid e = i) then [] else [Elem e (kids ≫= strip i)]
  end.

(** [el.remove()] *)
Definition remove (i : nat) (d : document) : document := d ≫= strip i.

Fixpoint place (t : nat) (w : node) (n : node) : list node :=
  match n with
  | Text s => [Text s]
  | Elem e kids =>
      Elem e (kids ≫= place t w) :: (if decide (eid e = t) then [w] else [])
  end.

(** [t.parentElement.insertBefore(w, t.nextSibling)] *)
Definition insert_after (t : nat) (w : node) (d : document) : document :=
  d ≫= place t w.

Fixpoint adopt (p : nat) (w : node) (n : node) : node :=
  match n with
  | Text s => Text s
  | Elem e kids =>
      Elem e (map (adopt p w) kids ++ (if decide (eid e = p) then [w] else []))
  end.

(** [p.appendChild(w)] *)
Definition append_child (p : nat) (w : node) (d : document) : document :=
  map (adopt p w) d.

(** The elements of a subtree, without their positions. *)
Fixpoint elems (n : node) : list element :=
  match n with
  | Text _ => []
  | Elem e kids => e :: (kids ≫= elems)
  end.

Definition elements (d : document) : list element := d ≫= elems.

(** The elements of a subtree, each with its children. *)
Fixpoint parts (n : node) : list (element * list node) :=
  match n with
  | Text _ => []
  | Elem e kids => (e, kids) :: (kids ≫= parts)
  end.

Definition all_parts (d : document) : list (element * list node) := d ≫= parts.

(** The elements named [t] among [l], and one copy of [new] for each. *)
Definition named (t : nat) (l : list element) : list element :=
  filter (fun e => eid e = t) l.

Definition copies (t : nat) (new : list element) (l : list element) : list element :=
  named t l ≫= (fun _ => new).

(** *** Notions used to reason about the tree *)

(** Selectors that look at the element alone. *)
Fixpoint local (s : selector) : bool :=
  match s with
  | Tag _ | Class _ | HasAttr _ | AttrIs _ _ => true
  | LastChild | Child _ _ => false
  | And a b | Or a b => local a && local b
  end.

(** What a selector that looks at the element alone says of [e]. *)
Definition test (s : selector) (e : element) : bool := matches s (TopLevel true) e.

(** The change [update i g] makes to an element. *)
Definition touch (i : nat) (g : gmap string string -> gmap string string)
           (e : element) : element :=
  if decide (eid e = i) then with_attrs g e else e.

(** The positions and entries of a tree whose elements went through [g]. *)
Fixpoint map_ctx (g : element -> element) (c : ctx) : ctx :=
  match c with
  | TopLevel l => TopLevel l
  | Inside p pc l => Inside (g p) (map_ctx g pc) l
  end.

Definition map_entry (g : element -> element) (en : entry) : entry :=
  {| e_ctx := map_ctx g (e_ctx en); e_elem := g (e_elem en);
     e_kids := map (map_elements g) (e_kids en) |}.

(** [g] does not change what selector [s] sees. *)
Definition stable (g : element -> element) (s : selector) : Prop :=
  forall c e, matches s (map_ctx g c) (g e) = matches s c e.

(** Selector [s] tests attribute [k]. *)
Fixpoint reads (k : string) (s : selector) : bool :=
  match s with
  | HasAttr k' | AttrIs k' _ => String.eqb k k'
  | And a b | Child a b | Or a b => reads k a || reads k b
  | Tag _ | Class _ | LastChild => false
  end.

Definition only_key (k : string) (g : gmap string string -> gmap string string) : Prop :=
  forall m k', k' <> k -> g m !! k' = m !! k'.

End DOM.

(** ** The content script *)

Module Ext.
Import JS DOM.

(** [this.settings]: what the script reads of it is the truth value of
    each property. *)
Record Settings := {
  enabled : bool;
  autoAnalyze : bool;
  cacheResults : bool
}.

(** The call [fetch(endpoint, {method: 'POST', body: {url, title}})]
    together with the element the suspended [processSearchResult]
    holds on to. *)
Record request := {
  rq_result : nat;
  rq_endpoint : string;
  rq_url : string;
  rq_title : string
}.

(** The fields of the [TruthlyExtension] object, the document, the
    counter naming the next created element, the number of scan timers
    set and not yet fired, the analyses suspended at their [await], and
    whether [init] has installed the observer and the message
    listener. *)
Record State := {
  cache : gmap string value;
  settings : Settings;
  doc : document;
  next_id : nat;
  timers : nat;
  inflight : list request;
  listening : bool
}.

Definition set_cache (c : gmap string value) (st : State) : State :=
  {| cache := c; settings := settings st; doc := doc st; next_id := next_id st;
     timers := timers st; inflight := inflight st; listening := listening st |}.

Definition set_settings (s : Settings) (st : State) : State :=
  {| cache := cache st; settings := s; doc := doc st; next_id := next_id st;
     timers := timers st; inflight := inflight st; listening := listening st |}.

Definition set_doc (d : document) (st : State) : State :=
  {| cache := cache st; settings := settings st; doc := d; next_id := next_id st;
     timers := timers st; inflight := inflight st; listening := listening st |}.

Definition set_next_id (n : nat) (st : State) : State :=
  {| cache := cache st; settings := settings st; doc := doc st; next_id := n;
     timers := timers st; inflight := inflight st; listening := listening st |}.

Definition set_timers (n : nat) (st : State) : State :=
  {| cache := cache st; settings := settings st; doc := doc st; next_id := next_id st;
     timers := n; inflight := inflight st; listening := listening st |}.

Definition set_inflight (l : list request) (st : State) : State :=
  {| cache := cache st; settings := settings st; doc := doc st; next_id := next_id st;
     timers := timers st; inflight := l; listening := listening st |}.

Definition set_listening (b : bool) (st : State) : State :=
  {| cache := cache st; settings := settings st; doc := doc st; next_id := next_id st;
     timers := timers st; inflight := inflight st; listening := b |}.

(** How a synchronous call ends, and how the promise of
    [processSearchResult] stands when control returns to the caller. *)
Inductive completion := Normal | Throw (e : exn).
Inductive promise := Fulfilled | Rejected (e : exn) | Pending (rq : request).

Definition serverUrl : string := "http://localhost:5000".
Definition mark : string := "data-truthly-processing".

Definition label_or_loading : selector :=
  Or (Class "truthly-label") (Class "truthly-loading").

Definition link_selector : selector := And (Tag "a") (HasAttr "href").

(** [linkElement.href] *)
Definition href (en : entry) : string :=
  default "" (attrs (e_elem en) !! "href").

(** [a || b] on query results. *)
Definition orElse {A} (a b : option A) : option A :=
  match a with Some _ => a | None => b end.

Definition find_title (result : entry) : option entry :=
  orElse (querySelector (Tag "h3") result)
         (querySelector (AttrIs "role" "heading") result).

Definition removeAllLabels (st : State) : State :=
  let d := doc st in
  let d1 := foldl (fun d en => remove (eid (e_elem en)) d) d
                  (querySelectorAll label_or_loading d) in
  let d2 := foldl (fun d en => del_attr (eid (e_elem en)) mark d) d1
                  (querySelectorAll (HasAttr mark) d1) in
  set_doc d2 st.

(** [setTimeout(() => this.processSearchResults(), 1000)] *)
Definition waitForSearchResults (st : State) : State :=
  set_timers (S (timers st)) st.

Definition shouldProcessResult (r : nat) (st : State) : bool :=
  match find_entry r (doc st) with
  | None => false
  | Some result =>
      match querySelector (Class "truthly-label") result with
      | Some _ => false
      | None =>
          if decide (attrs (e_elem result) !! mark = Some "true") then false
          else
            match querySelector link_selector result with
            | None => false
            | Some linkElement =>
                let url := href linkElement in
                if includes url "google.com" || includes url "maps.google.com" ||
                   includes url "images.google.com" || startsWith url "javascript:"
                then false
                else true
            end
      end
  end.

Definition style_of_wrapper : string := "margin: 4px 0; clear: both; display: block;".

(** [document.createElement('div')] with the style given to the wrapper. *)
Definition wrapper_div (i : nat) : element :=
  {| eid := i; tag := "div"; classes := [];
     attrs := {[ "style" := style_of_wrapper ]}; inner := None |}.

Definition insertLabel (r : nat) (labelElement : node) (st : State) : State :=
  match find_entry r (doc st) with
  | None => st
  | Some result =>
      let titleElement := find_title result in
      let snippetElement :=
        orElse (querySelector (HasAttr "data-content-feature") result)
          (orElse (querySelector (Class "VwiC3b") result)
             (querySelector (Child (HasAttr "data-ved") (And (Tag "div") LastChild))
                            result)) in
      let insertionPoint : option element :=
        match snippetElement with
        | Some s => Some (e_elem s)
        | None =>
            match titleElement ≫= (fun t => parentElement (e_ctx t)) with
            | Some p => Some p
            | None => firstElementChild (e_kids result)
            end
        end in
      let wrapper := Elem (wrapper_div (next_id st)) [labelElement] in
      let st := set_next_id (S (next_id st)) st in
      match insertionPoint with
      | Some ip =>
          match find_entry (eid ip) (doc st) ≫= (fun en => parentElement (e_ctx en)) with
          | Some _ => set_doc (insert_after (eid ip) wrapper (doc st)) st
          | None => set_doc (append_child r wrapper (doc st)) st
          end
      | None => set_doc (append_child r wrapper (doc st)) st
      end
  end.

(** [document.createElement('div')] with the class names and the
    markup then assigned to it. *)
Definition createLabel (cls : list string) (w : widget) (st : State) : node * State :=
  (Elem {| eid := next_id st; tag := "div"; classes := cls; attrs := ∅;
           inner := Some w |} [],
   set_next_id (S (next_id st)) st).

Definition addLoadingIndicator (r : nat) (st : State) : State :=
  match find_entry r (doc st) with
  | None => st
  | Some result =>
      match querySelector (Class "truthly-loading") result with
      | Some _ => st
      | None =>
          let (loadingDiv, st) := createLabel ["truthly-loading"] Spinner st in
          insertLabel r loadingDiv st
      end
  end.

Definition removeLoadingIndicator (r : nat) (st : State) : State :=
  match find_entry r (doc st) with
  | None => st
  | Some result =>
      match querySelector (Class "truthly-loading") result with
      | Some loading => set_doc (remove (eid (e_elem loading)) (doc st)) st
      | None => st
      end
  end.

Definition displayErrorLabel (r : nat) (url : string) (st : State) : State :=
  let (labelDiv, st) := createLabel ["truthly-label"; "error"] (ErrorLabel r url) st in
  insertLabel r labelDiv st.

Definition isTrustworthy_of (label : string) : bool :=
  String.eqb (toLowerCase label) "trustworthy" || String.eqb (toLowerCase label) "real".

(** [Math.round(analysis.confidence || 0)] *)
Definition confidence_of (analysis : value) : option number :=
  Math_round (or (field analysis "confidence") (Num (int 0))).

(** [displayLabel].  The conversions of the confidence to a number and
    of the summary and the model to text are taken as [ToNumber] and
    [DOM.widget] have them: a confidence that is a number, a boolean,
    null or missing and a summary and a model that are primitive values
    are shown as written here.  A confidence, a summary or a model that
    is an object or an array may make its conversion throw (an own
    property toString that is not callable); that case is not
    embedded. *)
Definition displayLabel (r : nat) (analysis : value) (url : string) (st : State)
  : State * completion :=
  match get analysis "label" with
  | inl e => (st, Throw e)
  | inr label =>
      if truthy label then
        match label with
        | Str s =>
            let isTrustworthy := isTrustworthy_of s in
            let confidence := confidence_of analysis in
            let summary := or (field analysis "summary") (Str "No summary available") in
            let model := or (field analysis "model") (Str "BART/LLaMA") in
            let (labelDiv, st) :=
              createLabel ["truthly-label";
                           if isTrustworthy then "trustworthy" else "untrustworthy"]
                          (Verdict isTrustworthy confidence summary model analysis url) st in
            (insertLabel r labelDiv st, Normal)
        | _ => (st, Throw (TypeError "analysis.label.toLowerCase is not a function"))
        end
      else (displayErrorLabel r url st, Normal)
  end.

(** What the server, or the network, answers to a [fetch]: the fetch
    rejects, or a response arrives whose body [response.json()] parses
    ([inr]) or rejects with a message ([inl]). *)
Inductive fetch_outcome :=
| NetworkFailure (message : string)
| Response (status : nat) (body : string + value).

(** [response.ok] *)
Definition ok (status : nat) : bool := (200 <=? status)%nat && (status <=? 299)%nat.

Definition failure (message : string) : value :=
  Obj [("success", Bool false); ("error", Str message)].

(** The value [analyzeUrlExtension] resolves to once its fetch has
    settled with [o]. *)
Definition analyzeUrlExtension (o : fetch_outcome) : value :=
  match o with
  | NetworkFailure m => failure m
  | Response status body =>
      if ok status then
        match body with
        | inr data => data
        | inl m => failure m
        end
      else failure ("HTTP error! status: " ++ pretty status)%string
  end.

(** The [finally] block. *)
Definition cleanup (r : nat) (st : State) : State :=
  removeLoadingIndicator r (set_doc (set_attr r mark "false" (doc st)) st).

(** The [catch] block: [url] is declared inside the [try] block and is
    not in scope here, so evaluating the arguments of
    [displayErrorLabel(result, url)] throws. *)
Definition handler (e : exn) : completion := Throw (ReferenceError "url").

(** [try { body } catch { handler } finally { cleanup }]. *)
Definition settle (r : nat) (body : State * completion) : State * promise :=
  match body with
  | (st, Normal) => (cleanup r st, Fulfilled)
  | (st, Throw e) =>
      (cleanup r st,
       match handler e with Normal => Fulfilled | Throw e' => Rejected e' end)
  end.

(** [processSearchResult], up to its [await] or to its end. *)
Definition processSearchResult (r : nat) (st : State) : State * promise :=
  let st := set_doc (set_attr r mark "true" (doc st)) st in
  match find_entry r (doc st) with
  | None => settle r (st, Normal)
  | Some result =>
      match querySelector link_selector result, find_title result with
      | Some linkElement, Some titleElement =>
          let url := href linkElement in
          let title := trim (textContent_of titleElement) in
          let cacheKey := url in
          match cache st !! cacheKey with
          | Some cached => settle r (displayLabel r cached url st)
          | None =>
              (addLoadingIndicator r st,
               Pending {| rq_result := r;
                          rq_endpoint := (serverUrl ++ "/api/analyze-extension")%string;
                          rq_url := url; rq_title := title |})
          end
      | _, _ => settle r (st, Normal)
      end
  end.

(** [processSearchResult] from its [await] on, once the fetch of [rq]
    has settled with [o]. *)
Definition resume (rq : request) (o : fetch_outcome) (st : State) : State * promise :=
  let r := rq_result rq in
  let url := rq_url rq in
  let cacheKey := url in
  let analysis := analyzeUrlExtension o in
  settle r
    (if truthy analysis && truthy (field analysis "success") &&
        truthy (field analysis "data")
     then
       let data := field analysis "data" in
       let st := if cacheResults (settings st)
                 then set_cache (<[cacheKey := data]> (cache st)) st
                 else st in
       displayLabel r data url st
     else (displayErrorLabel r url st, Normal)).

(** A call of [processSearchResult] that is not awaited: a pending one
    joins the suspended analyses, a rejection is dropped. *)
Definition launch (r : nat) (st : State) : State :=
  match processSearchResult r st with
  | (st, Pending rq) => set_inflight (inflight st ++ [rq]) st
  | (st, _) => st
  end.

Definition processSearchResults (st : State) : State :=
  if negb (enabled (settings st)) then st
  else
    foldl (fun st en =>
             let r := eid (e_elem en) in
             if shouldProcessResult r st then launch r st else st)
          st (querySelectorAll (HasAttr "data-ved") (doc st)).

Inductive message :=
| SETTINGS_UPDATED (s : Settings)
| CLEAR_CACHE
| Other (type : string).

Definition handleMessage (m : message) (st : State) : State :=
  match m with
  | SETTINGS_UPDATED s =>
      let st := set_settings s st in
      if negb (enabled (settings st)) then removeAllLabels st
      else waitForSearchResults st
  | CLEAR_CACHE =>
      let st := set_cache ∅ st in
      let st := removeAllLabels st in
      if enabled (settings st) then waitForSearchResults st else st
  | Other _ => st
  end.

(** What [chrome.storage.sync.get] hands to [loadSettings]. *)
Record stored := { s_enabled : value; s_autoAnalyze : value; s_cacheResults : value }.

(** [v !== false] *)
Definition not_false (v : value) : bool :=
  match v with Bool false => false | _ => true end.

Definition loadSettings (result : stored) (st : State) : State :=
  set_settings {| enabled := not_false (s_enabled result);
                  autoAnalyze := not_false (s_autoAnalyze result);
                  cacheResults := not_false (s_cacheResults result) |} st.

(** The constructor, on the page [d]. *)
Definition new (d : document) (fresh : nat) : State :=
  {| cache := ∅;
     settings := {| enabled := true; autoAnalyze := true; cacheResults := true |};
     doc := d; next_id := fresh; timers := 0; inflight := []; listening := false |}.

Definition init (result : stored) (st : State) : State :=
  let st := loadSettings result st in
  if negb (enabled (settings st)) then st
  else set_listening true (waitForSearchResults st).

(** *** The event loop *)

Inductive event :=
| Message (m : message)
| TimerFires
| Mutation
| FetchSettles (i : nat) (o : fetch_outcome)
| RetryClick (label : nat).

(** The click listener of the retry button of error label [label]. *)
Definition retry (label : nat) (st : State) : State :=
  match find_entry label (doc st) with
  | Some en =>
      match inner (e_elem en) with
      | Some (ErrorLabel result _) =>
          let st := set_doc (remove label (doc st)) st in
          let st := set_doc (del_attr result mark (doc st)) st in
          launch result st
      | _ => st
      end
  | None => st
  end.

Definition step (st : State) (ev : event) : State :=
  match ev with
  | Message m => if listening st then handleMessage m st else st
  | TimerFires =>
      match timers st with
      | O => st
      | S n => processSearchResults (set_timers n st)
      end
  | Mutation =>
      if listening st && enabled (settings st) then waitForSearchResults st else st
  | FetchSettles i o =>
      match inflight st !! i with
      | Some rq => fst (resume rq o (set_inflight (delete i (inflight st)) st))
      | None => st
      end
  | RetryClick label => retry label st
  end.

Definition run (st : State) (evs : list event) : State := foldl step st evs.

(** *** Observations *)

(** The URL and the title [processSearchResult] reads off element [r]. *)
Definition link_url (r : nat) (st : State) : option string :=
  href <$> (find_entry r (doc st) ≫= querySelector link_selector).

Definition title_text (r : nat) (st : State) : option string :=
  (fun t => trim (textContent_of t)) <$> (find_entry r (doc st) ≫= find_title).

(** The network calls a [processSearchResult] has issued when it hands
    control back. *)
Definition requests (p : promise) : list request :=
  match p with Pending rq => [rq] | _ => [] end.

(** The markup written by the script that is in the document. *)
Definition widget_of (e : element) : option (nat * widget) :=
  (fun w => (eid e, w)) <$> inner e.

Definition rendered (st : State) : list (nat * widget) :=
  omap widget_of (elements (doc st)).

(** [result.querySelector('.truthly-label')] finds a label. *)
Definition labelled (r : nat) (st : State) : bool :=
  match find_entry r (doc st) ≫= querySelector (Class "truthly-label") with
  | Some _ => true
  | None => false
  end.

Definition is_verdict (w : widget) : bool :=
  match w with Verdict _ _ _ _ _ _ => true | _ => false end.

Definition is_error (w : widget) : bool :=
  match w with ErrorLabel _ _ => true | _ => false end.

(** [result.dataset.truthlyProcessing === 'true'] *)
Definition processing (r : nat) (st : State) : bool :=
  match find_entry r (doc st) with
  | Some result => bool_decide (attrs (e_elem result) !! mark = Some "true")
  | None => false
  end.

(** *** Notions used to reason about the script *)

Definition is_loading (e : element) : bool := has_class "truthly-loading" e.

(** Different elements have different names, all below the next one to
    be given out, and a loading indicator has no children. *)
Definition tidy (st : State) : Prop :=
  NoDup (eid <$> elements (doc st)) /\
  (forall e, e ∈ elements (doc st) -> eid e < next_id st) /\
  (forall e kids, (e, kids) ∈ all_parts (doc st) -> is_loading e = true -> kids = []).

(** Element [r], when it is in the document, is not a loading indicator. *)
Definition page_element (r : nat) (st : State) : Prop :=
  forall e, e ∈ elements (doc st) -> eid e = r -> is_loading e = false.

(** What holds of every element while the script runs on a page whose
    own elements are named below [base]: an element the script created has
    no data-ved attribute, a loading indicator is an element the script
    created, the retry button of an error label re-processes a page
    element, and markup of the script sits in an element with the class
    of a label or of the loading indicator. *)
Definition good (base : nat) (e : element) : Prop :=
  (base <= eid e -> attrs e !! "data-ved" = None) /\
  (is_loading e = true -> base <= eid e) /\
  (forall r u, inner e = Some (ErrorLabel r u) -> r < base) /\
  (forall w, inner e = Some w -> has_class "truthly-label" e || is_loading e = true).

(** The invariant of the event loop. *)
Definition wf (base : nat) (st : State) : Prop :=
  tidy st /\ base <= next_id st /\
  (forall e, e ∈ elements (doc st) -> good base e) /\
  (forall rq, rq ∈ inflight st -> rq_result rq < base).


(** A page as loaded: no element carries markup of the script or the
    class of the loading indicator. *)
Definition untouched (e : element) : bool :=
  negb (is_loading e) && match inner e with None => true | Some _ => false end.

(** The two notions above, as tests. *)
Fixpoint distinct (l : list nat) : bool :=
  match l with
  | [] => true
  | x :: r => negb (existsb (Nat.eqb x) r) && distinct r
  end.

Definition childless (p : element * list node) : bool :=
  match p.2 with [] => true | _ => false end.

Definition tidyb (st : State) : bool :=
  distinct (eid <$> elements (doc st)) &&
  forallb (fun e => (eid e <? next_id st)%nat) (elements (doc st)) &&
  forallb (fun p => negb (is_loading p.1) || childless p) (all_parts (doc st)).

Definition page_elementb (r : nat) (st : State) : bool :=
  forallb (fun e => negb (eid e =? r)%nat || negb (is_loading e)) (elements (doc st)).

(** What the document operations leave alone. *)
Definition frame (st st' : State) : Prop :=
  cache st' = cache st /\ settings st' = settings st /\ inflight st' = inflight st /\
  timers st' = timers st /\ listening st' = listening st.

(** A document with no label, no loading indicator and no mark. *)
Definition bare (d : document) : Prop :=
  querySelectorAll label_or_loading d = [] /\ querySelectorAll (HasAttr mark) d = [].


(** The normalized confidence is an integer between 0 and 100. *)
Definition normalized_in_range (analysis : value) : Prop :=
  exists z : Z, confidence_of analysis = Some (int z) /\ (0 <= z <= 100)%Z.

(** The confidence sent by the service is a number between 0 and 100, or
    is absent (or falsy). *)
Definition confidence_input_in_range (v : value) : Prop :=
  match v with
  | Num (Finite q) => (0 <= q)%Q /\ (q <= 100)%Q
  | _ => truthy v = false
  end.

(** Element [r] shows the error label and the document shows no verdict. *)
Definition failure_outcome (r : nat) (st : State) : Prop :=
  (exists i url, (i, ErrorLabel r url) ∈ rendered st) /\
  (forall i w, (i, w) ∈ rendered st -> is_verdict w = false).



End Ext.

(** ** Sample pages and responses *)

Module Samples.
Import JS DOM Ext.

Definition el (i : nat) (t : string) (cls : list string)
           (a : list (string * string)) : element :=
  {| eid := i; tag := t; classes := cls; attrs := list_to_map a; inner := None |}.

Definition example_url : string := "http://example.com/a".

(** A search hit as the results page nests it: the title inside the
    link, followed by the snippet. *)
Definition results_page : document :=
  [Elem (el 0 "body" [] [])
     [Elem (el 1 "div" ["g"] [("data-ved", "2ahUKEwi")])
        [Elem (el 2 "div" [] [])
           [Elem (el 3 "a" [] [("href", example_url)])
              [Elem (el 4 "h3" [] []) [Text " Example "]]];
         Elem (el 5 "div" ["VwiC3b"] []) [Text "snippet"]]]].

(** A hit whose title is a child of the result element itself and that
    has no snippet. *)
Definition flat_page : document :=
  [Elem (el 0 "body" [] [])
     [Elem (el 1 "div" [] [("data-ved", "2ahUKEwi")])
        [Elem (el 2 "h3" [] []) [Text "Example"];
         Elem (el 3 "a" [] [("href", example_url)]) []]]].

(** A marked element with a link and no title. *)
Definition untitled_page : document :=
  [Elem (el 0 "body" [] [])
     [Elem (el 1 "div" [] [("data-ved", "2ahUKEwi")])
        [Elem (el 2 "a" [] [("href", example_url)]) [Text "more"]]]].

Definition nothing_stored : stored :=
  {| s_enabled := Undefined; s_autoAnalyze := Undefined; s_cacheResults := Undefined |}.

(** The script started on page [d]. *)
Definition started (d : document) : State := init nothing_stored (new d 100).

Definition data (label : value) (confidence : value) : value :=
  Obj [("label", label); ("confidence", confidence);
       ("summary", Str "ok"); ("model", Str "X")].

Definition success (d : value) : fetch_outcome :=
  Response 200 (inr (Obj [("success", Bool true); ("data", d)])).

Definition scenario_data : value := data (Str "Real") (Num (Finite (874 # 10)%Q)).

(** The state in which the analysis of [example_url] is cached. *)
Definition cached_state (d : document) : State :=
  set_cache {[ example_url := scenario_data ]} (started d).

(** The page once the analysis of its hit has been rendered and cached. *)
Definition analysed_state : State :=
  run (started results_page) [TimerFires; FetchSettles 0 (success scenario_data)].

Definition switched_off : Settings :=
  {| enabled := false; autoAnalyze := true; cacheResults := true |}.

Definition not_caching : Settings :=
  {| enabled := true; autoAnalyze := true; cacheResults := false |}.

Definition request_for (r : nat) (url title : string) : request :=
  {| rq_result := r; rq_endpoint := "http://localhost:5000/api/analyze-extension";
     rq_url := url; rq_title := title |}.

End Samples.

(** ** Notions used to reason about runs of the content script *)

Module Notions.
Import JS DOM Ext.

(** The template literal [`${this.serverUrl}/api/analyze-extension`]. *)
Definition endpoint : string := (serverUrl ++ "/api/analyze-extension")%string.

(** The fetch did not deliver a parsed body with a 2xx status: the
    three ways into the [catch] block of [analyzeUrlExtension]. *)
Definition failed (o : fetch_outcome) : bool :=
  match o with
  | NetworkFailure _ => true
  | Response _ (inl _) => true
  | Response status (inr _) => negb (ok status)
  end.

(** The test [analysis && analysis.success && analysis.data]. *)
Definition accepted (analysis : value) : bool :=
  truthy analysis && truthy (field analysis "success") && truthy (field analysis "data").

(** The CLEAR_CACHE message. *)
Definition clears (ev : event) : bool :=
  match ev with Message CLEAR_CACHE => true | _ => false end.

(** The candidates of a scan. *)
Definition candidates (st : State) : list nat :=
  (fun en => eid (e_elem en)) <$> querySelectorAll (HasAttr "data-ved") (doc st).

(** The loop of [processSearchResults] over the candidates [l]. *)
Definition scan (l : list entry) (st : State) : State :=
  foldl (fun st en =>
           let r := eid (e_elem en) in
           if shouldProcessResult r st then launch r st else st) st l.

(** A request as [analyzeUrlExtension] sends it. *)
Definition to_endpoint (rq : request) : Prop := rq_endpoint rq = endpoint.

(** The page under the script's additions: the tree without the elements
    created from [base] on and without the processing marks. *)
Definition unmarked (e : element) : element := with_attrs (delete mark) e.

Fixpoint own_content (base : nat) (n : node) : list node :=
  match n with
  | Text s => [Text s]
  | Elem e kids =>
      if (base <=? eid e)%nat then []
      else [Elem (unmarked e) (kids ≫= own_content base)]
  end.

Definition page_content (base : nat) (d : document) : document :=
  d ≫= own_content base.

(** A page as the browser loaded it, its elements numbered below
    [fresh]: distinct elements, none with markup of the script, with the
    class of its labels or of its loading indicator, or with the
    processing mark. *)
Definition pristine (fresh : nat) (d : document) : bool :=
  distinct (eid <$> elements d) &&
  forallb (fun e => (eid e <? fresh)%nat) (elements d) &&
  forallb untouched (elements d) &&
  forallb (fun e => negb (has_class "truthly-label" e) && negb (has_attr mark e))
          (elements d).

(** The elements with the class of a label are elements the script
    created. *)
Definition unlabelled (base : nat) (st : State) : Prop :=
  forall e, e ∈ elements (doc st) -> has_class "truthly-label" e = true -> base <= eid e.

(** The invariant of the event loop on a page whose content is
    [content]. *)
Definition keeps_page (base : nat) (content : document) (st : State) : Prop :=
  wf base st /\ unlabelled base st /\ page_content base (doc st) = content.

(** *** What the specification says of the normalization, to compare
    the code with *)

Definition is_upper (c : ascii) : bool :=
  (65 <=? nat_of_ascii c)%nat && (nat_of_ascii c <=? 90)%nat.

(** The same character, or the same letter A..Z in its two cases. *)
Definition same_letter (a b : ascii) : bool :=
  Ascii.eqb a b ||
  (is_upper a && (nat_of_ascii b =? nat_of_ascii a + 32)%nat) ||
  (is_upper b && (nat_of_ascii a =? nat_of_ascii b + 32)%nat).

(** Two texts that are equal up to the case of their letters. *)
Fixpoint caseless (s t : string) : bool :=
  match s, t with
  | EmptyString, EmptyString => true
  | String a s', String b t' => same_letter a b && caseless s' t'
  | _, _ => false
  end.

(** The category of a label: trustworthy when the label is one of the
    two words, whatever the case of its letters. *)
Definition trustworthy_category (label : string) : bool :=
  caseless label "trustworthy" || caseless label "real".

(** [z] is the integer nearest to [q], the upper one at a tie. *)
Definition nearest (z : Z) (q : Q) : Prop :=
  (inject_Z z - (1 # 2) <= q)%Q /\ (q < inject_Z z + (1 # 2))%Q.

(** A field of the response that holds a text or is missing, and a
    field that holds a number or is missing. *)
Definition text_field (o : option string) : value :=
  match o with Some t => Str t | None => Undefined end.

Definition number_field (o : option Q) : value :=
  match o with Some q => Num (Finite q) | None => Undefined end.

(** The text shown for a field: the placeholder when the field is
    missing or empty. *)
Definition text_or (placeholder : string) (o : option string) : string :=
  match o with
  | Some t => if String.eqb t "" then placeholder else t
  | None => placeholder
  end.

(** *** Counting timers *)

Definition is_notice (ev : event) : bool :=
  match ev with Mutation => true | _ => false end.

Definition is_firing (ev : event) : bool :=
  match ev with TimerFires => true | _ => false end.

Definition is_message (ev : event) : bool :=
  match ev with Message _ => true | _ => false end.

Definition notices (evs : list event) : nat := length (List.filter is_notice evs).

Definition firings (evs : list event) : nat := length (List.filter is_firing evs).

(** Every timer that fires in [evs] is one that waits, [t] timers
    waiting at the start. *)
Fixpoint due (t : nat) (evs : list event) : bool :=
  match evs with
  | [] => true
  | Mutation :: rest => due (S t) rest
  | TimerFires :: rest =>
      match t with
      | O => false
      | S t' => due t' rest
      end
  | _ :: rest => due t rest
  end.

(** Element [i] carries the processing mark with the value true. *)
Definition marked (i : nat) (st : State) : Prop :=
  exists e, e ∈ elements (doc st) /\ eid e = i /\ attrs e !! mark = Some "true".

(** Every element marked as being processed has an analysis suspended
    at its fetch. *)
Definition marks_are_pending (st : State) : Prop :=
  forall i, marked i st -> exists rq, rq ∈ inflight st /\ rq_result rq = i.

End Notions.

(** ** The background service worker *)

(** What the embedding assumes of the browser: a storage operation takes
    effect when it is issued and its callback runs before the next event
    is handled; writes stay within the storage quotas; the values in a
    message are the JSON values the sender serialized; a string is held
    as the bytes of its UTF-8 form and is well formed (no lone
    surrogate), so [encodeURIComponent] never throws; an exception that
    leaves a listener is dropped by the browser. *)

Module Background.
Import JS.

(** What the worker reads and writes: the two storage areas of
    [chrome.storage] (key to stored value), the ids of
    the context menu items, the URLs of the tabs it created and the ids
    of the tabs it reloaded (oldest first), the number of times it opened
    the popup, and the arguments of [sendResponse] (oldest first). *)
Record Worker := {
  sync_area : gmap string value;
  local_area : gmap string value;
  menus : list string;
  created : list string;
  reloaded : list nat;
  popups : nat;
  replies : list value
}.

Definition set_sync (a : gmap string value) (w : Worker) : Worker :=
  {| sync_area := a; local_area := local_area w; menus := menus w; created := created w;
     reloaded := reloaded w; popups := popups w; replies := replies w |}.

Definition set_local (a : gmap string value) (w : Worker) : Worker :=
  {| sync_area := sync_area w; local_area := a; menus := menus w; created := created w;
     reloaded := reloaded w; popups := popups w; replies := replies w |}.

Definition set_menus (l : list string) (w : Worker) : Worker :=
  {| sync_area := sync_area w; local_area := local_area w; menus := l; created := created w;
     reloaded := reloaded w; popups := popups w; replies := replies w |}.

(** [chrome.tabs.create({ url })] *)
Definition create_tab (url : string) (w : Worker) : Worker :=
  {| sync_area := sync_area w; local_area := local_area w; menus := menus w;
     created := created w ++ [url];
     reloaded := reloaded w; popups := popups w; replies := replies w |}.

(** [chrome.tabs.reload(id)] *)
Definition reload_tab (id : nat) (w : Worker) : Worker :=
  {| sync_area := sync_area w; local_area := local_area w; menus := menus w;
     created := created w; reloaded := reloaded w ++ [id];
     popups := popups w; replies := replies w |}.

(** [chrome.action.openPopup()] *)
Definition openPopup (w : Worker) : Worker :=
  {| sync_area := sync_area w; local_area := local_area w; menus := menus w;
     created := created w; reloaded := reloaded w;
     popups := S (popups w); replies := replies w |}.

(** [sendResponse(v)] *)
Definition sendResponse (v : value) (w : Worker) : Worker :=
  {| sync_area := sync_area w; local_area := local_area w; menus := menus w;
     created := created w; reloaded := reloaded w;
     popups := popups w; replies := replies w ++ [v] |}.

(** [area.set(items)]: every property of [items] is written, the other
    keys stay.  Of two entries of the list with one key the first is the
    property, as for [assoc]. *)
Definition storage_set (items : list (string * value)) (a : gmap string value) : gmap string value :=
  list_to_map items ∪ a.

(** [area.get(keys)]: an object with the keys that are stored. *)
Definition storage_get (keys : list string) (a : gmap string value) : value :=
  Obj (omap (fun k => (fun v => (k, v)) <$> a !! k) keys).

(** An object literal as the storage keeps it: a property whose value is
    [undefined] is left out. *)
Definition defined (v : value) : bool :=
  match v with Undefined => false | _ => true end.

Definition serialized (fs : list (string * value)) : value :=
  Obj (List.filter (fun kv => defined kv.2) fs).

(** [v === 'text'] *)
Definition same (v : value) (text : string) : bool :=
  match v with Str s => String.eqb s text | _ => false end.

(** ToString on the operands whose conversion is immediate.  [None]:
    the operand is a number, an array or an object, whose conversion is
    not modelled. *)
Definition ToString (v : value) : option string :=
  match v with
  | Undefined => Some "undefined"
  | Null => Some "null"
  | Bool b => Some (if b then "true" else "false")
  | Str s => Some s
  | Num _ | Arr _ | Obj _ => None
  end.

(** *** [encodeURIComponent] *)

Definition in_range (lo hi : nat) (c : ascii) : bool :=
  (lo <=? nat_of_ascii c)%nat && (nat_of_ascii c <=? hi)%nat.

(** Letters, digits and the marks - _ . ! ~ * ' ( ) *)
Definition unreserved (c : ascii) : bool :=
  in_range 48 57 c || in_range 65 90 c || in_range 97 122 c ||
  existsb (Ascii.eqb c) (list_ascii_of_string "-_.!~*'()").

Definition hex_digit (n : nat) : ascii :=
  nth n (list_ascii_of_string "0123456789ABCDEF") "F"%char.

Definition escape (c : ascii) : string :=
  String "%" (String (hex_digit (nat_of_ascii c / 16))
                     (String (hex_digit (nat_of_ascii c mod 16)) "")).

Fixpoint encodeURIComponent (s : string) : string :=
  match s with
  | EmptyString => EmptyString
  | String c r =>
      ((if unreserved c then String c "" else escape c) ++ encodeURIComponent r)%string
  end.

(** *** The listeners *)

Definition defaults : list (string * value) :=
  [("enabled", Bool true); ("serverUrl", Str "http://localhost:5000");
   ("frontendUrl", Str "http://localhost:3000"); ("autoAnalyze", Bool true);
   ("cacheResults", Bool true)].

Definition menu_id : string := "checkFactsTruthly".

(** The two [onInstalled] listeners.  Creating a menu item whose id
    exists fails and creates nothing. *)
Definition onInstalled (w : Worker) : Worker :=
  let w := set_sync (storage_set defaults (sync_area w)) w in
  if bool_decide (menu_id ∈ menus w) then w else set_menus (menus w ++ [menu_id]) w.

(** [chrome.action.onClicked]; [tab.url] is absent when the worker may
    not see it. *)
Definition onClicked (tab_id : nat) (tab_url : option string) (w : Worker) : exn + Worker :=
  match tab_url with
  | None => inl (TypeError "Cannot read properties of undefined")
  | Some url =>
      inr (if includes url "google.com/search" then reload_tab tab_id w else w)
  end.

(** [`http://localhost:3000/result?url=${component}`] *)
Definition result_url (component : string) : string :=
  ("http://localhost:3000/result?url=" ++ component)%string.

Definition success : value := Obj [("success", Bool true)].

Definition reported : list string := ["enabled"; "serverUrl"; "frontendUrl"; "autoAnalyze"].

Definition feedback (request : value) (now : Z) : value :=
  serialized [("analysis", field request "analysis"); ("url", field request "url");
              ("timestamp", Num (int now))].

(** [chrome.runtime.onMessage]: the state after the listener and the
    callbacks it started, and whether it returned [true].  [now] is what
    [Date.now()] reads.  [None]: the message makes the listener convert
    a value whose conversion is not modelled. *)
Definition onMessage (request : value) (now : Z) (w : Worker)
  : option (exn + Worker * bool) :=
  match get request "action" with
  | inl e => Some (inl e)
  | inr action =>
      if same action "getSettings" then
        Some (inr (sendResponse (storage_get reported (sync_area w)) w, true))
      else if same action "updateSettings" then
        match field request "settings" with
        | Obj items =>
            Some (inr (sendResponse success (set_sync (storage_set items (sync_area w)) w),
                       true))
        | _ => Some (inl (TypeError "Error in invocation of storage.set"))
        end
      else if same action "clearCache" then
        Some (inr (sendResponse success (set_local ∅ w), true))
      else
        let type := field request "type" in
        w ← (if same type "OPEN_DETAILS" then
               (fun url => create_tab (result_url (encodeURIComponent url)) w)
                 <$> ToString (field request "url")
             else Some w);
        Some (inr (if same type "OPEN_FEEDBACK" then
                     openPopup (set_local (<["pendingFeedback" := feedback request now]>
                                             (local_area w)) w)
                   else w,
                   false))
  end.

(** [info.linkUrl] and [info.selectionText] are texts or absent. *)
Definition optional (s : option string) : value :=
  match s with Some s => Str s | None => Undefined end.

(** [chrome.contextMenus.onClicked] *)
Definition onMenuClicked (menuItemId : string) (linkUrl selectionText : option string)
           (w : Worker) : Worker :=
  if String.eqb menuItemId menu_id then
    let url := or (optional linkUrl) (optional selectionText) in
    if truthy url then
      match ToString url with
      | Some url => create_tab (result_url (encodeURIComponent url)) w
      | None => w
      end
    else w
  else w.

(** *** The events the worker handles *)

Inductive event :=
| Installed
| IconClicked (tab_id : nat) (tab_url : option string)
| Message (request : value) (now : Z)
| MenuClicked (menuItemId : string) (linkUrl selectionText : option string).

Definition step (w : Worker) (ev : event) : option Worker :=
  match ev with
  | Installed => Some (onInstalled w)
  | IconClicked i u =>
      Some (match onClicked i u w with inr w' => w' | inl _ => w end)
  | Message request now =>
      match onMessage request now w with
      | Some (inr (w', _)) => Some w'
      | Some (inl _) => Some w
      | None => None
      end
  | MenuClicked i l s => Some (onMenuClicked i l s w)
  end.

Fixpoint run (w : Worker) (evs : list event) : option Worker :=
  match evs with
  | [] => Some w
  | ev :: rest => w' ← step w ev; run w' rest
  end.

(** A browser profile in which the extension has done nothing yet. *)
Definition blank : Worker :=
  {| sync_area := ∅; local_area := ∅; menus := []; created := []; reloaded := [];
     popups := 0; replies := [] |}.

(** *** What the content script loads *)

(** The object [chrome.storage.sync.get(['enabled', 'autoAnalyze',
    'cacheResults'], ...)] hands to the callback of [loadSettings]. *)
Definition loaded (a : gmap string value) : Ext.stored :=
  let result := storage_get ["enabled"; "autoAnalyze"; "cacheResults"] a in
  {| Ext.s_enabled := field result "enabled";
     Ext.s_autoAnalyze := field result "autoAnalyze";
     Ext.s_cacheResults := field result "cacheResults" |}.

(** *** Notions used to reason about the worker *)

Fixpoint all (p : ascii -> bool) (s : string) : bool :=
  match s with
  | EmptyString => true
  | String c r => p c && all p r
  end.

(** The characters [encodeURIComponent] produces. *)
Definition url_safe (c : ascii) : bool := unreserved c || Ascii.eqb c "%".

(** A URL of the result page of the front end with one query parameter. *)
Definition result_page (u : string) : Prop :=
  exists component, u = result_url component /\ all url_safe component = true.

Definition hex_value (c : ascii) : nat :=
  if (nat_of_ascii c <=? 57)%nat then nat_of_ascii c - 48 else nat_of_ascii c - 55.

(** The text an escaped text stands for. *)
Fixpoint unescape (s : string) : string :=
  match s with
  | EmptyString => EmptyString
  | String c r =>
      if Ascii.eqb c "%" then
        match r with
        | String a (String b r') =>
            String (ascii_of_nat (16 * hex_value a + hex_value b)) (unescape r')
        | _ => String c (unescape r)
        end
      else String c (unescape r)
  end.

(** The message is one the model converts. *)
Definition modelled (ev : event) : bool :=
  match ev with
  | Message request _ =>
      negb (same (field request "type") "OPEN_DETAILS") ||
      match ToString (field request "url") with Some _ => true | None => false end
  | _ => true
  end.

(** The events that write the settings. *)
Definition writes_settings (ev : event) : bool :=
  match ev with
  | Installed => true
  | Message request _ => same (field request "action") "updateSettings"
  | _ => false
  end.

(** What the local area holds: nothing, or one pending feedback. *)
Definition holds_feedback (a : gmap string value) : Prop :=
  a = ∅ \/ exists request now, a = {[ "pendingFeedback" := feedback request now ]}.

End Background.

(** ** Sample worker messages *)

Module WorkerSamples.
Import JS Background.

Definition getSettings : value := Obj [("action", Str "getSettings")].

Definition updateSettings (items : list (string * value)) : value :=
  Obj [("action", Str "updateSettings"); ("settings", Obj items)].

Definition clearCache : value := Obj [("action", Str "clearCache")].

Definition OPEN_DETAILS (url : string) : value :=
  Obj [("type", Str "OPEN_DETAILS"); ("url", Str url)].

Definition OPEN_FEEDBACK (analysis : value) (url : string) : value :=
  Obj [("type", Str "OPEN_FEEDBACK"); ("analysis", analysis); ("url", Str url)].

Definition a_day : list event :=
  [Installed;
   MenuClicked "checkFactsTruthly" (Some "http://example.com/a?x=1&y=2") None;
   Message (OPEN_DETAILS "http://example.com/b c") 10;
   Message (OPEN_FEEDBACK (Obj [("label", Str "Real")]) "http://example.com/a") 20;
   IconClicked 7 (Some "https://www.google.com/search?q=x");
   Message (updateSettings [("enabled", Bool false)]) 30;
   Message getSettings 40].

End WorkerSamples.

(** ** Facts about the JavaScript operations *)

Example toLowerCase_Real : JS.toLowerCase "Real" = "real".
Proof. reflexivity. Qed.

Example includes_google :
  JS.includes "https://maps.google.com/x" "google.com" = true.
Proof. reflexivity. Qed.

Example trim_title : JS.trim "  Example  Title " = "Example  Title".
Proof. reflexivity. Qed.

Example round_87_4 : JS.Math_round (JS.Num (JS.Finite (874 # 10)%Q)) = Some (JS.int 87).
Proof. reflexivity. Qed.

(** The double nearest to 87.4, and the largest double below one half. *)
Example round_double_87_4 :
  JS.round (JS.Finite (3075114120563917 # 35184372088832)%Q) = JS.int 87.
Proof. reflexivity. Qed.

Example round_below_half :
  JS.round (JS.Finite (9007199254740991 # 18014398509481984)%Q) = JS.int 0.
Proof. reflexivity. Qed.

Example round_half_up : JS.round (JS.Finite (5 # 2)%Q) = JS.int 3 /\
  JS.round (JS.Finite (-5 # 2)%Q) = JS.int (-2).
Proof. split; reflexivity. Qed.

Module JSFacts.
Import JS.

Lemma append_nil (t : string) : ("" ++ t)%string = t.
Proof. reflexivity. Qed.

Lemma append_cons (c : ascii) (p t : string) :
  (String c p ++ t)%string = String c (p ++ t)%string.
Proof. reflexivity. Qed.

Lemma prefix_app (p s : string) :
  String.prefix p s = true <-> exists t, s = (p ++ t)%string.
Proof.
  revert s; induction p as [|c p IH]; intros s.
  - destruct s; simpl; (split; [intros _; eexists; reflexivity | done]).
  - destruct s as [|c' s]; simpl.
    + split; [done | intros [t Ht]; discriminate].
    + destruct (Ascii.ascii_dec c c') as [->|Hne].
      * rewrite IH. split; intros [t Ht]; exists t;
          rewrite append_cons in *; congruence.
      * split; [done | intros [t Ht]; rewrite append_cons in Ht; congruence].
Qed.

(** [s.includes(sub)]: [sub] occurs somewhere in [s]. *)
Lemma includes_spec (s sub : string) :
  includes s sub = true <-> exists pre post, s = (pre ++ sub ++ post)%string.
Proof.
  induction s as [|c s IH].
  - change (includes "" sub) with (String.prefix sub "" || false).
    rewrite orb_false_r, prefix_app. split.
    + intros [t Ht]. by exists "", t.
    + intros [pre [post H]]. destruct pre; [by exists post | discriminate].
  - change (includes (String c s) sub)
      with (String.prefix sub (String c s) || includes s sub).
    rewrite orb_true_iff, prefix_app, IH. split.
    + intros [[t Ht] | [pre [post H]]].
      * by exists "", t.
      * exists (String c pre), post. rewrite append_cons. by rewrite H.
    + intros [pre [post H]]. destruct pre as [|c' pre].
      * left. by exists post.
      * right. exists pre, post. rewrite append_cons in H. congruence.
Qed.

Lemma string_app_assoc (a b c : string) : ((a ++ b) ++ c = a ++ b ++ c)%string.
Proof.
  induction a as [|x a IH]; [done|]. rewrite !append_cons. by rewrite IH.
Qed.

Lemma includes_trans (s a b : string) :
  includes a b = true -> includes s a = true -> includes s b = true.
Proof.
  rewrite !includes_spec. intros [p1 [q1 ->]] [p2 [q2 ->]].
  exists (p2 ++ p1)%string, (q1 ++ q2)%string.
  by rewrite !string_app_assoc.
Qed.

(** The tests for maps.google.com and images.google.com never decide:
    such a URL already contains google.com. *)
Lemma google_tests (url : string) :
  includes url "google.com" || includes url "maps.google.com" ||
  includes url "images.google.com" = includes url "google.com".
Proof.
  destruct (includes url "google.com") eqn:G; [done|]. simpl.
  destruct (includes url "maps.google.com") eqn:M.
  { rewrite (includes_trans url "maps.google.com" "google.com") in G; done. }
  destruct (includes url "images.google.com") eqn:I; [|done].
  rewrite (includes_trans url "images.google.com" "google.com") in G; done.
Qed.

Lemma toLowerCase_idemp (s : string) : toLowerCase (toLowerCase s) = toLowerCase s.
Proof.
  induction s as [|c s IH]; simpl; [done|]. rewrite IH. f_equal.
  unfold lower_ascii.
  destruct ((65 <=? nat_of_ascii c)%nat && (nat_of_ascii c <=? 90)%nat) eqn:E.
  - apply andb_true_iff in E as [E1 E2].
    apply Nat.leb_le in E1, E2.
    rewrite nat_ascii_embedding by lia.
    replace ((65 <=? nat_of_ascii c + 32)%nat && (nat_of_ascii c + 32 <=? 90)%nat)
      with false; [done|].
    symmetry. apply andb_false_iff. right. apply Nat.leb_gt. lia.
  - by rewrite E.
Qed.

(** [Math.round] yields the nearest integer, the upper one at a tie. *)
Lemma round_nearest (q : Q) :
  exists z : Z, round (Finite q) = int z /\
                (inject_Z z - (1 # 2) <= q)%Q /\ (q < inject_Z z + (1 # 2))%Q.
Proof.
  exists (Qfloor (q + (1 # 2))). split; [done|].
  pose proof (Qfloor_le (q + (1 # 2))) as Hl.
  pose proof (Qlt_floor (q + (1 # 2))) as Hu.
  rewrite inject_Z_plus in Hu. split.
  - apply (Qplus_le_l _ _ (1 # 2)). ring_simplify.
    ring_simplify in Hl. exact Hl.
  - apply (Qplus_lt_l _ _ (1 # 2)).
    eapply Qlt_le_trans; [exact Hu|]. ring_simplify. apply Qle_refl.
Qed.

End JSFacts.

(** ** Facts about the document operations *)

Module DOMFacts.
Import DOM.

Lemma walk_Elem c e kids :
  walk c (Elem e kids) =
  {| e_ctx := c; e_elem := e; e_kids := kids |} :: walk_children e c kids.
Proof.
  simpl. f_equal. induction kids as [|k r IH]; simpl; [done|]. by rewrite IH.
Qed.

Lemma elems_walk c n : e_elem <$> walk c n = elems n.
Proof.
  revert c. induction n as [s|e kids IH] using node_ind; intros c; [done|].
  rewrite walk_Elem, fmap_cons. cbn [elems e_elem]. f_equal.
  induction IH as [|k r Hk _ IHr]; [done|].
  cbn [walk_children]. by rewrite fmap_app, bind_cons, Hk, IHr.
Qed.

Lemma elems_walk_children e c l : e_elem <$> walk_children e c l = l ≫= elems.
Proof.
  induction l as [|k r IH]; [done|].
  cbn [walk_children]. by rewrite fmap_app, bind_cons, elems_walk, IH.
Qed.

Lemma elems_walk_top d : e_elem <$> walk_top d = elements d.
Proof.
  unfold elements. induction d as [|k r IH]; [done|].
  cbn [walk_top]. by rewrite fmap_app, bind_cons, elems_walk, IH.
Qed.

Lemma elem_of_elements_entry d e :
  e ∈ elements d <-> exists en, en ∈ walk_top d /\ e_elem en = e.
Proof.
  rewrite <- elems_walk_top. split.
  - intros (en & -> & H)%list_elem_of_fmap. by exists en.
  - intros [en [H <-]]. by apply list_elem_of_fmap_2.
Qed.

Lemma matches_local s c c' e :
  local s = true -> matches s c e = matches s c' e.
Proof.
  induction s; simpl; try done;
    intros [Ha Hb]%andb_true_iff; by rewrite IHs1, IHs2.
Qed.

Lemma selects_local s en : local s = true -> selects s en = test s (e_elem en).
Proof. intros. by apply matches_local. Qed.

Lemma querySelectorAll_elements s d e :
  local s = true -> e ∈ elements d -> test s e = true ->
  exists en, en ∈ querySelectorAll s d /\ e_elem en = e.
Proof.
  intros Hs [en [Hen <-]]%elem_of_elements_entry Ht. exists en. split; [|done].
  apply list_elem_of_filter. split; [|done]. by rewrite selects_local.
Qed.

Lemma querySelectorAll_nil s d :
  local s = true -> (forall e, e ∈ elements d -> test s e = false) ->
  querySelectorAll s d = [].
Proof.
  intros Hs H. apply elem_of_nil_inv. intros en [Hsel Hen]%list_elem_of_filter.
  rewrite selects_local in Hsel by done.
  rewrite H in Hsel; [done|]. apply elem_of_elements_entry. by exists en.
Qed.

Lemma find_entry_Some i d en :
  find_entry i d = Some en -> en ∈ walk_top d /\ eid (e_elem en) = i.
Proof.
  intros H%head_Some_elem_of. by apply list_elem_of_filter in H as [? ?].
Qed.

Lemma find_entry_elements i d en :
  find_entry i d = Some en -> e_elem en ∈ elements d.
Proof.
  intros [H _]%find_entry_Some. apply elem_of_elements_entry. by exists en.
Qed.

Lemma find_entry_is_Some i d e :
  e ∈ elements d -> eid e = i -> is_Some (find_entry i d).
Proof.
  intros [en [Hen <-]]%elem_of_elements_entry Hi. apply head_is_Some.
  intros Hnil. by pose proof (filter_nil_not_elem_of _ _ en Hnil Hi).
Qed.

(** *** Removal *)

Lemma elems_strip i n e :
  e ∈ strip i n ≫= elems -> e ∈ elems n /\ eid e <> i.
Proof.
  induction n as [s|e0 kids IH] using node_ind; simpl; [by intros ?%elem_of_nil|].
  destruct (decide (eid e0 = i)) as [|Hne]; [by intros ?%elem_of_nil|].
  rewrite bind_singleton. simpl. rewrite !elem_of_cons.
  intros [->|H]; [by split; [left|]|].
  apply list_elem_of_bind in H as [k' [He Hk']].
  apply list_elem_of_bind in Hk' as [k [Hk' Hk]].
  rewrite Forall_forall in IH.
  destruct (IH k Hk) as [H1 H2].
  { apply list_elem_of_bind. eauto. }
  split; [right|done]. apply list_elem_of_bind. eauto.
Qed.

Lemma elements_remove i d e :
  e ∈ elements (remove i d) -> e ∈ elements d /\ eid e <> i.
Proof.
  unfold elements, remove. intros [k' [He Hk']]%list_elem_of_bind.
  apply list_elem_of_bind in Hk' as [k [Hk' Hk]].
  destruct (elems_strip i k e) as [H1 H2].
  { apply list_elem_of_bind. eauto. }
  split; [|done]. apply list_elem_of_bind. eauto.
Qed.

Lemma elements_remove_all (l : list entry) d e :
  e ∈ elements (foldl (fun d en => remove (eid (e_elem en)) d) d l) ->
  e ∈ elements d /\ forall en, en ∈ l -> eid e <> eid (e_elem en).
Proof.
  revert d. induction l as [|en l IH]; intros d; simpl.
  - intros H. split; [done|]. by intros en ?%elem_of_nil.
  - intros [[H1 H2]%elements_remove H3]%IH. split; [done|].
    intros en' [->|?]%elem_of_cons; auto.
Qed.

(** *** Attribute updates *)

Lemma update_touch i g d : update i g d = map (map_elements (touch i g)) d.
Proof. reflexivity. Qed.

Lemma elems_map_elements g n : elems (map_elements g n) = g <$> elems n.
Proof.
  induction n as [s|e kids IH] using node_ind; [done|].
  cbn [map_elements elems]. rewrite fmap_cons. f_equal.
  induction IH as [|k r Hk _ IHr]; [done|].
  cbn [map]. by rewrite !bind_cons, fmap_app, Hk, IHr.
Qed.

Lemma elements_map_elements g d :
  elements (map (map_elements g) d) = g <$> elements d.
Proof.
  unfold elements. induction d as [|k r IH]; [done|].
  cbn [map]. by rewrite !bind_cons, fmap_app, elems_map_elements, IH.
Qed.

Lemma elements_update i g d : elements (update i g d) = touch i g <$> elements d.
Proof. apply elements_map_elements. Qed.

Lemma touch_eid i g e : eid (touch i g e) = eid e.
Proof. unfold touch. by destruct (decide _). Qed.

Lemma touch_classes i g e : classes (touch i g e) = classes e.
Proof. unfold touch. by destruct (decide _). Qed.

Lemma touch_tag i g e : tag (touch i g e) = tag e.
Proof. unfold touch. by destruct (decide _). Qed.

Lemma touch_inner i g e : inner (touch i g e) = inner e.
Proof. unfold touch. by destruct (decide _). Qed.

Lemma touch_attrs_other i g e k :
  (forall m, g m !! k = m !! k) -> attrs (touch i g e) !! k = attrs e !! k.
Proof. intros Hg. unfold touch. destruct (decide _); simpl; auto. Qed.

Lemma elements_del_all k (l : list entry) d e :
  e ∈ elements (foldl (fun d en => del_attr (eid (e_elem en)) k d) d l) ->
  exists e0, e0 ∈ elements d /\ eid e0 = eid e /\ classes e0 = classes e /\
             (is_Some (attrs e !! k) ->
              is_Some (attrs e0 !! k) /\
              forall en, en ∈ l -> eid e <> eid (e_elem en)).
Proof.
  revert d e. induction l as [|en l IH]; intros d e; simpl.
  - intros H. exists e. repeat split; try done. by intros en ?%elem_of_nil.
  - intros (e1 & H1 & Hid & Hcl & Hat)%IH.
    unfold del_attr in H1. rewrite elements_update in H1.
    apply list_elem_of_fmap in H1 as (e0 & -> & H0).
    exists e0. rewrite touch_eid in Hid. rewrite touch_classes in Hcl.
    repeat split; try done.
    + apply Hat in H as [H _]. unfold touch in H.
      destruct (decide _); [|done]. simpl in H.
      rewrite lookup_delete_eq in H. by destruct H.
    + apply Hat in H as [H Hl].
      intros en' [->|?]%elem_of_cons; [|auto].
      unfold touch in H. destruct (decide _) as [|Hne]; [|congruence].
      simpl in H. rewrite lookup_delete_eq in H. by destruct H.
Qed.

(** *** Attribute updates keep the tree in shape *)

Lemma forallb_is_text_map g l :
  forallb is_text (map (map_elements g) l) = forallb is_text l.
Proof.
  induction l as [|k r IH]; [done|]. cbn [map forallb]. rewrite IH.
  by destruct k.
Qed.

Lemma walk_children_map_aux g e c kids :
  Forall (fun n => forall c, walk (map_ctx g c) (map_elements g n)
                             = map_entry g <$> walk c n) kids ->
  walk_children (g e) (map_ctx g c) (map (map_elements g) kids)
  = map_entry g <$> walk_children e c kids.
Proof.
  induction 1 as [|k r Hk _ IHr]; [done|].
  cbn [map walk_children]. rewrite fmap_app, forallb_is_text_map, <- IHr.
  f_equal. apply (Hk (Inside e c (forallb is_text r))).
Qed.

Lemma walk_map g c n :
  walk (map_ctx g c) (map_elements g n) = map_entry g <$> walk c n.
Proof.
  revert c. induction n as [s|e kids IH] using node_ind; intros c; [done|].
  cbn [map_elements]. rewrite !walk_Elem, fmap_cons. f_equal.
  by apply walk_children_map_aux.
Qed.

Lemma walk_children_map g e c kids :
  walk_children (g e) (map_ctx g c) (map (map_elements g) kids)
  = map_entry g <$> walk_children e c kids.
Proof.
  apply walk_children_map_aux, Forall_forall. intros n _ c'. apply walk_map.
Qed.

Lemma walk_top_map g d :
  walk_top (map (map_elements g) d) = map_entry g <$> walk_top d.
Proof.
  induction d as [|k r IH]; [done|].
  cbn [map walk_top]. rewrite fmap_app, forallb_is_text_map, IH.
  f_equal. apply (walk_map g (TopLevel (forallb is_text r))).
Qed.

Lemma filter_fmap {A B} (f : A -> B) (P : B -> Prop) `{forall x, Decision (P x)}
      (l : list A) :
  filter P (f <$> l) = f <$> filter (fun x => P (f x)) l.
Proof.
  induction l as [|x l IH]; [done|].
  rewrite fmap_cons, !filter_cons, IH. by destruct (decide (P (f x))).
Qed.

Lemma head_fmap {A B} (f : A -> B) (l : list A) : head (f <$> l) = f <$> head l.
Proof. by destruct l. Qed.

Lemma only_key_insert k v : only_key k (insert k v).
Proof. intros m k' Hne. by apply lookup_insert_ne. Qed.

Lemma only_key_delete k : only_key k (delete k).
Proof. intros m k' Hne. by apply lookup_delete_ne. Qed.

Lemma stable_touch i g k s :
  only_key k g -> reads k s = false -> stable (touch i g) s.
Proof.
  intros Hg. induction s as [t|cl|k'|k' v| |a IHa b IHb|a IHa b IHb|a IHa b IHb];
    cbn [reads]; intros Hr c e; cbn [matches].
  - by rewrite touch_tag.
  - unfold has_class. by rewrite touch_classes.
  - unfold has_attr. rewrite touch_attrs_other; [done|].
    intros m. apply Hg. intros ->. by rewrite String.eqb_refl in Hr.
  - unfold attr_is. rewrite touch_attrs_other; [done|].
    intros m. apply Hg. intros ->. by rewrite String.eqb_refl in Hr.
  - by destruct c.
  - apply orb_false_iff in Hr as [Ha Hb]. by rewrite IHa, IHb.
  - apply orb_false_iff in Hr as [Ha Hb]. rewrite IHb by done.
    destruct c; cbn [map_ctx]; [done|]. by rewrite IHa.
  - apply orb_false_iff in Hr as [Ha Hb]. by rewrite IHa, IHb.
Qed.

Lemma find_entry_update j i g d :
  find_entry j (update i g d) = map_entry (touch i g) <$> find_entry j d.
Proof.
  unfold find_entry. rewrite update_touch, walk_top_map, filter_fmap, head_fmap.
  do 2 f_equal. apply list_filter_iff. intros en. cbn [map_entry e_elem].
  by rewrite touch_eid.
Qed.

Lemma querySelector_stable g s en :
  stable g s -> querySelector s (map_entry g en) = map_entry g <$> querySelector s en.
Proof.
  intros Hs. unfold querySelector. cbn [map_entry e_elem e_ctx e_kids].
  rewrite walk_children_map, filter_fmap, head_fmap.
  do 2 f_equal. apply list_filter_iff. intros en'. unfold selects.
  cbn [map_entry e_elem e_ctx]. by rewrite Hs.
Qed.

Lemma textContent_map g n : textContent (map_elements g n) = textContent n.
Proof.
  induction n as [s|e kids IH] using node_ind; [done|].
  cbn [map_elements textContent].
  induction IH as [|k r Hk _ IHr]; [done|]. cbn [map]. by rewrite Hk, IHr.
Qed.

Lemma textContent_of_map g en : textContent_of (map_entry g en) = textContent_of en.
Proof. apply (textContent_map g (Elem (e_elem en) (e_kids en))). Qed.

Lemma parentElement_map g c : parentElement (map_ctx g c) = g <$> parentElement c.
Proof. by destruct c. Qed.

(** *** Insertion *)

Lemma elems_place t w n e :
  e ∈ place t w n ≫= elems -> e ∈ elems n \/ e ∈ elems w.
Proof.
  induction n as [s|e0 kids IH] using node_ind; cbn [place].
  { rewrite bind_singleton. by left. }
  rewrite bind_cons. cbn [elems]. rewrite elem_of_app, !elem_of_cons.
  intros [[->|H]|H].
  - left. by left.
  - apply list_elem_of_bind in H as [k' [He Hk']].
    apply list_elem_of_bind in Hk' as [k [Hk' Hk]].
    rewrite Forall_forall in IH. destruct (IH k Hk) as [H1|H1].
    { apply list_elem_of_bind. eauto. }
    + left. right. apply list_elem_of_bind. eauto.
    + by right.
  - destruct (decide (eid e0 = t)).
    + rewrite bind_singleton in H. by right.
    + by apply elem_of_nil in H.
Qed.

Lemma elements_insert_after t w d e :
  e ∈ elements (insert_after t w d) -> e ∈ elements d \/ e ∈ elems w.
Proof.
  unfold elements, insert_after. intros [k' [He Hk']]%list_elem_of_bind.
  apply list_elem_of_bind in Hk' as [k [Hk' Hk]].
  destruct (elems_place t w k e) as [H|H].
  { apply list_elem_of_bind. eauto. }
  - left. apply list_elem_of_bind. eauto.
  - by right.
Qed.

Lemma elems_adopt p w n e :
  e ∈ elems (adopt p w n) -> e ∈ elems n \/ e ∈ elems w.
Proof.
  induction n as [s|e0 kids IH] using node_ind; cbn [adopt elems]; [by left|].
  rewrite bind_app, !elem_of_cons, elem_of_app.
  intros [->|[H|H]].
  - left. by left.
  - apply list_elem_of_bind in H as [k' [He Hk']].
    apply list_elem_of_fmap in Hk' as [k [-> Hk]].
    rewrite Forall_forall in IH. destruct (IH k Hk He) as [H1|H1].
    + left. right. apply list_elem_of_bind. eauto.
    + by right.
  - destruct (decide (eid e0 = p)).
    + rewrite bind_singleton in H. by right.
    + by apply elem_of_nil in H.
Qed.

Lemma elements_append_child p w d e :
  e ∈ elements (append_child p w d) -> e ∈ elements d \/ e ∈ elems w.
Proof.
  unfold elements, append_child. intros [k' [He Hk']]%list_elem_of_bind.
  apply list_elem_of_fmap in Hk' as [k [-> Hk]].
  destruct (elems_adopt p w k e He) as [H|H].
  - left. apply list_elem_of_bind. eauto.
  - by right.
Qed.

Lemma elems_place_new t w n e :
  t ∈ eid <$> elems n -> e ∈ elems w -> e ∈ place t w n ≫= elems.
Proof.
  intros Ht He. induction n as [s|e0 kids IH] using node_ind; cbn [place].
  { by apply elem_of_nil in Ht. }
  rewrite bind_cons. cbn [elems] in *. rewrite elem_of_app, elem_of_cons.
  rewrite fmap_cons in Ht. apply elem_of_cons in Ht as [->|Ht].
  - right. rewrite decide_True by done. by rewrite bind_singleton.
  - left. right.
    apply list_elem_of_fmap in Ht as (e1 & -> & H1).
    apply list_elem_of_bind in H1 as (k & H1 & Hk).
    rewrite Forall_forall in IH.
    assert (H : e ∈ place (eid e1) w k ≫= elems).
    { apply IH; [done|]. by apply list_elem_of_fmap_2. }
    apply list_elem_of_bind in H as (y & Hy & Hyk).
    apply list_elem_of_bind. exists y. split; [done|].
    apply list_elem_of_bind. eauto.
Qed.

Lemma elements_insert_after_new t w d e :
  t ∈ eid <$> elements d -> e ∈ elems w -> e ∈ elements (insert_after t w d).
Proof.
  unfold elements, insert_after. intros Ht He.
  apply list_elem_of_fmap in Ht as (e1 & -> & H1).
  apply list_elem_of_bind in H1 as (k & H1 & Hk).
  assert (H : e ∈ place (eid e1) w k ≫= elems).
  { apply elems_place_new; [|done]. by apply list_elem_of_fmap_2. }
  apply list_elem_of_bind in H as (y & Hy & Hyk).
  apply list_elem_of_bind. exists y. split; [done|].
  apply list_elem_of_bind. eauto.
Qed.

Lemma elems_adopt_new p w n e :
  p ∈ eid <$> elems n -> e ∈ elems w -> e ∈ elems (adopt p w n).
Proof.
  intros Hp He. induction n as [s|e0 kids IH] using node_ind; cbn [adopt elems].
  { by apply elem_of_nil in Hp. }
  cbn [elems] in Hp. rewrite fmap_cons in Hp.
  rewrite bind_app, elem_of_cons, elem_of_app.
  apply elem_of_cons in Hp as [->|Hp].
  - right. right. rewrite decide_True by done. by rewrite bind_singleton.
  - right. left.
    apply list_elem_of_fmap in Hp as (e1 & -> & H1).
    apply list_elem_of_bind in H1 as (k & H1 & Hk).
    rewrite Forall_forall in IH.
    apply list_elem_of_bind. exists (adopt (eid e1) w k). split.
    + apply IH; [done|]. by apply list_elem_of_fmap_2.
    + by apply list_elem_of_fmap_2.
Qed.

Lemma elements_append_child_new p w d e :
  p ∈ eid <$> elements d -> e ∈ elems w -> e ∈ elements (append_child p w d).
Proof.
  unfold elements, append_child. intros Hp He.
  apply list_elem_of_fmap in Hp as (e1 & -> & H1).
  apply list_elem_of_bind in H1 as (k & H1 & Hk).
  apply list_elem_of_bind. exists (adopt (eid e1) w k). split.
  - apply elems_adopt_new; [|done]. by apply list_elem_of_fmap_2.
  - by apply list_elem_of_fmap_2.
Qed.

Lemma find_entry_id i d en : find_entry i d = Some en -> i ∈ eid <$> elements d.
Proof.
  intros H. pose proof (find_entry_elements i d en H) as Hin.
  apply find_entry_Some in H as [_ <-]. by apply list_elem_of_fmap_2.
Qed.

(** The elements below an element of the document are elements of the
    document. *)
Lemma walk_children_elem (e : element) c l en :
  en ∈ walk_children e c l ->
  exists k b, k ∈ l /\ en ∈ walk (Inside e c b) k.
Proof.
  induction l as [|k r IH]; cbn [walk_children]; [by intros ?%elem_of_nil|].
  rewrite elem_of_app. intros [H|H].
  - exists k, (forallb is_text r). split; [left|done].
  - destruct (IH H) as (k' & b & Hk & Hw). exists k', b. split; [by right|done].
Qed.

Lemma walk_below c n en en' :
  en ∈ walk c n ->
  en' ∈ walk_children (e_elem en) (e_ctx en) (e_kids en) ->
  e_elem en' ∈ elems n.
Proof.
  revert c. induction n as [s|e kids IH] using node_ind; intros c.
  { by intros ?%elem_of_nil. }
  rewrite walk_Elem, elem_of_cons. cbn [elems]. intros [->|H] H'.
  - right. rewrite <- (elems_walk_children e c kids). by apply list_elem_of_fmap_2.
  - right. apply walk_children_elem in H as (k & b & Hk & Hw).
    rewrite Forall_forall in IH.
    apply list_elem_of_bind. exists k. split; [|done]. by apply (IH k Hk _ Hw).
Qed.

Lemma walk_top_below d en en' :
  en ∈ walk_top d ->
  en' ∈ walk_children (e_elem en) (e_ctx en) (e_kids en) ->
  e_elem en' ∈ elements d.
Proof.
  unfold elements. induction d as [|k r IH]; cbn [walk_top].
  { by intros ?%elem_of_nil. }
  rewrite elem_of_app, bind_cons, elem_of_app. intros [H|H] H'.
  - left. by apply (walk_below _ _ _ _ H).
  - right. by apply IH.
Qed.

Lemma querySelector_elements s i d en en' :
  find_entry i d = Some en -> querySelector s en = Some en' ->
  e_elem en' ∈ elements d /\ selects s en' = true.
Proof.
  intros [Hen _]%find_entry_Some H'%head_Some_elem_of.
  apply list_elem_of_filter in H' as [Hs H']. split; [|done].
  by apply (walk_top_below d en).
Qed.

Lemma querySelector_None s i d en :
  local s = true -> find_entry i d = Some en ->
  (forall e, e ∈ elements d -> test s e = false) ->
  querySelector s en = None.
Proof.
  intros Hl Hf Hno. destruct (querySelector s en) as [en'|] eqn:E; [|done].
  destruct (querySelector_elements s i d en en' Hf E) as [Hin Hs].
  rewrite selects_local in Hs by done. by rewrite Hno in Hs.
Qed.

(** *** Names stay unique *)

Lemma parts_elems n : fst <$> parts n = elems n.
Proof.
  induction n as [s|e kids IH] using node_ind; [done|].
  cbn [parts elems]. rewrite fmap_cons. cbn [fst]. f_equal.
  induction IH as [|k r Hk _ IHr]; [done|].
  by rewrite !bind_cons, fmap_app, Hk, IHr.
Qed.

Lemma all_parts_elements d : fst <$> all_parts d = elements d.
Proof.
  unfold all_parts, elements. induction d as [|k r IH]; [done|].
  by rewrite !bind_cons, fmap_app, parts_elems, IH.
Qed.

Lemma parts_element d e kids : (e, kids) ∈ all_parts d -> e ∈ elements d.
Proof.
  intros H. rewrite <- all_parts_elements.
  by apply (list_elem_of_fmap_2 fst) in H.
Qed.

Lemma same_name {A} (f : A -> nat) (l : list A) x y :
  NoDup (f <$> l) -> x ∈ l -> y ∈ l -> f x = f y -> x = y.
Proof.
  induction l as [|a l IH]; [by intros _ ?%elem_of_nil|].
  rewrite fmap_cons, NoDup_cons. intros [Ha Hl] Hx Hy E.
  apply elem_of_cons in Hx as [->|Hx]; apply elem_of_cons in Hy as [->|Hy]; try done.
  - destruct Ha. rewrite E. by apply list_elem_of_fmap_2.
  - destruct Ha. rewrite <- E. by apply list_elem_of_fmap_2.
  - by apply IH.
Qed.

Lemma named_at_most_one t l :
  NoDup (eid <$> l) -> named t l = [] \/ exists e, named t l = [e].
Proof.
  unfold named. induction l as [|a l IH]; [by left|].
  rewrite fmap_cons, NoDup_cons. intros [Ha Hl]. rewrite filter_cons.
  destruct (decide (eid a = t)) as [E|E]; [|by apply IH].
  right. exists a. f_equal. apply elem_of_nil_inv. intros e [He Hin]%list_elem_of_filter.
  destruct Ha. rewrite E, <- He. by apply list_elem_of_fmap_2.
Qed.

Lemma copies_app t new l1 l2 : copies t new (l1 ++ l2) = copies t new l1 ++ copies t new l2.
Proof. unfold copies, named. by rewrite filter_app, bind_app. Qed.

Lemma copies_cons t new e l :
  copies t new (e :: l) = (if decide (eid e = t) then new else []) ++ copies t new l.
Proof.
  unfold copies, named. rewrite filter_cons.
  destruct (decide (eid e = t)); [by rewrite bind_cons|done].
Qed.

Lemma forest_place_perm t w l :
  Forall (fun n => place t w n ≫= elems ≡ₚ elems n ++ copies t (elems w) (elems n)) l ->
  (l ≫= place t w) ≫= elems ≡ₚ (l ≫= elems) ++ copies t (elems w) (l ≫= elems).
Proof.
  induction 1 as [|k r Hk _ IHr]; [done|].
  rewrite !bind_cons, bind_app, copies_app, Hk, IHr. solve_Permutation.
Qed.

Lemma elems_place_perm t w n :
  place t w n ≫= elems ≡ₚ elems n ++ copies t (elems w) (elems n).
Proof.
  induction n as [s|e kids IH] using node_ind; [done|].
  cbn [place]. rewrite bind_cons. cbn [elems]. rewrite copies_cons.
  rewrite (forest_place_perm t w kids IH).
  destruct (decide (eid e = t)).
  - rewrite bind_singleton. solve_Permutation.
  - cbn. rewrite app_nil_r. done.
Qed.

Lemma elements_insert_after_perm t w d :
  elements (insert_after t w d) ≡ₚ elements d ++ copies t (elems w) (elements d).
Proof.
  apply forest_place_perm, Forall_forall. intros n _. apply elems_place_perm.
Qed.

Lemma forest_adopt_perm p w l :
  Forall (fun n => elems (adopt p w n) ≡ₚ elems n ++ copies p (elems w) (elems n)) l ->
  (adopt p w <$> l) ≫= elems ≡ₚ (l ≫= elems) ++ copies p (elems w) (l ≫= elems).
Proof.
  induction 1 as [|k r Hk _ IHr]; [done|].
  rewrite fmap_cons, !bind_cons, copies_app, Hk, IHr. solve_Permutation.
Qed.

Lemma elems_adopt_perm p w n :
  elems (adopt p w n) ≡ₚ elems n ++ copies p (elems w) (elems n).
Proof.
  induction n as [s|e kids IH] using node_ind; [done|].
  cbn [adopt elems]. rewrite copies_cons, bind_app.
  rewrite (forest_adopt_perm p w kids IH).
  destruct (decide (eid e = p)).
  - rewrite bind_singleton. solve_Permutation.
  - cbn. rewrite !app_nil_r. done.
Qed.

Lemma elements_append_child_perm p w d :
  elements (append_child p w d) ≡ₚ elements d ++ copies p (elems w) (elements d).
Proof.
  apply forest_adopt_perm, Forall_forall. intros n _. apply elems_adopt_perm.
Qed.

(** Inserting elements with new names keeps the names unique. *)
Lemma NoDup_inserted t n (old new l : list element) :
  NoDup (eid <$> old) -> (forall e, e ∈ old -> eid e < n) ->
  NoDup (eid <$> new) -> (forall e, e ∈ new -> n <= eid e) ->
  l ≡ₚ old ++ copies t new old ->
  NoDup (eid <$> l).
Proof.
  intros Ho Hlt Hn Hge ->. rewrite fmap_app. apply NoDup_app.
  assert (C : copies t new old = [] \/ copies t new old = new).
  { unfold copies. destruct (named_at_most_one t old Ho) as [->|[e ->]]; [by left|].
    right. by rewrite bind_singleton. }
  split; [done|]. split.
  - intros i (e & -> & He)%list_elem_of_fmap (e' & E & He')%list_elem_of_fmap.
    specialize (Hlt e He). destruct C as [C|C]; rewrite C in He'.
    + by apply elem_of_nil in He'.
    + specialize (Hge e' He'). lia.
  - destruct C as [-> | ->]; [apply NoDup_nil_2|done].
Qed.

Lemma elems_strip_sublist x n : strip x n ≫= elems `sublist_of` elems n.
Proof.
  induction n as [s|e kids IH] using node_ind; [done|]. cbn [strip elems].
  destruct (decide (eid e = x)); [apply sublist_nil_l|].
  rewrite bind_singleton. cbn [elems]. apply sublist_skip.
  induction IH as [|k r Hk _ IHr]; [done|].
  rewrite !bind_cons, bind_app. by apply sublist_app.
Qed.

Lemma elements_remove_sublist x d : elements (remove x d) `sublist_of` elements d.
Proof.
  unfold elements, remove. induction d as [|k r IH]; [done|].
  rewrite !bind_cons, bind_app. apply sublist_app; [apply elems_strip_sublist|done].
Qed.

(** *** The children of the elements *)

Lemma parts_map_elements g n :
  parts (map_elements g n)
  = (fun p => (g p.1, map (map_elements g) p.2)) <$> parts n.
Proof.
  induction n as [s|e kids IH] using node_ind; [done|].
  cbn [map_elements parts]. rewrite fmap_cons. cbn [fst snd]. f_equal.
  induction IH as [|k r Hk _ IHr]; [done|].
  cbn [map]. by rewrite !bind_cons, fmap_app, Hk, IHr.
Qed.

Lemma all_parts_update i g d :
  all_parts (update i g d)
  = (fun p => (touch i g p.1, map (map_elements (touch i g)) p.2)) <$> all_parts d.
Proof.
  unfold all_parts, update. fold (touch i g).
  induction d as [|k r IH]; [done|].
  cbn [map]. by rewrite !bind_cons, fmap_app, parts_map_elements, IH.
Qed.

Lemma parts_strip x n p :
  p ∈ strip x n ≫= parts ->
  exists e kids, (e, kids) ∈ parts n /\ p = (e, kids ≫= strip x).
Proof.
  induction n as [s|e0 kids IH] using node_ind; cbn [strip].
  { rewrite bind_singleton. by intros ?%elem_of_nil. }
  destruct (decide (eid e0 = x)); [by intros ?%elem_of_nil|].
  rewrite bind_singleton. cbn [parts]. rewrite elem_of_cons. intros [->|H].
  - exists e0, kids. split; [by left|done].
  - apply list_elem_of_bind in H as (k' & Hp & Hk').
    apply list_elem_of_bind in Hk' as (k & Hk' & Hk).
    rewrite Forall_forall in IH. destruct (IH k Hk) as (e & ks & Hin & ->).
    { apply list_elem_of_bind. eauto. }
    exists e, ks. split; [|done]. right. apply list_elem_of_bind. eauto.
Qed.

Lemma all_parts_remove x d p :
  p ∈ all_parts (remove x d) ->
  exists e kids, (e, kids) ∈ all_parts d /\ p = (e, kids ≫= strip x).
Proof.
  unfold all_parts, remove. intros (k' & Hp & Hk')%list_elem_of_bind.
  apply list_elem_of_bind in Hk' as (k & Hk' & Hk).
  destruct (parts_strip x k p) as (e & ks & Hin & ->).
  { apply list_elem_of_bind. eauto. }
  exists e, ks. split; [|done]. apply list_elem_of_bind. eauto.
Qed.

Lemma parts_place t w n p :
  p ∈ place t w n ≫= parts ->
  (exists e kids, (e, kids) ∈ parts n /\ p = (e, kids ≫= place t w)) \/ p ∈ parts w.
Proof.
  induction n as [s|e0 kids IH] using node_ind; cbn [place].
  { rewrite bind_singleton. by intros ?%elem_of_nil. }
  rewrite bind_cons. cbn [parts]. rewrite elem_of_app, elem_of_cons.
  intros [[->|H]|H].
  - left. exists e0, kids. split; [by left|done].
  - apply list_elem_of_bind in H as (k' & Hp & Hk').
    apply list_elem_of_bind in Hk' as (k & Hk' & Hk).
    rewrite Forall_forall in IH. destruct (IH k Hk) as [(e & ks & Hin & ->)|Hw].
    { apply list_elem_of_bind. eauto. }
    + left. exists e, ks. split; [|done]. right. apply list_elem_of_bind. eauto.
    + by right.
  - destruct (decide (eid e0 = t)).
    + rewrite bind_singleton in H. by right.
    + by apply elem_of_nil in H.
Qed.

Lemma all_parts_insert_after t w d p :
  p ∈ all_parts (insert_after t w d) ->
  (exists e kids, (e, kids) ∈ all_parts d /\ p = (e, kids ≫= place t w)) \/ p ∈ parts w.
Proof.
  unfold all_parts, insert_after. intros (k' & Hp & Hk')%list_elem_of_bind.
  apply list_elem_of_bind in Hk' as (k & Hk' & Hk).
  destruct (parts_place t w k p) as [(e & ks & Hin & ->)|Hw].
  { apply list_elem_of_bind. eauto. }
  - left. exists e, ks. split; [|done]. apply list_elem_of_bind. eauto.
  - by right.
Qed.

Lemma parts_adopt q w n p :
  p ∈ parts (adopt q w n) ->
  (exists e kids, (e, kids) ∈ parts n /\
     p = (e, map (adopt q w) kids ++ (if decide (eid e = q) then [w] else []))) \/
  p ∈ parts w.
Proof.
  induction n as [s|e0 kids IH] using node_ind; cbn [adopt parts].
  { by intros ?%elem_of_nil. }
  rewrite elem_of_cons, bind_app, elem_of_app. intros [->|[H|H]].
  - left. exists e0, kids. split; [by left|done].
  - apply list_elem_of_bind in H as (k' & Hp & Hk').
    apply list_elem_of_fmap in Hk' as (k & -> & Hk).
    rewrite Forall_forall in IH. destruct (IH k Hk Hp) as [(e & ks & Hin & ->)|Hw].
    + left. exists e, ks. split; [|done]. right. apply list_elem_of_bind. eauto.
    + by right.
  - destruct (decide (eid e0 = q)).
    + rewrite bind_singleton in H. by right.
    + by apply elem_of_nil in H.
Qed.

Lemma all_parts_append_child q w d p :
  p ∈ all_parts (append_child q w d) ->
  (exists e kids, (e, kids) ∈ all_parts d /\
     p = (e, map (adopt q w) kids ++ (if decide (eid e = q) then [w] else []))) \/
  p ∈ parts w.
Proof.
  unfold all_parts, append_child. intros (k' & Hp & Hk')%list_elem_of_bind.
  apply list_elem_of_fmap in Hk' as (k & -> & Hk).
  destruct (parts_adopt q w k p Hp) as [(e & ks & Hin & ->)|Hw].
  - left. exists e, ks. split; [|done]. apply list_elem_of_bind. eauto.
  - by right.
Qed.

(** Removing a childless element removes that element only. *)
Lemma strip_keeps x n e :
  (forall e' kids, (e', kids) ∈ parts n -> eid e' = x -> kids = []) ->
  e ∈ elems n -> eid e <> x -> e ∈ strip x n ≫= elems.
Proof.
  induction n as [s|e0 kids IH] using node_ind; [done|].
  cbn [strip elems parts]. intros Hleaf He Hne.
  destruct (decide (eid e0 = x)) as [E|E].
  - rewrite (Hleaf e0 kids) in He by (done || by left).
    apply list_elem_of_singleton in He as ->. done.
  - rewrite bind_singleton. cbn [elems]. apply elem_of_cons in He as [->|He]; [by left|].
    right. apply list_elem_of_bind in He as (k & He & Hk).
    rewrite Forall_forall in IH.
    assert (H : e ∈ strip x k ≫= elems).
    { apply IH; try done. intros e' ks Hin. apply Hleaf. right.
      apply list_elem_of_bind. eauto. }
    apply list_elem_of_bind in H as (y & Hy & Hyk).
    apply list_elem_of_bind. exists y. split; [done|].
    apply list_elem_of_bind. eauto.
Qed.

Lemma remove_keeps x d e :
  (forall e' kids, (e', kids) ∈ all_parts d -> eid e' = x -> kids = []) ->
  e ∈ elements d -> eid e <> x -> e ∈ elements (remove x d).
Proof.
  unfold all_parts, elements, remove. intros Hleaf (k & He & Hk)%list_elem_of_bind Hne.
  assert (H : e ∈ strip x k ≫= elems).
  { apply strip_keeps; try done. intros e' ks Hin. apply Hleaf.
    apply list_elem_of_bind. eauto. }
  apply list_elem_of_bind in H as (y & Hy & Hyk).
  apply list_elem_of_bind. exists y. split; [done|].
  apply list_elem_of_bind. eauto.
Qed.

End DOMFacts.


(** ** Facts about the content script *)

Module ExtFacts.
Import JS DOM Ext DOMFacts.

Lemma settle_not_pending r body rq : snd (settle r body) <> Pending rq.
Proof. by destruct body as [st [|e]]. Qed.

Lemma resume_not_pending rq o st rq' : snd (resume rq o st) <> Pending rq'.
Proof. apply settle_not_pending. Qed.

Lemma stable_mark_link i g :
  only_key mark g -> stable (touch i g) link_selector.
Proof. intros Hg. by apply (stable_touch i g mark). Qed.

Lemma find_title_touch i g en :
  only_key mark g ->
  find_title (map_entry (touch i g) en) = map_entry (touch i g) <$> find_title en.
Proof.
  intros Hg. unfold find_title.
  rewrite !querySelector_stable by (by apply (stable_touch i g mark)).
  by destruct (querySelector (Tag "h3") en).
Qed.

Lemma href_touch i g en :
  only_key mark g -> href (map_entry (touch i g) en) = href en.
Proof.
  intros Hg. unfold href. cbn [map_entry e_elem].
  rewrite touch_attrs_other; [done|]. intros m. by apply Hg.
Qed.

(** The first steps of [processSearchResult] on an element with a link
    and a title: the mark is set, and the cache decides. *)
Lemma processSearchResult_found r st result linkElement titleElement :
  find_entry r (doc st) = Some result ->
  querySelector link_selector result = Some linkElement ->
  find_title result = Some titleElement ->
  let st1 := set_doc (set_attr r mark "true" (doc st)) st in
  processSearchResult r st =
  match cache st !! href linkElement with
  | Some cached => settle r (displayLabel r cached (href linkElement) st1)
  | None =>
      (addLoadingIndicator r st1,
       Pending {| rq_result := r;
                  rq_endpoint := "http://localhost:5000/api/analyze-extension";
                  rq_url := href linkElement;
                  rq_title := trim (textContent_of titleElement) |})
  end.
Proof.
  intros Hr Hl Ht st1. unfold processSearchResult. fold st1.
  assert (Hg : only_key mark (insert mark "true")) by apply only_key_insert.
  unfold st1 at 1. cbn [doc set_doc]. unfold set_attr.
  rewrite find_entry_update, Hr. cbn [fmap option_fmap option_map].
  rewrite querySelector_stable, Hl by (by apply stable_mark_link).
  cbn [fmap option_fmap option_map].
  rewrite find_title_touch, Ht by done. cbn [fmap option_fmap option_map].
  rewrite href_touch, textContent_of_map by done.
  done.
Qed.

Lemma processSearchResult_reads r st url title :
  link_url r st = Some url -> title_text r st = Some title ->
  let st1 := set_doc (set_attr r mark "true" (doc st)) st in
  processSearchResult r st =
  match cache st !! url with
  | Some cached => settle r (displayLabel r cached url st1)
  | None =>
      (addLoadingIndicator r st1,
       Pending {| rq_result := r;
                  rq_endpoint := "http://localhost:5000/api/analyze-extension";
                  rq_url := url; rq_title := title |})
  end.
Proof.
  unfold link_url, title_text. intros Hl Ht.
  destruct (find_entry r (doc st)) as [result|] eqn:Hr; [|done].
  cbn [mbind option_bind] in Hl, Ht.
  destruct (querySelector link_selector result) as [l|] eqn:Hq; [|done].
  destruct (find_title result) as [t|] eqn:Hf; [|done].
  cbn [fmap option_fmap option_map] in Hl, Ht.
  injection Hl as <-. injection Ht as <-.
  by apply (processSearchResult_found r st result l t).
Qed.

Lemma frame_refl st : frame st st.
Proof. by repeat split. Qed.

Lemma frame_trans st1 st2 st3 : frame st1 st2 -> frame st2 st3 -> frame st1 st3.
Proof. unfold frame. intros (?&?&?&?&?) (?&?&?&?&?). repeat split; congruence. Qed.

Lemma frame_set_doc d st : frame st (set_doc d st).
Proof. by repeat split. Qed.

Lemma frame_set_next_id n st : frame st (set_next_id n st).
Proof. by repeat split. Qed.

Lemma frame_insertLabel r lab st : frame st (insertLabel r lab st).
Proof. unfold insertLabel. repeat case_match; by repeat split. Qed.

Lemma frame_displayErrorLabel r url st : frame st (displayErrorLabel r url st).
Proof.
  unfold displayErrorLabel, createLabel.
  eapply frame_trans; [|apply frame_insertLabel]. apply frame_set_next_id.
Qed.

Lemma frame_addLoadingIndicator r st : frame st (addLoadingIndicator r st).
Proof.
  unfold addLoadingIndicator, createLabel. repeat case_match; try apply frame_refl.
  eapply frame_trans; [|apply frame_insertLabel]. apply frame_set_next_id.
Qed.

Lemma frame_removeLoadingIndicator r st : frame st (removeLoadingIndicator r st).
Proof. unfold removeLoadingIndicator. repeat case_match; by repeat split. Qed.

Lemma frame_cleanup r st : frame st (cleanup r st).
Proof.
  unfold cleanup. eapply frame_trans; [|apply frame_removeLoadingIndicator].
  apply frame_set_doc.
Qed.

Lemma frame_displayLabel r analysis url st : frame st (fst (displayLabel r analysis url st)).
Proof.
  unfold displayLabel, createLabel.
  repeat case_match; cbn [fst];
    first [ apply frame_refl
          | apply frame_displayErrorLabel
          | eapply frame_trans; [|apply frame_insertLabel]; apply frame_set_next_id ].
Qed.

Lemma frame_settle r body : frame (fst body) (fst (settle r body)).
Proof. destruct body as [st [|e]]; apply frame_cleanup. Qed.

Lemma frame_removeAllLabels st : frame st (removeAllLabels st).
Proof. apply frame_set_doc. Qed.

(** *** [removeAllLabels] *)

Lemma removeAllLabels_labels st :
  querySelectorAll label_or_loading (doc (removeAllLabels st)) = [].
Proof.
  unfold removeAllLabels. cbn [doc set_doc].
  apply querySelectorAll_nil; [done|]. intros e He.
  apply elements_del_all in He as (e0 & He0 & Hid & Hcl & _).
  apply elements_remove_all in He0 as [He0 Hno].
  destruct (test label_or_loading e) eqn:T; [|done].
  assert (T0 : test label_or_loading e0 = true).
  { unfold test, label_or_loading in *. cbn [matches] in *. unfold has_class in *.
    by rewrite Hcl. }
  destruct (querySelectorAll_elements label_or_loading (doc st) e0) as (en & Hen & Ee);
    [done..|].
  destruct (Hno en Hen). by rewrite Ee.
Qed.

Lemma removeAllLabels_marks st :
  querySelectorAll (HasAttr mark) (doc (removeAllLabels st)) = [].
Proof.
  unfold removeAllLabels. cbn [doc set_doc].
  apply querySelectorAll_nil; [done|]. intros e He.
  destruct (test (HasAttr mark) e) eqn:T; [|done].
  apply elements_del_all in He as (e0 & He0 & Hid & _ & Hat).
  assert (Hs : is_Some (attrs e !! mark)).
  { unfold test in T. cbn [matches] in T. unfold has_attr in T.
    by destruct (attrs e !! mark). }
  destruct (Hat Hs) as [Hs0 Hno].
  set (d1 := foldl (fun d en => remove (eid (e_elem en)) d) (doc st)
                   (querySelectorAll label_or_loading (doc st))) in *.
  destruct (querySelectorAll_elements (HasAttr mark) d1 e0) as (en & Hen & Ee);
    [done|done| |].
  { unfold test. cbn [matches]. unfold has_attr. by destruct Hs0 as [v ->]. }
  destruct (Hno en Hen). by rewrite Ee.
Qed.

(** *** The [finally] block *)

Lemma processing_false r st :
  (forall e, e ∈ elements (doc st) -> eid e = r -> attrs e !! mark <> Some "true") ->
  processing r st = false.
Proof.
  intros H. unfold processing.
  destruct (find_entry r (doc st)) as [en|] eqn:E; [|done].
  apply bool_decide_eq_false.
  apply find_entry_Some in E as [Hin Hid].
  apply H; [|done]. apply elem_of_elements_entry. by exists en.
Qed.

Lemma cleanup_clears_mark r st : processing r (cleanup r st) = false.
Proof.
  apply processing_false. intros e He Hid.
  assert (H : e ∈ elements (set_attr r mark "false" (doc st))).
  { unfold cleanup, removeLoadingIndicator in He. cbn [doc set_doc] in He.
    repeat case_match; cbn [doc set_doc] in He; try done.
    by apply elements_remove in He as [? _]. }
  unfold set_attr in H. rewrite elements_update in H.
  apply list_elem_of_fmap in H as (e0 & -> & _).
  rewrite touch_eid in Hid. unfold touch. rewrite decide_True by done.
  cbn [attrs with_attrs]. by rewrite lookup_insert_eq.
Qed.

Lemma settle_clears_mark r body : processing r (fst (settle r body)) = false.
Proof. destruct body as [st [|e]]; apply cleanup_clears_mark. Qed.

(** *** The cache *)

Lemma resume_cache rq o st :
  cache (fst (resume rq o st)) =
  let analysis := analyzeUrlExtension o in
  if truthy analysis && truthy (field analysis "success") &&
     truthy (field analysis "data") && cacheResults (settings st)
  then <[rq_url rq := field analysis "data"]> (cache st)
  else cache st.
Proof.
  unfold resume. cbv zeta.
  match goal with |- cache (fst (settle ?r ?b)) = _ =>
    pose proof (frame_settle r b) as (F & _) end.
  rewrite F. clear F.
  destruct (truthy (analyzeUrlExtension o) && _ && _).
  - pose proof (frame_displayLabel (rq_result rq)
                  (field (analyzeUrlExtension o) "data") (rq_url rq)) as F.
    destruct (cacheResults (settings st)); cbn [andb].
    + by destruct (F (set_cache (<[rq_url rq:=field (analyzeUrlExtension o) "data"]>
                                   (cache st)) st)) as (-> & _).
    + by destruct (F st) as (-> & _).
  - cbn [andb fst]. by destruct (frame_displayErrorLabel (rq_result rq) (rq_url rq) st).
Qed.

(** *** What is rendered *)

Lemma elem_of_rendered i w st :
  (i, w) ∈ rendered st <->
  exists e, e ∈ elements (doc st) /\ eid e = i /\ inner e = Some w.
Proof.
  unfold rendered, widget_of. rewrite list_elem_of_omap. split.
  - intros (e & He & Hw). exists e. destruct (inner e); [|done].
    cbn in Hw. injection Hw as <- <-. done.
  - intros (e & He & <- & Hw). exists e. by rewrite Hw.
Qed.

Lemma elems_wrapper el lab e : e ∈ elems (Elem el [lab]) <-> e = el \/ e ∈ elems lab.
Proof. cbn [elems]. by rewrite elem_of_cons, bind_singleton. Qed.

Lemma insertLabel_elements r lab st e :
  e ∈ elements (doc (insertLabel r lab st)) ->
  e ∈ elements (doc st) \/ e ∈ elems lab \/ e = wrapper_div (next_id st).
Proof.
  unfold insertLabel. intros H.
  repeat case_match; cbn [doc set_doc set_next_id] in H; try (by left);
    (apply elements_insert_after in H || apply elements_append_child in H);
    (destruct H as [H|H]; [by left|]);
    (apply elems_wrapper in H as [->|H]; [by right; right | by right; left]).
Qed.

Lemma insertLabel_adds r lab st e :
  is_Some (find_entry r (doc st)) -> e ∈ elems lab ->
  e ∈ elements (doc (insertLabel r lab st)).
Proof.
  intros [result Hr] He. unfold insertLabel. rewrite Hr.
  assert (Hw : forall el, e ∈ elems (Elem el [lab])).
  { intros el. apply elems_wrapper. by right. }
  repeat case_match; cbn [doc set_doc set_next_id] in *;
    try (apply elements_append_child_new; [by eapply find_entry_id|done]).
  all: apply elements_insert_after_new; [|done].
  all: match goal with H : find_entry ?i _ ≫= _ = Some _ |- _ =>
         destruct (find_entry i (doc st)) eqn:E in H; [|done] end.
  all: by eapply find_entry_id.
Qed.

Lemma rendered_displayErrorLabel r url st i w :
  (i, w) ∈ rendered (displayErrorLabel r url st) ->
  (i, w) ∈ rendered st \/ (i = next_id st /\ w = ErrorLabel r url).
Proof.
  rewrite !elem_of_rendered. intros (e & He & Hi & Hw).
  unfold displayErrorLabel, createLabel in He.
  apply insertLabel_elements in He as [He|[He| ->]].
  - left. by exists e.
  - right. cbn [elems] in He. apply list_elem_of_singleton in He as ->.
    cbn in Hi, Hw. split; congruence.
  - discriminate Hw.
Qed.

Lemma displayErrorLabel_renders r url st :
  is_Some (find_entry r (doc st)) ->
  (next_id st, ErrorLabel r url) ∈ rendered (displayErrorLabel r url st).
Proof.
  intros Hr. apply elem_of_rendered.
  exists {| eid := next_id st; tag := "div"; classes := ["truthly-label"; "error"];
            attrs := ∅; inner := Some (ErrorLabel r url) |}.
  split; [|done].
  unfold displayErrorLabel, createLabel. apply insertLabel_adds; [done|].
  cbn [elems]. by left.
Qed.

Lemma rendered_cleanup r st i w :
  (i, w) ∈ rendered (cleanup r st) -> (i, w) ∈ rendered st.
Proof.
  rewrite !elem_of_rendered. intros (e & He & Hi & Hw).
  assert (H : e ∈ elements (set_attr r mark "false" (doc st))).
  { unfold cleanup, removeLoadingIndicator in He. cbn [doc set_doc] in He.
    repeat case_match; cbn [doc set_doc] in He; try done.
    by apply elements_remove in He as [? _]. }
  unfold set_attr in H. rewrite elements_update in H.
  apply list_elem_of_fmap in H as (e0 & -> & H0).
  exists e0. by rewrite touch_eid in Hi; rewrite touch_inner in Hw.
Qed.

Lemma set_cache_id st : set_cache (cache st) st = st.
Proof. by destruct st. Qed.

(** A response whose data has no label, or a falsy one, ends in the
    error label, whatever the rest of the response. *)
Lemma resume_without_label rq o st :
  truthy (field (field (analyzeUrlExtension o) "data") "label") = false ->
  exists st1, doc st1 = doc st /\ next_id st1 = next_id st /\
    resume rq o st =
      (cleanup (rq_result rq) (displayErrorLabel (rq_result rq) (rq_url rq) st1),
       Fulfilled).
Proof.
  intros Hl. unfold resume. cbv zeta.
  set (a := analyzeUrlExtension o) in *. set (d := field a "data") in *.
  destruct (truthy a && truthy (field a "success") && truthy d) eqn:C.
  - apply andb_true_iff in C as [_ Td].
    assert (G : get d "label" = inr (field d "label")) by (by destruct d).
    destruct (cacheResults (settings st));
      [exists (set_cache (<[rq_url rq:=d]> (cache st)) st) | exists st];
      (split; [done|split; [done|]]);
      unfold displayLabel; by rewrite G, Hl.
  - by exists st.
Qed.

Lemma shouldProcessResult_eq r st :
  shouldProcessResult r st =
  negb (labelled r st) && negb (processing r st) &&
  match link_url r st with
  | Some url => negb (includes url "google.com") && negb (startsWith url "javascript:")
  | None => false
  end.
Proof.
  unfold shouldProcessResult, labelled, processing, link_url.
  destruct (find_entry r (doc st)) as [result|]; [|done].
  cbn [mbind option_bind].
  destruct (querySelector (Class "truthly-label") result); [done|].
  cbn [negb andb].
  destruct (decide (attrs (e_elem result) !! mark = Some "true"));
    [by rewrite bool_decide_eq_true_2 | rewrite bool_decide_eq_false_2 by done].
  cbn [negb andb].
  destruct (querySelector link_selector result) as [l|]; [|done].
  cbn [fmap option_fmap option_map]. rewrite JSFacts.google_tests.
  by destruct (includes (href l) "google.com"), (startsWith (href l) "javascript:").
Qed.

(** Every way out of [processSearchResult] other than the suspension at
    the fetch goes through the [finally] block, which clears the mark. *)
Lemma processSearchResult_exit r st :
  (exists rq, snd (processSearchResult r st) = Pending rq) \/
  processing r (fst (processSearchResult r st)) = false.
Proof.
  unfold processSearchResult.
  repeat case_match; first [ right; apply settle_clears_mark | left; eauto ].
Qed.

Lemma resume_exit rq o st : processing (rq_result rq) (fst (resume rq o st)) = false.
Proof. apply settle_clears_mark. Qed.

(** *** A page without labels *)

Lemma removeAllLabels_bare st : bare (doc (removeAllLabels st)).
Proof. split; [apply removeAllLabels_labels | apply removeAllLabels_marks]. Qed.

Lemma querySelectorAll_nil_test s d e :
  local s = true -> querySelectorAll s d = [] -> e ∈ elements d -> test s e = false.
Proof.
  intros Hl Hn He. destruct (test s e) eqn:T; [|done].
  destruct (querySelectorAll_elements s d e Hl He T) as (en & Hen & _).
  rewrite Hn in Hen. by apply elem_of_nil in Hen.
Qed.

Lemma bare_unseen r st :
  bare (doc st) -> labelled r st = false /\ processing r st = false.
Proof.
  intros [Hl Hm]. split.
  - unfold labelled. destruct (find_entry r (doc st)) as [en|] eqn:E; [|done].
    cbn [mbind option_bind].
    rewrite (querySelector_None (Class "truthly-label") r (doc st) en); [done..|].
    intros e He.
    pose proof (querySelectorAll_nil_test label_or_loading (doc st) e eq_refl Hl He) as T.
    unfold test, label_or_loading in *. cbn [matches] in *.
    by apply orb_false_iff in T as [? _].
  - apply processing_false. intros e He _.
    pose proof (querySelectorAll_nil_test (HasAttr mark) (doc st) e eq_refl Hm He) as T.
    unfold test in T. cbn [matches] in T. unfold has_attr in T.
    by destruct (attrs e !! mark).
Qed.

(** *** While the extension is disabled *)




(** *** Tidy states *)

Lemma is_loading_touch i g e : is_loading (touch i g e) = is_loading e.
Proof. unfold is_loading, has_class. by rewrite touch_classes. Qed.

Lemma ids_update i g d : eid <$> elements (update i g d) = eid <$> elements d.
Proof.
  rewrite elements_update, <- list_fmap_compose. apply list_fmap_ext.
  intros _ e _. apply touch_eid.
Qed.

Lemma tidy_update i g st : tidy st -> tidy (set_doc (update i g (doc st)) st).
Proof.
  intros (Hn & Hf & Hl). unfold tidy. cbn [doc next_id set_doc].
  split; [by rewrite ids_update|]. split.
  - intros e. rewrite elements_update. intros (e0 & -> & H0)%list_elem_of_fmap.
    rewrite touch_eid. by apply Hf.
  - intros e kids. rewrite all_parts_update.
    intros ([e0 ks] & [= -> ->] & H0)%list_elem_of_fmap. cbn [fst snd].
    rewrite is_loading_touch. intros Hlo. by rewrite (Hl e0 ks H0 Hlo).
Qed.

(** The [finally] block takes no label away. *)
Lemma cleanup_keeps r st e :
  tidy st -> e ∈ elements (doc st) -> is_loading e = false ->
  touch r (insert mark "false") e ∈ elements (doc (cleanup r st)).
Proof.
  intros Ht He Hlo. unfold cleanup.
  pose proof (tidy_update r (insert mark "false") st Ht) as (Hn & _ & Hl).
  set (st2 := set_doc (set_attr r mark "false" (doc st)) st) in *.
  assert (H2 : touch r (insert mark "false") e ∈ elements (doc st2)).
  { unfold st2, set_attr. cbn [doc set_doc]. rewrite elements_update.
    by apply list_elem_of_fmap_2. }
  unfold removeLoadingIndicator.
  destruct (find_entry r (doc st2)) as [result|] eqn:Er; [|done].
  destruct (querySelector (Class "truthly-loading") result) as [L|] eqn:EL; [|done].
  cbn [doc set_doc].
  destruct (querySelector_elements _ _ _ _ _ Er EL) as [HL HsL].
  assert (LL : is_loading (e_elem L) = true) by exact HsL.
  apply remove_keeps; [|done|].
  - intros e' kids Hp Hid. apply (Hl e' kids Hp).
    rewrite (same_name eid (elements (doc st2)) e' (e_elem L)); try done.
    by apply parts_element in Hp.
  - intros Hid.
    pose proof (same_name eid (elements (doc st2)) _ (e_elem L) Hn H2 HL Hid) as E.
    rewrite <- E, is_loading_touch in LL. congruence.
Qed.

Lemma tidy_insertLabel r le st :
  NoDup (eid <$> elements (doc st)) ->
  (forall e, e ∈ elements (doc st) -> eid e < eid le) ->
  next_id st = S (eid le) ->
  (forall e kids, (e, kids) ∈ all_parts (doc st) -> is_loading e = true -> kids = []) ->
  page_element r st ->
  tidy (insertLabel r (Elem le []) st).
Proof.
  intros Hn Hf Hid Hl Hr.
  assert (T0 : tidy st).
  { split; [done|]. split; [|done]. intros e He. specialize (Hf e He). lia. }
  set (wr := wrapper_div (next_id st)).
  assert (Hw : elems (Elem wr [Elem le []]) = [wr; le]) by done.
  assert (Nw : NoDup (eid <$> [wr; le])).
  { cbn. rewrite Hid. apply NoDup_cons. split; [|apply NoDup_singleton].
    intros ?%list_elem_of_singleton. lia. }
  assert (Gw : forall e, e ∈ [wr; le] -> eid le <= eid e).
  { intros e [->|[->|?%elem_of_nil]%elem_of_cons]%elem_of_cons; cbn; [lia..|done]. }
  assert (Pw : forall e kids, (e, kids) ∈ parts (Elem wr [Elem le []]) ->
                 is_loading e = true -> kids = []).
  { intros e kids. cbn [parts]. rewrite bind_singleton. cbn [parts].
    intros [[= -> ->]|[[= -> ->]|?%elem_of_nil]%elem_of_cons]%elem_of_cons; done. }
  assert (A : forall t, tidy (set_doc (insert_after t (Elem wr [Elem le []]) (doc st))
                                      (set_next_id (S (next_id st)) st))).
  { intros t. unfold tidy. cbn [doc next_id set_doc set_next_id]. split; [|split].
    - apply (NoDup_inserted t (eid le) (elements (doc st)) [wr; le]); [done..|].
      rewrite elements_insert_after_perm. by rewrite Hw.
    - intros e [He|He]%elements_insert_after.
      + specialize (Hf e He). lia.
      + rewrite Hw in He.
        apply elem_of_cons in He as [->|[->|?%elem_of_nil]%elem_of_cons]; cbn; [lia..|done].
    - intros e kids [(e0 & ks & H0 & [= -> ->])|Hp]%all_parts_insert_after Hlo.
      + by rewrite (Hl e0 ks H0 Hlo).
      + by apply (Pw e kids). }
  assert (B : tidy (set_doc (append_child r (Elem wr [Elem le []]) (doc st))
                            (set_next_id (S (next_id st)) st))).
  { unfold tidy. cbn [doc next_id set_doc set_next_id]. split; [|split].
    - apply (NoDup_inserted r (eid le) (elements (doc st)) [wr; le]); [done..|].
      rewrite elements_append_child_perm. by rewrite Hw.
    - intros e [He|He]%elements_append_child.
      + specialize (Hf e He). lia.
      + rewrite Hw in He.
        apply elem_of_cons in He as [->|[->|?%elem_of_nil]%elem_of_cons]; cbn; [lia..|done].
    - intros e kids [(e0 & ks & H0 & [= -> ->])|Hp]%all_parts_append_child Hlo.
      + rewrite (Hl e0 ks H0 Hlo). cbn [map app].
        destruct (decide (eid e0 = r)) as [E|E]; [|done].
        pose proof (Hr e0 (parts_element _ _ _ H0) E). congruence.
      + by apply (Pw e kids). }
  unfold insertLabel. fold wr.
  destruct (find_entry r (doc st)) as [result|]; [|done].
  repeat case_match; first [apply A | apply B].
Qed.

(** A label inserted for a page element is on the page when the
    [finally] block has run. *)
Lemma label_stays r cls w st :
  tidy st -> page_element r st -> is_Some (find_entry r (doc st)) ->
  existsb (String.eqb "truthly-loading") cls = false ->
  let (labelDiv, st1) := createLabel cls w st in
  (next_id st, w) ∈ rendered (cleanup r (insertLabel r labelDiv st1)).
Proof.
  intros (Hn & Hf & Hl) Hr Hat Hcls. unfold createLabel.
  set (le := {| eid := next_id st; tag := "div"; classes := cls; attrs := ∅;
                inner := Some w |}).
  set (st1 := set_next_id (S (next_id st)) st).
  assert (T1 : tidy (insertLabel r (Elem le []) st1)).
  { by apply tidy_insertLabel. }
  assert (H1 : le ∈ elements (doc (insertLabel r (Elem le []) st1))).
  { apply insertLabel_adds; [done|]. cbn [elems]. by left. }
  pose proof (cleanup_keeps r _ le T1 H1 Hcls) as H2.
  apply elem_of_rendered. eexists. split; [exact H2|].
  by rewrite touch_eid, touch_inner.
Qed.

Lemma tidy_set_cache c st : tidy (set_cache c st) <-> tidy st.
Proof. done. Qed.

Lemma displayErrorLabel_stays r url st :
  tidy st -> page_element r st -> is_Some (find_entry r (doc st)) ->
  (next_id st, ErrorLabel r url) ∈ rendered (cleanup r (displayErrorLabel r url st)).
Proof.
  intros Ht Hr Hat.
  by apply (label_stays r ["truthly-label"; "error"] (ErrorLabel r url) st).
Qed.

Lemma distinct_NoDup l : distinct l = true -> NoDup l.
Proof.
  induction l as [|x l IH]; [intros _; apply NoDup_nil_2|].
  cbn [distinct]. intros [Hx Hl]%andb_true_iff. apply NoDup_cons. split; [|auto].
  intros Hin. apply negb_true_iff in Hx.
  assert (E : existsb (Nat.eqb x) l = true).
  { apply existsb_exists. exists x. split; [by apply list_elem_of_In|].
    apply Nat.eqb_refl. }
  congruence.
Qed.

Lemma tidyb_sound st : tidyb st = true -> tidy st.
Proof.
  unfold tidyb. intros [[H1 H2]%andb_true_iff H3]%andb_true_iff.
  split; [by apply distinct_NoDup|]. split.
  - intros e He. rewrite forallb_forall in H2.
    apply Nat.ltb_lt, H2. by apply list_elem_of_In.
  - intros e kids Hp Hlo. rewrite forallb_forall in H3.
    specialize (H3 (e, kids)). cbn [fst snd] in H3. rewrite Hlo in H3.
    unfold childless in H3. cbn in H3. destruct kids; [done|].
    discriminate H3. by apply list_elem_of_In.
Qed.

Lemma page_elementb_sound r st : page_elementb r st = true -> page_element r st.
Proof.
  unfold page_elementb. rewrite forallb_forall. intros H e He Hid.
  specialize (H e). rewrite Hid, Nat.eqb_refl in H. cbn in H.
  apply negb_true_iff, H. by apply list_elem_of_In.
Qed.

(** [displayLabel] on data whose label is a non-empty text, followed by
    the [finally] block, leaves the verdict on the page. *)
Lemma displayLabel_settles r fs s url st :
  assoc "label" fs = Str s -> s <> "" ->
  tidy st -> page_element r st -> is_Some (find_entry r (doc st)) ->
  snd (settle r (displayLabel r (Obj fs) url st)) = Fulfilled /\
  (next_id st,
   Verdict (isTrustworthy_of s) (confidence_of (Obj fs))
           (or (assoc "summary" fs) (Str "No summary available"))
           (or (assoc "model" fs) (Str "BART/LLaMA"))
           (Obj fs) url)
    ∈ rendered (fst (settle r (displayLabel r (Obj fs) url st))).
Proof.
  intros Hl Hs Ht Hr Hat.
  assert (T : truthy (Str s) = true).
  { cbn [truthy]. destruct (String.eqb_spec s ""); done. }
  unfold displayLabel, get, field. rewrite Hl, T.
  pose proof (label_stays r
                ["truthly-label"; if isTrustworthy_of s then "trustworthy" else "untrustworthy"]
                (Verdict (isTrustworthy_of s) (confidence_of (Obj fs))
                   (or (assoc "summary" fs) (Str "No summary available"))
                   (or (assoc "model" fs) (Str "BART/LLaMA")) (Obj fs) url)
                st Ht Hr Hat) as K.
  unfold createLabel in *. cbn [settle fst snd]. split; [done|].
  apply K. by destruct (isTrustworthy_of s).
Qed.

(** A response with data whose label is a non-empty text ends with the
    verdict on the page. *)
Lemma resume_renders_verdict rq o st fs s :
  truthy (analyzeUrlExtension o) = true ->
  truthy (field (analyzeUrlExtension o) "success") = true ->
  field (analyzeUrlExtension o) "data" = Obj fs ->
  assoc "label" fs = Str s -> s <> "" ->
  tidy st -> page_element (rq_result rq) st ->
  is_Some (find_entry (rq_result rq) (doc st)) ->
  snd (resume rq o st) = Fulfilled /\
  (next_id st,
   Verdict (isTrustworthy_of s) (confidence_of (Obj fs))
           (or (assoc "summary" fs) (Str "No summary available"))
           (or (assoc "model" fs) (Str "BART/LLaMA"))
           (Obj fs) (rq_url rq))
    ∈ rendered (fst (resume rq o st)).
Proof.
  intros Ta Ts Hd Hl Hs Ht Hr Hat. unfold resume. cbv zeta.
  rewrite Ta, Ts, Hd. cbn [truthy andb].
  set (st1 := if cacheResults (settings st)
              then set_cache (<[rq_url rq:=Obj fs]> (cache st)) st else st).
  assert (H1 : tidy st1 /\ doc st1 = doc st /\ next_id st1 = next_id st).
  { unfold st1. by destruct (cacheResults (settings st)). }
  destruct H1 as (T1 & D1 & N1). rewrite <- N1.
  apply displayLabel_settles; try done.
  - intros e He. apply Hr. by rewrite <- D1.
  - by rewrite D1.
Qed.

(** The same on a cache hit. *)
Lemma cache_hit_renders_verdict r st url title fs s :
  link_url r st = Some url -> title_text r st = Some title ->
  cache st !! url = Some (Obj fs) ->
  assoc "label" fs = Str s -> s <> "" ->
  tidy st -> page_element r st ->
  (next_id st,
   Verdict (isTrustworthy_of s) (confidence_of (Obj fs))
           (or (assoc "summary" fs) (Str "No summary available"))
           (or (assoc "model" fs) (Str "BART/LLaMA"))
           (Obj fs) url)
    ∈ rendered (fst (processSearchResult r st)).
Proof.
  intros Hu Htt Hc Hl Hs Ht Hr.
  rewrite (processSearchResult_reads r st url title Hu Htt), Hc.
  set (st1 := set_doc (set_attr r mark "true" (doc st)) st).
  change (next_id st) with (next_id st1).
  apply displayLabel_settles; try done.
  - by apply tidy_update.
  - intros e. unfold st1, set_attr. cbn [doc set_doc]. rewrite elements_update.
    intros (e0 & -> & H0)%list_elem_of_fmap. rewrite touch_eid, is_loading_touch.
    by apply Hr.
  - unfold st1, set_attr. cbn [doc set_doc]. rewrite find_entry_update.
    unfold link_url in Hu. destruct (find_entry r (doc st)); [by eexists|done].
Qed.

(** *** The invariant of the event loop *)

Lemma tidy_remove x st : tidy st -> tidy (set_doc (remove x (doc st)) st).
Proof.
  intros (Hn & Hf & Hl). unfold tidy. cbn [doc next_id set_doc]. split; [|split].
  - pose proof (fmap_sublist eid _ _ (elements_remove_sublist x (doc st))) as S.
    exact (sublist_NoDup _ _ Hn S).
  - intros e [He _]%elements_remove. by apply Hf.
  - intros e kids (e0 & ks & H0 & [= -> ->])%all_parts_remove Hlo.
    by rewrite (Hl e0 ks H0 Hlo).
Qed.

Lemma wf_tidy base st : wf base st -> tidy st.
Proof. by intros (? & _). Qed.

Lemma wf_page_element base st r : wf base st -> r < base -> page_element r st.
Proof.
  intros (_ & _ & Hg & _) Hr e He Hid. destruct (Hg e He) as (_ & Hlo & _).
  destruct (is_loading e); [|done]. specialize (Hlo eq_refl). lia.
Qed.

Lemma good_touch base i g e : only_key mark g -> good base e -> good base (touch i g e).
Proof.
  intros Hg (H1 & H2 & H3 & H4). unfold good.
  rewrite touch_eid, is_loading_touch, touch_inner.
  unfold has_class at 1. rewrite touch_classes.
  split; [|done]. intros Hb. rewrite touch_attrs_other; [by apply H1|].
  intros m. by apply Hg.
Qed.

Lemma wf_update base i g st :
  only_key mark g -> wf base st -> wf base (set_doc (update i g (doc st)) st).
Proof.
  intros Hg (Ht & Hb & He & Hi). split; [by apply tidy_update|]. split; [done|].
  split; [|done]. cbn [doc set_doc]. intros e. rewrite elements_update.
  intros (e0 & -> & H0)%list_elem_of_fmap. apply good_touch; auto.
Qed.

Lemma wf_remove base x st : wf base st -> wf base (set_doc (remove x (doc st)) st).
Proof.
  intros (Ht & Hb & He & Hi). split; [by apply tidy_remove|]. split; [done|].
  split; [|done]. cbn [doc set_doc]. intros e [H _]%elements_remove. by apply He.
Qed.

Lemma wf_frame base st st' :
  doc st' = doc st -> next_id st' = next_id st -> inflight st' = inflight st ->
  wf base st -> wf base st'.
Proof. unfold wf, tidy. intros -> -> ->. done. Qed.

Lemma wf_created base r cls w st :
  wf base st -> r < base ->
  (forall r' u, w = ErrorLabel r' u -> r' < base) ->
  existsb (String.eqb "truthly-label") cls || existsb (String.eqb "truthly-loading") cls
    = true ->
  let (labelDiv, st1) := createLabel cls w st in
  wf base (insertLabel r labelDiv st1).
Proof.
  intros ((Hn & Hf & Hl) & Hb & Hg & Hi) Hr Hw Hcls. unfold createLabel.
  set (le := {| eid := next_id st; tag := "div"; classes := cls; attrs := ∅;
                inner := Some w |}).
  set (st1 := set_next_id (S (next_id st)) st).
  assert (P : page_element r st1).
  { apply (wf_page_element base st); [|done].
    exact (conj (conj Hn (conj Hf Hl)) (conj Hb (conj Hg Hi))). }
  assert (T1 : tidy (insertLabel r (Elem le []) st1)) by (by apply tidy_insertLabel).
  destruct (frame_insertLabel r (Elem le []) st1) as (_ & _ & Fi & _).
  split; [done|]. split; [|split].
  - unfold insertLabel. repeat case_match; cbn [next_id set_doc set_next_id st1]; lia.
  - intros e [He|[He| ->]]%insertLabel_elements.
    + by apply Hg.
    + cbn [elems] in He. apply list_elem_of_singleton in He as ->.
      unfold good. cbn [eid attrs inner le]. split; [done|]. split; [intros _; lia|].
      split; [intros r' u [= ->]; by apply (Hw r' u)|]. by intros _ _.
    + unfold good. cbn. split; [done|]. split; [done|]. done.
  - rewrite Fi. exact Hi.
Qed.

Lemma wf_displayErrorLabel base r url st :
  wf base st -> r < base -> wf base (displayErrorLabel r url st).
Proof.
  intros H Hr.
  pose proof (wf_created base r ["truthly-label"; "error"] (ErrorLabel r url) st H Hr) as K.
  unfold displayErrorLabel, createLabel in *. apply K; [|done]. by intros r' u [= <- _].
Qed.

Lemma wf_addLoadingIndicator base r st :
  wf base st -> r < base -> wf base (addLoadingIndicator r st).
Proof.
  intros H Hr.
  pose proof (wf_created base r ["truthly-loading"] Spinner st H Hr) as K.
  unfold addLoadingIndicator, createLabel in *.
  destruct (find_entry r (doc st)); [|done].
  destruct (querySelector (Class "truthly-loading") e); [done|]. by apply K.
Qed.

Lemma wf_displayLabel base r analysis url st :
  wf base st -> r < base -> wf base (fst (displayLabel r analysis url st)).
Proof.
  intros H Hr. unfold displayLabel.
  destruct (get analysis "label") as [e|label]; [done|].
  destruct (truthy label); [|by apply wf_displayErrorLabel].
  destruct label; try done. cbn [fst].
  match goal with |- wf _ (fst (let (_, _) := createLabel ?cls ?w st in _)) =>
    pose proof (wf_created base r cls w st H Hr) as K end.
  unfold createLabel in *. cbn [fst]. by apply K.
Qed.

Lemma wf_cleanup base r st : wf base st -> wf base (cleanup r st).
Proof.
  intros H. unfold cleanup, removeLoadingIndicator.
  pose proof (wf_update base r (insert mark "false") st (only_key_insert _ _) H) as H2.
  repeat case_match; try done. by apply (wf_remove base _ _ H2).
Qed.

Lemma wf_settle base r body : wf base (fst body) -> wf base (fst (settle r body)).
Proof. destruct body as [st [|e]]; apply wf_cleanup. Qed.

Lemma wf_processSearchResult base r st :
  wf base st -> r < base ->
  wf base (fst (processSearchResult r st)) /\
  forall rq, snd (processSearchResult r st) = Pending rq -> rq_result rq = r.
Proof.
  intros H Hr. unfold processSearchResult.
  pose proof (wf_update base r (insert mark "true") st (only_key_insert _ _) H) as H1.
  set (st1 := set_doc (set_attr r mark "true" (doc st)) st) in *.
  repeat case_match; cbn [fst snd].
  all: try (split; [|intros rq E; by destruct (settle_not_pending _ _ _ E)]).
  all: try (apply wf_settle; cbn [fst]; try done; by apply wf_displayLabel).
  split; [by apply wf_addLoadingIndicator|]. by intros rq [= <-].
Qed.

Lemma wf_launch base r st : wf base st -> r < base -> wf base (launch r st).
Proof.
  intros H Hr. destruct (wf_processSearchResult base r st H Hr) as [H1 H2].
  unfold launch. destruct (processSearchResult r st) as [st' [|e|rq]]; try done.
  cbn [fst snd] in *. destruct H1 as (Ht & Hb & Hg & Hi).
  split; [done|]. split; [done|]. split; [done|]. cbn [inflight set_inflight].
  intros rq' [Hin| ->%list_elem_of_singleton]%elem_of_app; [by apply Hi|].
  by rewrite (H2 rq eq_refl).
Qed.

Lemma wf_resume base rq o st :
  wf base st -> rq_result rq < base -> wf base (fst (resume rq o st)).
Proof.
  intros H Hr. unfold resume. cbv zeta. apply wf_settle.
  repeat case_match; cbn [fst]; first
    [ apply wf_displayLabel; [|done]; by apply (wf_frame base st)
    | by apply wf_displayErrorLabel ].
Qed.

Lemma wf_remove_all base (l : list entry) st :
  wf base st ->
  wf base (set_doc (foldl (fun d en => remove (eid (e_elem en)) d) (doc st) l) st).
Proof.
  revert st. induction l as [|en l IH]; intros st H; cbn [foldl].
  - by apply (wf_frame base st).
  - apply (IH (set_doc (remove (eid (e_elem en)) (doc st)) st)).
    by apply wf_remove.
Qed.

Lemma wf_del_all base (l : list entry) st :
  wf base st ->
  wf base (set_doc (foldl (fun d en => del_attr (eid (e_elem en)) mark d) (doc st) l) st).
Proof.
  revert st. induction l as [|en l IH]; intros st H; cbn [foldl].
  - by apply (wf_frame base st).
  - apply (IH (set_doc (del_attr (eid (e_elem en)) mark (doc st)) st)).
    apply wf_update; [apply only_key_delete|done].
Qed.

Lemma wf_removeAllLabels base st : wf base st -> wf base (removeAllLabels st).
Proof.
  intros H. unfold removeAllLabels.
  pose proof (wf_remove_all base (querySelectorAll label_or_loading (doc st)) st H) as H1.
  set (d1 := foldl (fun d en => remove (eid (e_elem en)) d) (doc st)
                   (querySelectorAll label_or_loading (doc st))) in *.
  exact (wf_del_all base (querySelectorAll (HasAttr mark) d1) (set_doc d1 st) H1).
Qed.

Lemma wf_scan base (l : list entry) st :
  (forall en, en ∈ l -> eid (e_elem en) < base) -> wf base st ->
  wf base (foldl (fun st en =>
                    let r := eid (e_elem en) in
                    if shouldProcessResult r st then launch r st else st) st l).
Proof.
  revert st. induction l as [|en l IH]; intros st Hl H; cbn [foldl]; [done|].
  apply IH; [intros en' ?; apply Hl; by right|].
  destruct (shouldProcessResult _ st); [|done].
  apply wf_launch; [done|]. apply Hl. by left.
Qed.

Lemma wf_processSearchResults base st : wf base st -> wf base (processSearchResults st).
Proof.
  intros H. unfold processSearchResults. destruct (negb _); [done|].
  apply wf_scan; [|done]. intros en [Hs Hen]%list_elem_of_filter.
  destruct H as (_ & _ & Hg & _).
  assert (He : e_elem en ∈ elements (doc st)).
  { apply elem_of_elements_entry. by exists en. }
  destruct (Hg _ He) as (Hved & _).
  destruct (decide (eid (e_elem en) < base)) as [|Hge]; [done|].
  unfold selects in Hs. cbn [matches] in Hs. unfold has_attr in Hs.
  rewrite Hved in Hs by lia. done.
Qed.

Lemma wf_handleMessage base m st : wf base st -> wf base (handleMessage m st).
Proof.
  intros H. destruct m as [s| |t]; cbn [handleMessage]; [| |done].
  - destruct (negb _).
    + apply wf_removeAllLabels. by apply (wf_frame base st).
    + by apply (wf_frame base st).
  - assert (H1 : wf base (removeAllLabels (set_cache ∅ st))).
    { apply wf_removeAllLabels. by apply (wf_frame base st). }
    destruct (enabled _); [|done]. by apply (wf_frame base _ _ eq_refl eq_refl eq_refl).
Qed.

Lemma wf_retry base label st : wf base st -> wf base (retry label st).
Proof.
  intros H. unfold retry.
  destruct (find_entry label (doc st)) as [en|] eqn:E; [|done].
  destruct (inner (e_elem en)) as [[| |r u]|] eqn:Ew; try done.
  assert (Hr : r < base).
  { destruct H as (_ & _ & Hg & _).
    destruct (Hg _ (find_entry_elements _ _ _ E)) as (_ & _ & Hk & _). by apply (Hk r u). }
  apply wf_launch; [|done].
  apply (wf_update base r (delete mark) _ (only_key_delete _)).
  by apply wf_remove.
Qed.

Lemma wf_step base st ev : wf base st -> wf base (step st ev).
Proof.
  intros H. destruct ev as [m| | |i o|l]; cbn [step].
  - destruct (listening st); [by apply wf_handleMessage|done].
  - destruct (timers st) as [|n]; [done|].
    apply wf_processSearchResults. by apply (wf_frame base st).
  - destruct (_ && _); [|done]. by apply (wf_frame base st).
  - destruct (inflight st !! i) as [rq|] eqn:E; [|done].
    apply wf_resume.
    + destruct H as (Ht & Hb & Hg & Hi). split; [done|]. split; [done|].
      split; [done|]. cbn [inflight set_inflight]. intros rq' Hin.
      apply Hi. by apply list_elem_of_delete_inv in Hin.
    + destruct H as (_ & _ & _ & Hi). apply Hi. by apply list_elem_of_lookup_2 in E.
  - by apply wf_retry.
Qed.


(** The script started on a page as loaded satisfies it. *)
Lemma wf_started d fresh o :
  distinct (eid <$> elements d) = true ->
  forallb (fun e => (eid e <? fresh)%nat) (elements d) = true ->
  forallb untouched (elements d) = true ->
  wf fresh (init o (new d fresh)).
Proof.
  intros H1 H2 H3.
  assert (W : wf fresh (new d fresh)).
  { split; [|split; [done|split]].
    - split; [by apply distinct_NoDup|]. split.
      + intros e He. rewrite forallb_forall in H2.
        apply Nat.ltb_lt, H2. by apply list_elem_of_In.
      + intros e kids Hp Hlo. rewrite forallb_forall in H3.
        apply parts_element, list_elem_of_In, H3 in Hp. unfold untouched in Hp.
        cbn [doc new] in *. rewrite Hlo in Hp. done.
    - intros e He. cbn [doc new] in He. rewrite forallb_forall in H2, H3.
      apply list_elem_of_In in He. specialize (H2 e He). specialize (H3 e He).
      apply Nat.ltb_lt in H2. unfold untouched in H3.
      apply andb_true_iff in H3 as [Hlo Hin]. apply negb_true_iff in Hlo.
      split; [lia|]. split; [congruence|].
      split; intros; by destruct (inner e).
    - by intros rq ?%elem_of_nil. }
  unfold init. destruct (negb _); by apply (wf_frame fresh (new d fresh)).
Qed.


Lemma retry_nothing label st : rendered st = [] -> retry label st = st.
Proof.
  intros Hr. unfold retry.
  destruct (find_entry label (doc st)) as [en|] eqn:E; [|done].
  destruct (inner (e_elem en)) as [w|] eqn:Ew; [|done].
  assert (H : (eid (e_elem en), w) ∈ rendered st).
  { apply elem_of_rendered. exists (e_elem en).
    split; [by apply (find_entry_elements label)|done]. }
  rewrite Hr in H. by apply elem_of_nil in H.
Qed.



Lemma frame_cache_hit r st url title cached :
  link_url r st = Some url -> title_text r st = Some title ->
  cache st !! url = Some cached ->
  frame st (fst (processSearchResult r st)).
Proof.
  intros Hl Ht Hc. rewrite (processSearchResult_reads r st url title) by done.
  rewrite Hc.
  eapply frame_trans; [|apply frame_settle].
  eapply frame_trans; [|apply frame_displayLabel]. apply frame_set_doc.
Qed.

Lemma cache_hit r st url title cached :
  link_url r st = Some url -> title_text r st = Some title ->
  cache st !! url = Some cached ->
  processSearchResult r st =
    settle r (displayLabel r cached url (set_doc (set_attr r mark "true" (doc st)) st)) /\
  requests (snd (processSearchResult r st)) = [] /\
  inflight (launch r st) = inflight st /\
  cache (launch r st) = cache st.
Proof.
  intros Hl Ht Hc.
  pose proof (frame_cache_hit r st url title cached Hl Ht Hc) as (Fc & _ & Fi & _).
  pose proof (processSearchResult_reads r st url title Hl Ht) as E.
  cbv zeta in E. rewrite Hc in E. split; [done|].
  assert (N : forall rq, snd (processSearchResult r st) <> Pending rq).
  { intros rq. rewrite E. apply settle_not_pending. }
  unfold launch. destruct (processSearchResult r st) as [st' [|e|rq]]; cbn [fst snd] in *;
    try done.
  by destruct (N rq).
Qed.

End ExtFacts.

(** ** The script at work on the sample pages *)

Module Scenarios.
Import JS DOM Ext Samples.

(** A scan of the results page marks the hit, shows the loading
    indicator inside it and suspends at one fetch. *)
Example scan_starts_one_analysis :
  let st := run (started results_page) [TimerFires] in
  inflight st = [request_for 1 example_url "Example"] /\
  processing 1 st = true /\ rendered st = [(100, Spinner)].
Proof. vm_compute. repeat split. Qed.

(** When the title sits inside the link and a snippet follows, the
    indicator is inside the result and the [finally] block removes it. *)
Example indicator_inside_the_result_is_removed :
  rendered analysed_state
  = [(102, Verdict true (Some (int 87)) (Str "ok") (Str "X") scenario_data example_url)] /\
  processing 1 analysed_state = false /\
  shouldProcessResult 1 analysed_state = false.
Proof. vm_compute. repeat split. Qed.

(** A server error ends in the error label. *)
Example http_500_shows_the_error_label :
  let st := run (started results_page) [TimerFires; FetchSettles 0 (Response 500 (inl "x"))] in
  rendered st = [(102, ErrorLabel 1 example_url)] /\ cache st = ∅ /\ inflight st = [].
Proof. vm_compute. repeat split. Qed.

(** A label that is not text makes [toLowerCase] throw; the [catch]
    block then throws on [url], which is out of its scope: the promise is
    rejected and the page shows no label at all, yet the [finally] block
    has run. *)
Example label_that_is_not_text :
  let st0 := run (started results_page) [TimerFires] in
  let rq := request_for 1 example_url "Example" in
  let out := resume rq (success (data (Num (int 1)) (Num (int 50)))) st0 in
  snd out = Rejected (ReferenceError "url") /\
  rendered (fst out) = [] /\ processing 1 (fst out) = false.
Proof. vm_compute. repeat split. Qed.

(** An analysis that was suspended at its fetch when the extension was
    switched off still renders its label when the fetch settles: the
    script cancels nothing. *)
Example analysis_in_flight_survives_switching_off :
  let st := run (started results_page)
                [TimerFires; Message (SETTINGS_UPDATED switched_off);
                 FetchSettles 0 (success scenario_data)] in
  enabled (settings st) = false /\
  rendered st
  = [(102, Verdict true (Some (int 87)) (Str "ok") (Str "X") scenario_data example_url)].
Proof. vm_compute. repeat split. Qed.

(** A second hit with the same URL is served from the cache. *)
Example same_url_is_served_from_the_cache :
  let st := set_doc results_page analysed_state in
  let out := processSearchResult 1 st in
  requests (snd out) = [] /\
  rendered (fst out)
  = [(104, Verdict true (Some (int 87)) (Str "ok") (Str "X") scenario_data example_url)].
Proof. vm_compute. repeat split. Qed.

End Scenarios.

(** ** The normalization against what the specification says *)

Module NormalizationFacts.
Import JS DOM Ext Notions.

Lemma every_character (a : ascii) : In a (map ascii_of_nat (seq 0 256)).
Proof.
  rewrite <- (ascii_nat_embedding a). apply in_map, in_seq.
  pose proof (nat_ascii_bounded a). lia.
Qed.

Lemma same_letter_table :
  forallb (fun a =>
             forallb (fun b =>
                        Bool.eqb (same_letter a b)
                                 (Ascii.eqb (lower_ascii a) (lower_ascii b)))
                     (map ascii_of_nat (seq 0 256)))
          (map ascii_of_nat (seq 0 256)) = true.
Proof. vm_compute. reflexivity. Qed.

Lemma same_letter_lower a b :
  same_letter a b = Ascii.eqb (lower_ascii a) (lower_ascii b).
Proof.
  pose proof same_letter_table as T. rewrite forallb_forall in T.
  specialize (T a (every_character a)). rewrite forallb_forall in T.
  specialize (T b (every_character b)). by apply Bool.eqb_prop in T.
Qed.

Lemma caseless_lower s t : caseless s t = String.eqb (toLowerCase s) (toLowerCase t).
Proof.
  revert t. induction s as [|a s IH]; intros [|b t]; cbn [caseless toLowerCase]; try done.
  cbn [String.eqb]. rewrite same_letter_lower, IH.
  by destruct (Ascii.eqb (lower_ascii a) (lower_ascii b)).
Qed.

Lemma category_isTrustworthy s : isTrustworthy_of s = trustworthy_category s.
Proof. unfold isTrustworthy_of, trustworthy_category. by rewrite !caseless_lower. Qed.

Lemma or_text_field p o : p <> "" -> or (text_field o) (Str p) = Str (text_or p o).
Proof.
  intros Hp. destruct o as [t|]; [|done]. unfold or. cbn [text_field truthy text_or].
  by destruct (String.eqb t "").
Qed.

Lemma confidence_nearest fs c :
  assoc "confidence" fs = number_field c ->
  exists z, confidence_of (Obj fs) = Some (int z) /\
            nearest z (match c with Some q => q | None => 0%Q end).
Proof.
  intros Hc. unfold confidence_of, or. cbn [field]. rewrite Hc.
  destruct c as [q|]; cbn [number_field truthy].
  - destruct (Qeq_bool q 0) eqn:E; cbn [negb].
    + exists 0%Z. split; [done|]. apply Qeq_bool_iff in E. unfold nearest.
      rewrite E. by split.
    + destruct (JSFacts.round_nearest q) as (z & Hz & Hb). exists z.
      split; [|done]. unfold Math_round. cbn [ToNumber fmap option_fmap option_map].
      by rewrite Hz.
  - exists 0%Z. split; [done|]. by split.
Qed.

End NormalizationFacts.

(** ** The claims *)

Module Claims.
Import JS DOM Ext DOMFacts ExtFacts Samples.



(** C2. The label is compared with "trustworthy" and "real" whatever
    the case of its letters.  A numeric confidence is rounded to the
    nearest integer (the upper one at a tie).  For a successful response
    whose data has a non-empty label text, a confidence that is a number
    or is missing, and a summary and a model that are texts or are
    missing, the analysis ends normally with a verdict on the page that
    shows that category, the integer nearest to the confidence (0 when
    it is missing), and the summary and the model, each replaced by its
    placeholder, "No summary available" and "BART/LLaMA", when it is
    missing or empty.  For the response of the scenario the page shows
    exactly one label: trustworthy, 87, "ok", "X". *)
Theorem C2_label_normalization :
  (forall s, isTrustworthy_of s = Notions.trustworthy_category s) /\
  (forall a q, field a "confidence" = Num (Finite q) ->
     exists z, confidence_of a = Some (int z) /\ Notions.nearest z q) /\
  (forall rq o st fs s confidence summary model,
     truthy (analyzeUrlExtension o) = true ->
     truthy (field (analyzeUrlExtension o) "success") = true ->
     field (analyzeUrlExtension o) "data" = Obj fs ->
     assoc "label" fs = Str s -> s <> "" ->
     assoc "confidence" fs = Notions.number_field confidence ->
     assoc "summary" fs = Notions.text_field summary ->
     assoc "model" fs = Notions.text_field model ->
     tidy st -> page_element (rq_result rq) st ->
     is_Some (find_entry (rq_result rq) (doc st)) ->
     snd (resume rq o st) = Fulfilled /\
     exists z,
       Notions.nearest z (match confidence with Some q => q | None => 0%Q end) /\
       (next_id st,
        Verdict (Notions.trustworthy_category s) (Some (int z))
                (Str (Notions.text_or "No summary available" summary))
                (Str (Notions.text_or "BART/LLaMA" model))
                (Obj fs) (rq_url rq))
         ∈ rendered (fst (resume rq o st))) /\
  rendered (run (started results_page) [TimerFires; FetchSettles 0 (success scenario_data)])
  = [(102, Verdict true (Some (int 87)) (Str "ok") (Str "X") scenario_data example_url)].
Proof.
  split; [|split; [|split]].
  - apply NormalizationFacts.category_isTrustworthy.
  - intros a q Hq. destruct a as [| | | | | |fs]; try discriminate Hq.
    by apply (NormalizationFacts.confidence_nearest fs (Some q)).
  - intros rq o st fs s confidence summary model Ha Hs Hd Hl Hne Hc Hsum Hmod Ht Hp Hat.
    destruct (resume_renders_verdict rq o st fs s Ha Hs Hd Hl Hne Ht Hp Hat) as [F R].
    split; [done|].
    destruct (NormalizationFacts.confidence_nearest fs confidence Hc) as (z & Hz & Hn).
    exists z. split; [done|].
    rewrite <- NormalizationFacts.category_isTrustworthy, <- Hz.
    rewrite <- !NormalizationFacts.or_text_field by done.
    by rewrite <- Hsum, <- Hmod.
  - vm_compute. reflexivity.
Qed.

Lemma C2_witness :
  let st := run (started results_page) [TimerFires] in
  let rq := request_for 1 example_url "Example" in
  let fs := [("label", Str "TrustWorthy"); ("confidence", Num (Finite (3 # 2)%Q));
             ("model", Str "")] in
  let o := success (Obj fs) in
  (exists z, confidence_of scenario_data = Some (int z) /\ Notions.nearest z (874 # 10)%Q) /\
  Notions.trustworthy_category "TrustWorthy" = true /\
  tidy st /\ page_element 1 st /\
  snd (resume rq o st) = Fulfilled /\
  exists z,
    Notions.nearest z (3 # 2)%Q /\
    (next_id st,
     Verdict true (Some (int z)) (Str "No summary available") (Str "BART/LLaMA")
             (Obj fs) example_url)
      ∈ rendered (fst (resume rq o st)).
Proof.
  cbv zeta.
  assert (T : tidy (run (started results_page) [TimerFires]))
    by (apply tidyb_sound; vm_compute; reflexivity).
  assert (P : page_element 1 (run (started results_page) [TimerFires]))
    by (apply page_elementb_sound; vm_compute; reflexivity).
  split; [apply (proj1 (proj2 C2_label_normalization) scenario_data); reflexivity|].
  split; [reflexivity|]. split; [exact T|]. split; [exact P|].
  apply (proj1 (proj2 (proj2 C2_label_normalization))
           (request_for 1 example_url "Example")
           (success (Obj [("label", Str "TrustWorthy");
                          ("confidence", Num (Finite (3 # 2)%Q)); ("model", Str "")]))
           (run (started results_page) [TimerFires])
           [("label", Str "TrustWorthy"); ("confidence", Num (Finite (3 # 2)%Q));
            ("model", Str "")]
           "TrustWorthy" (Some (3 # 2)%Q) None (Some ""));
    try reflexivity; done.
Defined.

(** C3, as stated, fails: a confidence of 150 is rounded and rendered as
    150; nothing clamps it. *)
Lemma C3_counterexample :
  ~ normalized_in_range (data (Str "Real") (Num (int 150))).
Proof.
  intros (z & H & Hz). vm_compute in H. injection H as <-. lia.
Qed.

(** C3, amended.  When the confidence of the response is a number
    between 0 and 100, or is absent, the normalized confidence is an
    integer between 0 and 100. *)
Theorem C3_confidence_in_range (analysis : value) :
  confidence_input_in_range (field analysis "confidence") ->
  normalized_in_range analysis.
Proof.
  unfold confidence_input_in_range, normalized_in_range, confidence_of, or.
  destruct (field analysis "confidence") as [| |b|[|s|q]|s|l|fs]; cbn [truthy];
    try (intros ->); try (intros [=]); try (exists 0%Z; split; [done|lia]).
  intros [H0 H100]. destruct (Qeq_bool q 0) eqn:E; cbn [negb].
  { exists 0%Z. split; [done|lia]. }
  exists (Qfloor (q + (1 # 2))). split; [done|]. split.
  - change 0%Z with (Qfloor (0 + (1 # 2))). apply Qfloor_resp_le.
    by apply Qplus_le_l.
  - change 100%Z with (Qfloor (100 + (1 # 2))). apply Qfloor_resp_le.
    by apply Qplus_le_l.
Qed.

Lemma C3_witness :
  confidence_input_in_range (field scenario_data "confidence") /\
  normalized_in_range scenario_data.
Proof.
  assert (H : confidence_input_in_range (field scenario_data "confidence")).
  { split; vm_compute; discriminate. }
  split; [exact H | exact (C3_confidence_in_range scenario_data H)].
Defined.

(** C4, as stated, fails: a label the script does not know ("banana")
    is not a failure; the page shows an untrustworthy verdict for it and
    no error label. *)
Lemma C4_counterexample :
  ~ failure_outcome 1
      (run (started results_page)
           [TimerFires; FetchSettles 0 (success (data (Str "banana") (Num (int 50))))]).
Proof.
  intros [_ H].
  specialize (H 102 (Verdict false (Some (int 50)) (Str "ok") (Str "X")
                             (data (Str "banana") (Num (int 50))) example_url)).
  assert (V : is_verdict (Verdict false (Some (int 50)) (Str "ok") (Str "X")
                            (data (Str "banana") (Num (int 50))) example_url) = false).
  { apply H. vm_compute. apply list_elem_of_here. }
  discriminate V.
Qed.

(** C4, amended.  When the data of the response has no label field, or
    a falsy one (the empty text, null), the analysis ends without
    throwing, no verdict is added to the page, and the error label with
    its retry button is on the page when the analysis has ended (for a
    page element that is in the document, in a tidy state). *)
Theorem C4_missing_label_is_a_failure (rq : request) (o : fetch_outcome) (st : State) :
  truthy (field (field (analyzeUrlExtension o) "data") "label") = false ->
  snd (resume rq o st) = Fulfilled /\
  (tidy st -> page_element (rq_result rq) st ->
   is_Some (find_entry (rq_result rq) (doc st)) ->
   (next_id st, ErrorLabel (rq_result rq) (rq_url rq)) ∈ rendered (fst (resume rq o st))) /\
  (forall i w, (i, w) ∈ rendered (fst (resume rq o st)) ->
               is_verdict w = true -> (i, w) ∈ rendered st).
Proof.
  intros Hl. destruct (resume_without_label rq o st Hl) as (st1 & Hd & Hn & E).
  rewrite E. cbn [fst snd]. split; [done|]. split.
  - intros Ht Hr Hat. rewrite <- Hn. apply displayErrorLabel_stays.
    + destruct Ht as (T1 & T2 & T3). unfold tidy. by rewrite Hd, Hn.
    + intros e. rewrite Hd. apply Hr.
    + by rewrite Hd.
  - intros i w Hw Hv. apply rendered_cleanup in Hw.
    apply rendered_displayErrorLabel in Hw as [Hw|[_ ->]]; [|done].
    apply elem_of_rendered in Hw as (e & He & Hi & Hw).
    apply elem_of_rendered. exists e. by rewrite <- Hd.
Qed.

Lemma C4_witness :
  let st := run (started results_page) [TimerFires] in
  let rq := request_for 1 example_url "Example" in
  let o := success (Obj [("confidence", Num (int 50))]) in
  truthy (field (field (analyzeUrlExtension o) "data") "label") = false /\
  tidy st /\ page_element 1 st /\
  snd (resume rq o st) = Fulfilled /\
  (next_id st, ErrorLabel 1 example_url) ∈ rendered (fst (resume rq o st)).
Proof.
  cbv zeta.
  assert (T : tidy (run (started results_page) [TimerFires]))
    by (apply tidyb_sound; vm_compute; reflexivity).
  assert (P : page_element 1 (run (started results_page) [TimerFires]))
    by (apply page_elementb_sound; vm_compute; reflexivity).
  assert (L : truthy (field (field (analyzeUrlExtension
                 (success (Obj [("confidence", Num (int 50))]))) "data") "label") = false)
    by reflexivity.
  split; [exact L|]. split; [exact T|]. split; [exact P|].
  destruct (C4_missing_label_is_a_failure (request_for 1 example_url "Example")
              (success (Obj [("confidence", Num (int 50))]))
              (run (started results_page) [TimerFires]) L) as (H1 & H2 & _).
  split; [exact H1|]. apply (H2 T P). vm_compute. eexists. reflexivity.
Defined.

(** C5: the code contradicts the claim.  A successful response whose
    data has no label is written to the cache before [displayLabel]
    rejects it: the page shows the error label, the cache holds the
    entry, and a click on Retry is answered from the cache, with the
    error label again and no request. *)
Theorem C5_unlabelled_data_is_cached :
  let unlabelled := Obj [("confidence", Num (int 5))] in
  let st := run (started results_page) [TimerFires; FetchSettles 0 (success unlabelled)] in
  cacheResults (settings st) = true /\
  cache st !! example_url = Some unlabelled /\
  rendered st = [(102, ErrorLabel 1 example_url)] /\
  let st' := run st [RetryClick 102] in
  inflight st' = [] /\ rendered st' = [(104, ErrorLabel 1 example_url)].
Proof. vm_compute. repeat split. Qed.

(** C6, as stated, fails: an element with a link and no title is
    eligible. *)
Lemma C6_counterexample :
  ~ (title_text 1 (started untitled_page) = None ->
     shouldProcessResult 1 (started untitled_page) = false).
Proof. intros H. specialize (H eq_refl). vm_compute in H. discriminate H. Qed.

(** C6, amended.  The predicate is a function of the state, which it
    only reads.  It is true exactly when the element contains no label,
    is not marked as processing, and has a link whose URL neither
    contains the text google.com nor starts with javascript: ; whether
    the element has a title plays no part. *)
Theorem C6_eligibility (r : nat) (st : State) :
  shouldProcessResult r st =
  negb (labelled r st) && negb (processing r st) &&
  match link_url r st with
  | Some url => negb (includes url "google.com") && negb (startsWith url "javascript:")
  | None => false
  end.
Proof. apply shouldProcessResult_eq. Qed.

(** C7: the code contradicts the claim.  On a result whose title is a
    child of the result element and that has no snippet, [insertLabel]
    puts the loading indicator after the result element, outside it,
    where [removeLoadingIndicator] does not look: when the analysis has
    ended the mark is cleared and the indicator is still on the page. *)
Theorem C7_indicator_outside_the_result_stays :
  let st := run (started flat_page) [TimerFires; FetchSettles 0 (success scenario_data)] in
  inflight st = [] /\ processing 1 st = false /\
  (100, Spinner) ∈ rendered st.
Proof.
  vm_compute. split; [reflexivity|]. split; [reflexivity|].
  apply list_elem_of_further, list_elem_of_here.
Qed.

(** C8. Handling CLEAR_CACHE empties the cache, leaves no label and no
    loading indicator in the document and no element with a processing
    mark, so no element counts as labelled or as being processed; an
    analysis then started on an element with a link and a title issues
    exactly one request, for that URL, and its continuation issues no
    other. *)
Theorem C8_clear_cache_resets_the_page (st : State) :
  let st' := handleMessage CLEAR_CACHE st in
  cache st' = ∅ /\
  querySelectorAll label_or_loading (doc st') = [] /\
  querySelectorAll (HasAttr mark) (doc st') = [] /\
  (forall r, labelled r st' = false /\ processing r st' = false) /\
  (forall r url title,
     link_url r st' = Some url -> title_text r st' = Some title ->
     requests (snd (processSearchResult r st')) = [request_for r url title] /\
     forall o st'', requests (snd (resume (request_for r url title) o st'')) = []).
Proof.
  cbv zeta.
  assert (Hd : doc (handleMessage CLEAR_CACHE st) = doc (removeAllLabels (set_cache ∅ st))).
  { cbn [handleMessage]. by destruct (enabled _). }
  assert (Hc : cache (handleMessage CLEAR_CACHE st) = ∅).
  { cbn [handleMessage]. by destruct (enabled _). }
  destruct (removeAllLabels_bare (set_cache ∅ st)) as [Hl Hm].
  rewrite Hd. split; [done|]. split; [done|]. split; [done|]. split.
  - intros r. apply bare_unseen. rewrite Hd. by split.
  - intros r url title Hu Ht. split.
    + rewrite (processSearchResult_reads _ _ url title) by done.
      by rewrite Hc, lookup_empty.
    + intros o st''.
      destruct (snd (resume (request_for r url title) o st'')) as [| |rq] eqn:E;
        [done..|].
      by destruct (resume_not_pending (request_for r url title) o st'' rq).
Qed.

Lemma C8_witness :
  let st' := handleMessage CLEAR_CACHE analysed_state in
  cache analysed_state !! example_url = Some scenario_data /\
  link_url 1 st' = Some example_url /\ title_text 1 st' = Some "Example" /\
  requests (snd (processSearchResult 1 st')) = [request_for 1 example_url "Example"].
Proof.
  cbv zeta.
  assert (Hu : link_url 1 (handleMessage CLEAR_CACHE analysed_state) = Some example_url)
    by (vm_compute; reflexivity).
  assert (Ht : title_text 1 (handleMessage CLEAR_CACHE analysed_state) = Some "Example")
    by (vm_compute; reflexivity).
  split; [vm_compute; reflexivity|]. split; [exact Hu|]. split; [exact Ht|].
  exact (proj1 (proj2 (proj2 (proj2 (proj2
           (C8_clear_cache_resets_the_page analysed_state)))) 1 example_url "Example"
           Hu Ht)).
Defined.




(** C10. With cacheResults false a URL that is in the cache is still
    served from it: no request is issued and, when the cached analysis
    has a non-empty label text, a confidence that is a number or is
    missing and a summary and a model that are texts or are missing, its
    verdict is on the page at the end; no analysis that ends in that
    state writes to the cache; and no settings update removes an
    entry. *)
Theorem C10_cacheResults_gates_writes_only (st : State) (r : nat) (url title : string)
        (cached : value) :
  cacheResults (settings st) = false ->
  link_url r st = Some url ->
  title_text r st = Some title ->
  cache st !! url = Some cached ->
  (processSearchResult r st =
     settle r (displayLabel r cached url (set_doc (set_attr r mark "true" (doc st)) st)) /\
   requests (snd (processSearchResult r st)) = []) /\
  (forall fs s confidence summary model,
     cached = Obj fs -> assoc "label" fs = Str s -> s <> "" ->
     assoc "confidence" fs = Notions.number_field confidence ->
     assoc "summary" fs = Notions.text_field summary ->
     assoc "model" fs = Notions.text_field model ->
     tidy st -> page_element r st ->
     inflight (launch r st) = inflight st /\
     exists z,
       Notions.nearest z (match confidence with Some q => q | None => 0%Q end) /\
       (next_id st,
        Verdict (Notions.trustworthy_category s) (Some (int z))
                (Str (Notions.text_or "No summary available" summary))
                (Str (Notions.text_or "BART/LLaMA" model))
                cached url)
         ∈ rendered (launch r st)) /\
  (forall rq o, cache (fst (resume rq o st)) = cache st) /\
  (forall s, cache (handleMessage (SETTINGS_UPDATED s) st) = cache st).
Proof.
  intros Hoff Hl Ht Hc.
  destruct (cache_hit r st url title cached Hl Ht Hc) as (H1 & H2 & H3 & _).
  split; [done|]. split; [|split].
  - intros fs s confidence summary model -> Hlab Hs Hcon Hsum Hmod Hty Hp.
    split; [done|].
    pose proof (cache_hit_renders_verdict r st url title fs s Hl Ht Hc Hlab Hs Hty Hp) as K.
    destruct (NormalizationFacts.confidence_nearest fs confidence Hcon) as (z & Hz & Hn).
    exists z. split; [done|].
    rewrite <- NormalizationFacts.category_isTrustworthy, <- Hz.
    rewrite <- !NormalizationFacts.or_text_field by done.
    rewrite <- Hsum, <- Hmod.
    unfold launch. destruct (processSearchResult r st) as [st' [|e|rq]]; done.
  - intros rq o. rewrite resume_cache. cbv zeta. by rewrite Hoff, andb_false_r.
  - intros s. cbn [handleMessage]. by destruct (negb _).
Qed.

Lemma C10_witness :
  let st := set_settings not_caching (cached_state results_page) in
  cacheResults (settings st) = false /\
  tidy st /\ page_element 1 st /\
  ((processSearchResult 1 st =
      settle 1 (displayLabel 1 scenario_data example_url
                  (set_doc (set_attr 1 mark "true" (doc st)) st)) /\
    requests (snd (processSearchResult 1 st)) = []) /\
   (forall rq o, cache (fst (resume rq o st)) = cache st) /\
   (forall s, cache (handleMessage (SETTINGS_UPDATED s) st) = cache st)) /\
  inflight (launch 1 st) = inflight st /\
  rendered (launch 1 st)
  = [(100, Verdict true (Some (int 87)) (Str "ok") (Str "X") scenario_data example_url)].
Proof.
  cbv zeta.
  destruct (C10_cacheResults_gates_writes_only
              (set_settings not_caching (cached_state results_page)) 1 example_url
              "Example" scenario_data) as (H1 & H2 & H3 & H4);
    [vm_compute; reflexivity..|].
  assert (T : tidy (set_settings not_caching (cached_state results_page)))
    by (apply tidyb_sound; vm_compute; reflexivity).
  assert (P : page_element 1 (set_settings not_caching (cached_state results_page)))
    by (apply page_elementb_sound; vm_compute; reflexivity).
  split; [reflexivity|]. split; [exact T|]. split; [exact P|].
  split; [exact (conj H1 (conj H3 H4))|].
  split; [|vm_compute; reflexivity].
  exact (proj1 (H2 _ "Real" (Some (874 # 10)%Q) (Some "ok") (Some "X")
                  eq_refl eq_refl ltac:(discriminate) eq_refl eq_refl eq_refl T P)).
Defined.

End Claims.

(** ** Facts about runs of the content script *)

Module LoopFacts.
Import JS DOM Ext Notions DOMFacts ExtFacts.

Lemma set_doc_id st : set_doc (doc st) st = st.
Proof. by destruct st. Qed.

Lemma frame_processSearchResult r st : frame st (fst (processSearchResult r st)).
Proof.
  unfold processSearchResult. cbv zeta.
  set (st1 := set_doc (set_attr r mark "true" (doc st)) st).
  assert (F1 : frame st st1) by apply frame_set_doc.
  destruct (find_entry r (doc st1)) as [result|];
    [|exact (frame_trans _ _ _ F1 (frame_settle r (st1, Normal)))].
  destruct (querySelector link_selector result) as [linkElement|];
    [|exact (frame_trans _ _ _ F1 (frame_settle r (st1, Normal)))].
  destruct (find_title result) as [titleElement|];
    [|exact (frame_trans _ _ _ F1 (frame_settle r (st1, Normal)))].
  destruct (cache st1 !! href linkElement) as [cached|].
  - eapply frame_trans; [exact F1|].
    eapply frame_trans; [apply (frame_displayLabel r cached (href linkElement) st1)|].
    apply frame_settle.
  - cbn [fst]. eapply frame_trans; [exact F1|]. apply frame_addLoadingIndicator.
Qed.

Lemma processSearchResult_pending r st rq :
  snd (processSearchResult r st) = Pending rq -> rq_result rq = r /\ to_endpoint rq.
Proof.
  unfold processSearchResult. cbv zeta.
  set (st1 := set_doc (set_attr r mark "true" (doc st)) st).
  destruct (find_entry r (doc st1)) as [result|];
    [|by intros H%settle_not_pending].
  destruct (querySelector link_selector result) as [linkElement|];
    [|by intros H%settle_not_pending].
  destruct (find_title result) as [titleElement|];
    [|by intros H%settle_not_pending].
  destruct (cache st1 !! href linkElement) as [cached|];
    [by intros H%settle_not_pending|].
  cbn [snd]. intros [= <-]. by split.
Qed.

Lemma launch_frame r st :
  cache (launch r st) = cache st /\ settings (launch r st) = settings st /\
  timers (launch r st) = timers st /\ listening (launch r st) = listening st /\
  inflight (launch r st) = inflight st ++ requests (snd (processSearchResult r st)).
Proof.
  pose proof (frame_processSearchResult r st) as (F1 & F2 & F3 & F4 & F5).
  unfold launch. destruct (processSearchResult r st) as [st' [|e|rq]]; cbn [fst snd] in *;
    cbn [requests set_inflight cache settings timers listening inflight];
    rewrite ?app_nil_r, ?F3; done.
Qed.

Lemma scan_frame l st :
  cache (scan l st) = cache st /\ settings (scan l st) = settings st /\
  timers (scan l st) = timers st /\ listening (scan l st) = listening st /\
  exists new,
    inflight (scan l st) = inflight st ++ new /\ length new <= length l /\
    Forall (fun rq => to_endpoint rq /\
                      rq_result rq ∈ (fun en => eid (e_elem en)) <$> l) new.
Proof.
  revert st. induction l as [|en l IH]; intros st.
  { repeat (split; [done|]). exists []. by rewrite app_nil_r. }
  change (scan (en :: l) st)
    with (scan l (if shouldProcessResult (eid (e_elem en)) st
                  then launch (eid (e_elem en)) st else st)).
  destruct (shouldProcessResult (eid (e_elem en)) st).
  - destruct (IH (launch (eid (e_elem en)) st)) as (C & S & T & L & new & I & N & F).
    destruct (launch_frame (eid (e_elem en)) st) as (C' & S' & T' & L' & I').
    rewrite C, S, T, L, C', S', T', L'. repeat (split; [done|]).
    exists (requests (snd (processSearchResult (eid (e_elem en)) st)) ++ new).
    rewrite I, I', app_assoc. split; [done|]. split.
    + rewrite length_app. cbn [length].
      destruct (snd (processSearchResult (eid (e_elem en)) st)); cbn; lia.
    + apply Forall_app. split.
      * destruct (snd (processSearchResult (eid (e_elem en)) st)) as [| |rq] eqn:E;
          cbn [requests]; [done..|].
        apply processSearchResult_pending in E as [E1 E2]. constructor; [|done].
        split; [done|]. rewrite E1, fmap_cons. apply list_elem_of_here.
      * eapply Forall_impl; [exact F|]. intros rq [? ?]. split; [done|].
        rewrite fmap_cons. by apply list_elem_of_further.
  - destruct (IH st) as (C & S & T & L & new & I & N & F).
    repeat (split; [done|]). exists new. split; [done|]. split; [cbn [length]; lia|].
    eapply Forall_impl; [exact F|]. intros rq [? ?]. split; [done|].
    rewrite fmap_cons. by apply list_elem_of_further.
Qed.

Lemma processSearchResults_scan st :
  processSearchResults st =
  if enabled (settings st) then scan (querySelectorAll (HasAttr "data-ved") (doc st)) st
  else st.
Proof. unfold processSearchResults, scan. by destruct (enabled (settings st)). Qed.


Lemma resume_frame rq o st :
  settings (fst (resume rq o st)) = settings st /\
  timers (fst (resume rq o st)) = timers st /\
  listening (fst (resume rq o st)) = listening st /\
  inflight (fst (resume rq o st)) = inflight st.
Proof.
  unfold resume. cbv zeta.
  set (a := analyzeUrlExtension o).
  destruct (truthy a && truthy (field a "success") && truthy (field a "data")).
  - set (st' := if cacheResults (settings st) then _ else st).
    assert (E : settings st' = settings st /\ timers st' = timers st /\
                listening st' = listening st /\ inflight st' = inflight st).
    { subst st'. by destruct (cacheResults (settings st)). }
    destruct E as (E1 & E2 & E3 & E4).
    pose proof (frame_trans _ _ _
                  (frame_displayLabel (rq_result rq) (field a "data") (rq_url rq) st')
                  (frame_settle (rq_result rq) _)) as (_ & F2 & F3 & F4 & F5).
    by rewrite F2, F3, F4, F5.
  - pose proof (frame_trans _ _ _
                  (frame_displayErrorLabel (rq_result rq) (rq_url rq) st)
                  (frame_settle (rq_result rq)
                     (displayErrorLabel (rq_result rq) (rq_url rq) st, Normal)))
      as (_ & F2 & F3 & F4 & F5).
    done.
Qed.

Lemma retry_frame label st :
  cache (retry label st) = cache st /\ settings (retry label st) = settings st /\
  timers (retry label st) = timers st /\ listening (retry label st) = listening st /\
  exists new, inflight (retry label st) = inflight st ++ new /\ length new <= 1 /\
              Forall to_endpoint new.
Proof.
  assert (Same : cache st = cache st /\ settings st = settings st /\
                 timers st = timers st /\ listening st = listening st /\
                 exists new, inflight st = inflight st ++ new /\ length new <= 1 /\
                             Forall to_endpoint new).
  { repeat (split; [done|]). exists []. rewrite app_nil_r.
    split; [done|]. split; [cbn; lia|done]. }
  unfold retry. destruct (find_entry label (doc st)) as [en|]; [|done].
  destruct (inner (e_elem en)) as [[| |result url]|]; [done..| |done].
  cbv zeta.
  set (st1 := set_doc _ (set_doc _ st)).
  destruct (launch_frame result st1) as (C & S & T & L & I).
  rewrite C, S, T, L, I. repeat (split; [done|]).
  exists (requests (snd (processSearchResult result st1))). split; [done|].
  destruct (snd (processSearchResult result st1)) as [| |rq] eqn:E; cbn [requests length];
    [split; [lia|done]..|].
  split; [lia|]. constructor; [|done]. by apply processSearchResult_pending in E as [_ E].
Qed.

Lemma handleMessage_frame m st :
  inflight (handleMessage m st) = inflight st /\
  listening (handleMessage m st) = listening st /\
  cache (handleMessage m st) = if clears (Message m) then ∅ else cache st.
Proof.
  destruct m as [s| |t]; cbn [handleMessage clears].
  - cbv zeta. destruct (negb (enabled (settings (set_settings s st)))); [|done].
    by destruct (frame_removeAllLabels (set_settings s st)) as (F1 & F2 & F3 & F4 & F5).
  - cbv zeta.
    destruct (frame_removeAllLabels (set_cache ∅ st)) as (F1 & F2 & F3 & F4 & F5).
    destruct (enabled (settings (removeAllLabels (set_cache ∅ st))));
      cbn [waitForSearchResults set_timers inflight listening cache]; by rewrite ?F1, ?F3, ?F5.
  - done.
Qed.

Lemma step_endpoint st ev :
  Forall to_endpoint (inflight st) -> Forall to_endpoint (inflight (step st ev)).
Proof.
  intros H. destruct ev as [m| | |i o|label]; cbn [step].
  - destruct (listening st); [|done]. by rewrite (proj1 (handleMessage_frame m st)).
  - destruct (timers st) as [|n]; [done|]. rewrite processSearchResults_scan.
    destruct (enabled _); [|done].
    destruct (scan_frame (querySelectorAll (HasAttr "data-ved") (doc (set_timers n st)))
                (set_timers n st)) as (_ & _ & _ & _ & new & I & _ & F).
    rewrite I. apply Forall_app. split; [done|].
    eapply Forall_impl; [exact F|]. by intros rq [? _].
  - by destruct (listening st && enabled (settings st)).
  - destruct (inflight st !! i) as [rq|] eqn:E; [|done].
    destruct (resume_frame rq o (set_inflight (delete i (inflight st)) st))
      as (_ & _ & _ & I).
    rewrite I. cbn [set_inflight inflight]. by apply Forall_delete.
  - destruct (retry_frame label st) as (_ & _ & _ & _ & new & I & _ & F).
    rewrite I. by apply Forall_app.
Qed.

Lemma run_endpoint evs st :
  Forall to_endpoint (inflight st) -> Forall to_endpoint (inflight (run st evs)).
Proof.
  revert st. induction evs as [|ev evs IH]; intros st H; [done|].
  apply (IH (step st ev)). by apply step_endpoint.
Qed.

Lemma step_cache st ev k :
  clears ev = false -> is_Some (cache st !! k) -> is_Some (cache (step st ev) !! k).
Proof.
  intros Hc H. destruct ev as [m| | |i o|label]; cbn [step].
  - destruct (listening st); [|done].
    destruct (handleMessage_frame m st) as (_ & _ & C). by rewrite C, Hc.
  - destruct (timers st) as [|n]; [done|]. rewrite processSearchResults_scan.
    destruct (enabled _); [|done].
    by rewrite (proj1 (scan_frame _ (set_timers n st))).
  - by destruct (listening st && enabled (settings st)).
  - destruct (inflight st !! i) as [rq|]; [|done].
    rewrite resume_cache. cbv zeta. cbn [set_inflight cache settings].
    destruct (_ && _); [|done]. apply lookup_insert_is_Some'. by right.
  - by rewrite (proj1 (retry_frame label st)).
Qed.

Lemma run_cache evs st k :
  Forall (fun ev => clears ev = false) evs ->
  is_Some (cache st !! k) -> is_Some (cache (run st evs) !! k).
Proof.
  revert st. induction evs as [|ev evs IH]; intros st Hevs H; [done|].
  apply Forall_cons in Hevs as [Hev Hevs].
  apply (IH (step st ev)); [done|]. by apply step_cache.
Qed.

Lemma step_timer st : timers (step st TimerFires) = pred (timers st).
Proof.
  cbn [step]. destruct (timers st) as [|n] eqn:E; [by rewrite E|].
  rewrite processSearchResults_scan. destruct (enabled _); [|done].
  by rewrite (proj1 (proj2 (proj2 (scan_frame _ (set_timers n st))))).
Qed.

Lemma step_timer_others st :
  listening (step st TimerFires) = listening st /\
  settings (step st TimerFires) = settings st.
Proof.
  cbn [step]. destruct (timers st) as [|n]; [done|].
  rewrite processSearchResults_scan. destruct (enabled _) eqn:E; [|done].
  destruct (scan_frame (querySelectorAll (HasAttr "data-ved") (doc (set_timers n st)))
              (set_timers n st)) as (_ & S & _ & L & _).
  by rewrite S, L.
Qed.

Lemma inert_step st ev :
  listening st = false -> timers st = 0 -> inflight st = [] -> rendered st = [] ->
  step st ev = st.
Proof.
  intros L T I R. destruct ev as [m| | |i o|label]; cbn [step].
  - by rewrite L.
  - by rewrite T.
  - by rewrite L.
  - by rewrite I.
  - by apply retry_nothing.
Qed.

Lemma inert_run st evs :
  listening st = false -> timers st = 0 -> inflight st = [] -> rendered st = [] ->
  run st evs = st.
Proof.
  intros L T I R. induction evs as [|ev evs IH]; [done|].
  change (run st (ev :: evs)) with (run (step st ev) evs).
  by rewrite inert_step.
Qed.

Lemma failure_is_refused o :
  failed o = true ->
  exists m, analyzeUrlExtension o = failure m.
Proof.
  destruct o as [m|status [m|data]]; cbn [failed analyzeUrlExtension].
  - by exists m.
  - destruct (ok status); by eexists.
  - intros ->%negb_true_iff. by eexists.
Qed.


Lemma mutations n st :
  listening st = true -> enabled (settings st) = true ->
  run st (replicate n Mutation) = set_timers (timers st + n) st.
Proof.
  revert st. induction n as [|n IH]; intros st L E.
  { cbn. rewrite Nat.add_0_r. by destruct st. }
  change (run st (replicate (S n) Mutation))
    with (run (step st Mutation) (replicate n Mutation)).
  cbn [step]. rewrite L, E. cbn [andb]. unfold waitForSearchResults.
  rewrite IH by done. destruct st. unfold set_timers. cbn. f_equal. lia.
Qed.

Lemma removeAllLabels_bare_id st : bare (doc st) -> removeAllLabels st = st.
Proof.
  intros [H1 H2]. unfold removeAllLabels. cbv zeta. rewrite H1. cbn [foldl].
  rewrite H2. cbn [foldl]. apply set_doc_id.
Qed.

Lemma ids_remove_all (l : list entry) d :
  eid <$> elements (foldl (fun d en => remove (eid (e_elem en)) d) d l)
  `sublist_of` eid <$> elements d.
Proof.
  revert d. induction l as [|en l IH]; intros d; [done|].
  cbn [foldl]. etransitivity; [apply IH|].
  apply fmap_sublist, elements_remove_sublist.
Qed.

Lemma ids_del_all k (l : list entry) d :
  eid <$> elements (foldl (fun d en => del_attr (eid (e_elem en)) k d) d l)
  = eid <$> elements d.
Proof.
  revert d. induction l as [|en l IH]; intros d; [done|].
  cbn [foldl]. rewrite IH. apply ids_update.
Qed.

Lemma copies_once t new l :
  NoDup (eid <$> l) -> t ∈ eid <$> l -> copies t new l = new.
Proof.
  intros Hn Ht. unfold copies. destruct (named_at_most_one t l Hn) as [E|[e E]].
  - exfalso. apply list_elem_of_fmap in Ht as (e & -> & He).
    assert (H : e ∈ named (eid e) l) by (by apply list_elem_of_filter).
    rewrite E in H. by apply elem_of_nil in H.
  - rewrite E. cbn. by rewrite app_nil_r.
Qed.

Lemma insertLabel_conserves r lab st :
  NoDup (eid <$> elements (doc st)) -> is_Some (find_entry r (doc st)) ->
  elements (doc (insertLabel r lab st))
  ≡ₚ elements (doc st) ++ wrapper_div (next_id st) :: elems lab /\
  next_id (insertLabel r lab st) = S (next_id st).
Proof.
  intros Hn [result Hr].
  assert (A : forall t, t ∈ eid <$> elements (doc st) ->
            elements (insert_after t (Elem (wrapper_div (next_id st)) [lab]) (doc st))
            ≡ₚ elements (doc st) ++ wrapper_div (next_id st) :: elems lab).
  { intros t Ht. rewrite elements_insert_after_perm, copies_once by done.
    cbn [elems]. by rewrite bind_singleton. }
  assert (B : elements (append_child r (Elem (wrapper_div (next_id st)) [lab]) (doc st))
              ≡ₚ elements (doc st) ++ wrapper_div (next_id st) :: elems lab).
  { rewrite elements_append_child_perm, copies_once;
      [|done|by eapply find_entry_id].
    cbn [elems]. by rewrite bind_singleton. }
  unfold insertLabel. rewrite Hr. cbv zeta.
  repeat case_match; cbn [doc set_doc set_next_id next_id]; (split; [|done]);
    try exact B.
  all: apply A.
  all: match goal with H : find_entry ?i ?d ≫= _ = Some _ |- _ =>
         change d with (doc st) in H;
         destruct (find_entry i (doc st)) eqn:E in H; [|done] end.
  all: by eapply find_entry_id.
Qed.

Lemma scan_order l st :
  exists new,
    inflight (scan l st) = inflight st ++ new /\
    rq_result <$> new `sublist_of` (fun en => eid (e_elem en)) <$> l /\
    Forall to_endpoint new.
Proof.
  revert st. induction l as [|en l IH]; intros st.
  { exists []. by rewrite app_nil_r. }
  change (scan (en :: l) st)
    with (scan l (if shouldProcessResult (eid (e_elem en)) st
                  then launch (eid (e_elem en)) st else st)).
  rewrite fmap_cons. destruct (shouldProcessResult (eid (e_elem en)) st).
  - destruct (IH (launch (eid (e_elem en)) st)) as (new & I & S & F).
    destruct (launch_frame (eid (e_elem en)) st) as (_ & _ & _ & _ & I').
    exists (requests (snd (processSearchResult (eid (e_elem en)) st)) ++ new).
    rewrite I, I', app_assoc. split; [done|].
    destruct (snd (processSearchResult (eid (e_elem en)) st)) as [| |rq] eqn:E;
      cbn [requests app]; [by split; [apply sublist_cons|]..|].
    apply processSearchResult_pending in E as [E1 E2]. rewrite fmap_cons, E1.
    split; [by apply sublist_skip|by constructor].
  - destruct (IH st) as (new & I & S & F). exists new.
    split; [done|]. split; [by apply sublist_cons|done].
Qed.

Lemma candidates_distinct st :
  NoDup (eid <$> elements (doc st)) -> NoDup (candidates st).
Proof.
  intros Hn. unfold candidates, querySelectorAll.
  assert (S : (fun en => eid (e_elem en)) <$>
                filter (fun en => selects (HasAttr "data-ved") en = true)
                       (walk_top (doc st))
              `sublist_of` eid <$> elements (doc st)).
  { rewrite <- elems_walk_top, <- list_fmap_compose.
    apply fmap_sublist, sublist_filter. }
  exact (sublist_NoDup _ _ Hn S).
Qed.

Lemma step_timers_other st ev :
  is_message ev = false ->
  listening (step st ev) = listening st /\ settings (step st ev) = settings st /\
  timers (step st ev) =
  match ev with
  | Mutation => if listening st && enabled (settings st) then S (timers st) else timers st
  | TimerFires => pred (timers st)
  | _ => timers st
  end.
Proof.
  intros Hm. destruct ev as [m| | |i o|label]; [done|..].
  - destruct (step_timer_others st) as [L S]. by rewrite L, S, step_timer.
  - cbn [step]. by destruct (listening st && enabled (settings st)).
  - cbn [step]. destruct (inflight st !! i) as [rq|]; [|done].
    by destruct (resume_frame rq o (set_inflight (delete i (inflight st)) st))
      as (S & T & L & _).
  - cbn [step]. by destruct (retry_frame label st) as (_ & S & T & L & _).
Qed.

Lemma timers_counted evs st :
  listening st = true -> enabled (settings st) = true ->
  Forall (fun ev => is_message ev = false) evs ->
  due (timers st) evs = true ->
  timers (run st evs) + firings evs = timers st + notices evs /\
  listening (run st evs) = true /\ enabled (settings (run st evs)) = true.
Proof.
  revert st. induction evs as [|ev evs IH]; intros st L E Hm Hd.
  { cbn. split; [lia|done]. }
  apply Forall_cons in Hm as [Hm1 Hm2].
  destruct (step_timers_other st ev Hm1) as (L' & S' & T').
  change (run st (ev :: evs)) with (run (step st ev) evs).
  assert (L1 : listening (step st ev) = true) by (by rewrite L').
  assert (E1 : enabled (settings (step st ev)) = true) by (by rewrite S').
  destruct ev as [m| | |i o|label]; [done|..]; cbn [due] in Hd.
  - destruct (timers st) as [|t] eqn:Et; [done|]. cbn [pred] in T'.
    rewrite <- T' in Hd. destruct (IH _ L1 E1 Hm2 Hd) as (H1 & H2 & H3).
    split; [|done]. unfold firings, notices in *. cbn [List.filter is_firing is_notice length].
    rewrite T' in H1. lia.
  - rewrite L, E in T'. cbn [andb] in T'.
    rewrite <- T' in Hd. destruct (IH _ L1 E1 Hm2 Hd) as (H1 & H2 & H3).
    split; [|done]. unfold firings, notices in *. cbn [List.filter is_firing is_notice length].
    rewrite T' in H1. lia.
  - rewrite <- T' in Hd. destruct (IH _ L1 E1 Hm2 Hd) as (H1 & H2 & H3).
    split; [|done]. unfold firings, notices in *. cbn [List.filter is_firing is_notice length].
    rewrite T' in H1. lia.
  - rewrite <- T' in Hd. destruct (IH _ L1 E1 Hm2 Hd) as (H1 & H2 & H3).
    split; [|done]. unfold firings, notices in *. cbn [List.filter is_firing is_notice length].
    rewrite T' in H1. lia.
Qed.

End LoopFacts.

(** ** The page under the additions of the script *)

Module PageFacts.
Import JS DOM Ext Notions DOMFacts ExtFacts LoopFacts.

Lemma unmarked_touch i g e : only_key mark g -> unmarked (touch i g e) = unmarked e.
Proof.
  intros Hg. unfold touch. destruct (decide (eid e = i)); [|done].
  unfold unmarked, with_attrs. cbn. f_equal. apply map_eq. intros k.
  destruct (decide (k = mark)) as [->|N].
  - by rewrite !lookup_delete_eq.
  - rewrite !lookup_delete_ne by done. by apply Hg.
Qed.

Lemma bind_ext_Forall {A B} (f g : A -> list B) l :
  Forall (fun x => f x = g x) l -> l ≫= f = l ≫= g.
Proof. induction 1 as [|x l Hx _ IH]; [done|]. by rewrite !bind_cons, Hx, IH. Qed.

Lemma bind_map {A B C} (f : A -> B) (g : B -> list C) (l : list A) :
  map f l ≫= g = l ≫= (fun x => g (f x)).
Proof. induction l as [|x l IH]; [done|]. cbn [map]. by rewrite !bind_cons, IH. Qed.

Lemma bind_bind {A B C} (f : A -> list B) (g : B -> list C) (l : list A) :
  (l ≫= f) ≫= g = l ≫= (fun x => f x ≫= g).
Proof. induction l as [|x l IH]; [done|]. by rewrite !bind_cons, bind_app, IH. Qed.

Lemma own_content_map base g n :
  (forall e, eid (g e) = eid e) -> (forall e, unmarked (g e) = unmarked e) ->
  own_content base (map_elements g n) = own_content base n.
Proof.
  intros Hi Hu. induction n as [s|e kids IH] using node_ind; [done|].
  cbn [map_elements own_content]. rewrite Hi, Hu.
  destruct (base <=? eid e)%nat; [done|]. do 2 f_equal.
  rewrite bind_map. by apply bind_ext_Forall.
Qed.

Lemma page_content_update base i g d :
  only_key mark g -> page_content base (update i g d) = page_content base d.
Proof.
  intros Hg. unfold page_content. rewrite update_touch, bind_map.
  apply bind_ext_Forall, Forall_forall. intros n _.
  apply own_content_map; intros e; [apply touch_eid|by apply unmarked_touch].
Qed.

Lemma own_content_strip base x n :
  base <= x -> strip x n ≫= own_content base = own_content base n.
Proof.
  intros Hx. induction n as [s|e kids IH] using node_ind; [done|].
  cbn [strip own_content]. destruct (decide (eid e = x)) as [->|N].
  - apply Nat.leb_le in Hx. by rewrite Hx.
  - rewrite bind_singleton. cbn [own_content].
    destruct (base <=? eid e)%nat; [done|]. do 2 f_equal.
    rewrite bind_bind. by apply bind_ext_Forall.
Qed.

Lemma page_content_remove base x d :
  base <= x -> page_content base (remove x d) = page_content base d.
Proof.
  intros Hx. unfold page_content, remove. rewrite bind_bind.
  apply bind_ext_Forall, Forall_forall. intros n _. by apply own_content_strip.
Qed.

Lemma own_content_place base t w n :
  own_content base w = [] -> place t w n ≫= own_content base = own_content base n.
Proof.
  intros Hw. induction n as [s|e kids IH] using node_ind; [done|].
  cbn [place]. rewrite bind_cons.
  assert (E : (if decide (eid e = t) then [w] else []) ≫= own_content base = []).
  { destruct (decide (eid e = t)); [|done]. by rewrite bind_singleton. }
  rewrite E, app_nil_r. cbn [own_content].
  destruct (base <=? eid e)%nat; [done|]. do 2 f_equal.
  rewrite bind_bind. by apply bind_ext_Forall.
Qed.

Lemma page_content_insert_after base t w d :
  own_content base w = [] ->
  page_content base (insert_after t w d) = page_content base d.
Proof.
  intros Hw. unfold page_content, insert_after. rewrite bind_bind.
  apply bind_ext_Forall, Forall_forall. intros n _. by apply own_content_place.
Qed.

Lemma own_content_adopt base p w n :
  own_content base w = [] -> own_content base (adopt p w n) = own_content base n.
Proof.
  intros Hw. induction n as [s|e kids IH] using node_ind; [done|].
  cbn [adopt own_content]. destruct (base <=? eid e)%nat; [done|]. do 2 f_equal.
  rewrite bind_app, bind_map.
  assert (E : (if decide (eid e = p) then [w] else []) ≫= own_content base = []).
  { destruct (decide (eid e = p)); [|done]. by rewrite bind_singleton. }
  rewrite E, app_nil_r. by apply bind_ext_Forall.
Qed.

Lemma page_content_append_child base p w d :
  own_content base w = [] ->
  page_content base (append_child p w d) = page_content base d.
Proof.
  intros Hw. unfold page_content, append_child. rewrite bind_map.
  apply bind_ext_Forall, Forall_forall. intros n _. by apply own_content_adopt.
Qed.

Lemma kp_wf base c st : keeps_page base c st -> wf base st.
Proof. by intros (? & _). Qed.

Lemma kp_frame base c st st' :
  doc st' = doc st -> next_id st' = next_id st -> inflight st' = inflight st ->
  keeps_page base c st -> keeps_page base c st'.
Proof.
  intros Hd Hn Hi (W & U & C). split; [by apply (wf_frame base st)|].
  unfold unlabelled. by rewrite Hd.
Qed.

Lemma kp_update base c i g st :
  only_key mark g -> keeps_page base c st ->
  keeps_page base c (set_doc (update i g (doc st)) st).
Proof.
  intros Hg (W & U & C). split; [by apply wf_update|]. split.
  - intros e. cbn [doc set_doc]. rewrite elements_update.
    intros (e0 & -> & H0)%list_elem_of_fmap. unfold has_class.
    rewrite touch_classes, touch_eid. by apply U.
  - cbn [doc set_doc]. by rewrite page_content_update.
Qed.

Lemma kp_remove base c x st :
  base <= x -> keeps_page base c st -> keeps_page base c (set_doc (remove x (doc st)) st).
Proof.
  intros Hx (W & U & C). split; [by apply wf_remove|]. split.
  - intros e [He _]%elements_remove. by apply U.
  - cbn [doc set_doc]. by rewrite page_content_remove.
Qed.

Lemma page_content_insertLabel base r lab st :
  base <= next_id st ->
  page_content base (doc (insertLabel r lab st)) = page_content base (doc st).
Proof.
  intros Hb.
  assert (E : own_content base (Elem (wrapper_div (next_id st)) [lab]) = []).
  { cbn [own_content wrapper_div eid]. apply Nat.leb_le in Hb. by rewrite Hb. }
  unfold insertLabel. repeat case_match; cbn [doc set_doc set_next_id]; try done.
  all: first [by apply page_content_insert_after | by apply page_content_append_child].
Qed.

Lemma kp_created base c r cls w st :
  keeps_page base c st -> r < base ->
  (forall r' u, w = ErrorLabel r' u -> r' < base) ->
  existsb (String.eqb "truthly-label") cls || existsb (String.eqb "truthly-loading") cls
    = true ->
  let (labelDiv, st1) := createLabel cls w st in
  keeps_page base c (insertLabel r labelDiv st1).
Proof.
  intros (W & U & C) Hr Hw Hcls.
  pose proof (wf_created base r cls w st W Hr Hw Hcls) as K.
  unfold createLabel in *. split; [exact K|].
  assert (Hb : base <= next_id st) by (by destruct W as (_ & ? & _)).
  split.
  - intros e [He|[He| ->]]%insertLabel_elements.
    + by apply U.
    + cbn [elems] in He. apply list_elem_of_singleton in He as ->. by intros _.
    + intros _. cbn [wrapper_div eid next_id set_next_id]. lia.
  - rewrite page_content_insertLabel; [done|]. cbn [next_id set_next_id]. lia.
Qed.

Lemma kp_displayErrorLabel base c r url st :
  keeps_page base c st -> r < base -> keeps_page base c (displayErrorLabel r url st).
Proof.
  intros H Hr.
  pose proof (kp_created base c r ["truthly-label"; "error"] (ErrorLabel r url) st H Hr)
    as K.
  unfold displayErrorLabel, createLabel in *. apply K; [|done]. by intros r' u [= <- _].
Qed.

Lemma kp_addLoadingIndicator base c r st :
  keeps_page base c st -> r < base -> keeps_page base c (addLoadingIndicator r st).
Proof.
  intros H Hr.
  pose proof (kp_created base c r ["truthly-loading"] Spinner st H Hr) as K.
  unfold addLoadingIndicator, createLabel in *.
  destruct (find_entry r (doc st)); [|done].
  destruct (querySelector (Class "truthly-loading") e); [done|]. by apply K.
Qed.

Lemma kp_displayLabel base c r analysis url st :
  keeps_page base c st -> r < base ->
  keeps_page base c (fst (displayLabel r analysis url st)).
Proof.
  intros H Hr. unfold displayLabel.
  destruct (get analysis "label") as [e|label]; [done|].
  destruct (truthy label); [|by apply kp_displayErrorLabel].
  destruct label; try done. cbn [fst].
  match goal with |- keeps_page _ _ (fst (let (_, _) := createLabel ?cls ?w st in _)) =>
    pose proof (kp_created base c r cls w st H Hr) as K end.
  unfold createLabel in *. cbn [fst]. by apply K.
Qed.

Lemma loading_is_created base st r result loading :
  wf base st -> find_entry r (doc st) = Some result ->
  querySelector (Class "truthly-loading") result = Some loading ->
  base <= eid (e_elem loading).
Proof.
  intros (_ & _ & Hg & _) Hr Hq.
  destruct (querySelector_elements _ _ _ _ _ Hr Hq) as [He Hs].
  destruct (Hg _ He) as (_ & Hlo & _). apply Hlo. exact Hs.
Qed.

Lemma kp_cleanup base c r st : keeps_page base c st -> keeps_page base c (cleanup r st).
Proof.
  intros H. unfold cleanup, removeLoadingIndicator.
  pose proof (kp_update base c r (insert mark "false") st (only_key_insert _ _) H) as H2.
  set (st1 := set_doc (set_attr r mark "false" (doc st)) st) in *.
  destruct (find_entry r (doc st1)) as [result|] eqn:Hr; [|done].
  destruct (querySelector (Class "truthly-loading") result) as [loading|] eqn:Hq; [|done].
  apply (kp_remove base c _ st1); [|done].
  by apply (loading_is_created base st1 r result loading (kp_wf _ _ _ H2)).
Qed.

Lemma kp_settle base c r body :
  keeps_page base c (fst body) -> keeps_page base c (fst (settle r body)).
Proof. destruct body as [st [|e]]; apply kp_cleanup. Qed.

Lemma kp_processSearchResult base c r st :
  keeps_page base c st -> r < base -> keeps_page base c (fst (processSearchResult r st)).
Proof.
  intros H Hr. unfold processSearchResult.
  pose proof (kp_update base c r (insert mark "true") st (only_key_insert _ _) H) as H1.
  set (st1 := set_doc (set_attr r mark "true" (doc st)) st) in *.
  repeat case_match; cbn [fst snd].
  all: try (apply kp_settle; cbn [fst]; try done; by apply kp_displayLabel).
  by apply kp_addLoadingIndicator.
Qed.

Lemma kp_launch base c r st :
  keeps_page base c st -> r < base -> keeps_page base c (launch r st).
Proof.
  intros H Hr. pose proof (kp_processSearchResult base c r st H Hr) as (_ & U & C).
  split; [apply wf_launch; [by apply (kp_wf base c)|done]|].
  unfold launch. by destruct (processSearchResult r st) as [st' [|e|rq]].
Qed.

Lemma kp_resume base c rq o st :
  keeps_page base c st -> rq_result rq < base -> keeps_page base c (fst (resume rq o st)).
Proof.
  intros H Hr. unfold resume. cbv zeta. apply kp_settle.
  repeat case_match; cbn [fst]; first
    [ apply kp_displayLabel; [|done]; by apply (kp_frame base c st)
    | by apply kp_displayErrorLabel ].
Qed.

Lemma kp_remove_all base c (l : list entry) st :
  (forall en, en ∈ l -> base <= eid (e_elem en)) ->
  keeps_page base c st ->
  keeps_page base c
    (set_doc (foldl (fun d en => remove (eid (e_elem en)) d) (doc st) l) st).
Proof.
  revert st. induction l as [|en l IH]; intros st Hl H; cbn [foldl].
  - by apply (kp_frame base c st).
  - apply (IH (set_doc (remove (eid (e_elem en)) (doc st)) st)).
    + intros en' ?. apply Hl. by right.
    + apply kp_remove; [|done]. apply Hl. by left.
Qed.

Lemma kp_del_all base c (l : list entry) st :
  keeps_page base c st ->
  keeps_page base c
    (set_doc (foldl (fun d en => del_attr (eid (e_elem en)) mark d) (doc st) l) st).
Proof.
  revert st. induction l as [|en l IH]; intros st H; cbn [foldl].
  - by apply (kp_frame base c st).
  - apply (IH (set_doc (del_attr (eid (e_elem en)) mark (doc st)) st)).
    apply kp_update; [apply only_key_delete|done].
Qed.

Lemma kp_removeAllLabels base c st :
  keeps_page base c st -> keeps_page base c (removeAllLabels st).
Proof.
  intros H. unfold removeAllLabels.
  assert (Hl : forall en, en ∈ querySelectorAll label_or_loading (doc st) ->
                 base <= eid (e_elem en)).
  { intros en [Hs Hen]%list_elem_of_filter.
    assert (He : e_elem en ∈ elements (doc st)).
    { apply elem_of_elements_entry. by exists en. }
    destruct H as ((_ & _ & Hg & _) & U & _).
    unfold selects, label_or_loading in Hs. cbn [matches] in Hs.
    apply orb_true_iff in Hs as [Hs|Hs]; [by apply U|].
    destruct (Hg _ He) as (_ & Hlo & _). by apply Hlo. }
  pose proof (kp_remove_all base c _ st Hl H) as H1.
  set (d1 := foldl (fun d en => remove (eid (e_elem en)) d) (doc st)
                   (querySelectorAll label_or_loading (doc st))) in *.
  exact (kp_del_all base c (querySelectorAll (HasAttr mark) d1) (set_doc d1 st) H1).
Qed.

Lemma kp_scan base c (l : list entry) st :
  (forall en, en ∈ l -> eid (e_elem en) < base) -> keeps_page base c st ->
  keeps_page base c (scan l st).
Proof.
  revert st. induction l as [|en l IH]; intros st Hl H; [done|].
  change (scan (en :: l) st)
    with (scan l (if shouldProcessResult (eid (e_elem en)) st
                  then launch (eid (e_elem en)) st else st)).
  apply IH; [intros en' ?; apply Hl; by right|].
  destruct (shouldProcessResult _ st); [|done].
  apply kp_launch; [done|]. apply Hl. by left.
Qed.

Lemma candidates_are_page_elements base st en :
  wf base st -> en ∈ querySelectorAll (HasAttr "data-ved") (doc st) ->
  eid (e_elem en) < base.
Proof.
  intros (_ & _ & Hg & _) [Hs Hen]%list_elem_of_filter.
  assert (He : e_elem en ∈ elements (doc st)).
  { apply elem_of_elements_entry. by exists en. }
  destruct (Hg _ He) as (Hved & _).
  destruct (decide (eid (e_elem en) < base)) as [|Hge]; [done|].
  unfold selects in Hs. cbn [matches] in Hs. unfold has_attr in Hs.
  rewrite Hved in Hs by lia. done.
Qed.

Lemma kp_processSearchResults base c st :
  keeps_page base c st -> keeps_page base c (processSearchResults st).
Proof.
  intros H. rewrite processSearchResults_scan. destruct (enabled _); [|done].
  apply kp_scan; [|done]. intros en Hen.
  by apply (candidates_are_page_elements base st en (kp_wf _ _ _ H)).
Qed.

Lemma kp_handleMessage base c m st :
  keeps_page base c st -> keeps_page base c (handleMessage m st).
Proof.
  intros H. destruct m as [s| |t]; cbn [handleMessage]; [| |done].
  - destruct (negb _).
    + apply kp_removeAllLabels. by apply (kp_frame base c st).
    + by apply (kp_frame base c st).
  - assert (H1 : keeps_page base c (removeAllLabels (set_cache ∅ st))).
    { apply kp_removeAllLabels. by apply (kp_frame base c st). }
    destruct (enabled _); [|done]. by apply (kp_frame base c _ _ eq_refl eq_refl eq_refl).
Qed.

Lemma kp_retry base c label st :
  keeps_page base c st -> keeps_page base c (retry label st).
Proof.
  intros H. unfold retry.
  destruct (find_entry label (doc st)) as [en|] eqn:E; [|done].
  destruct (inner (e_elem en)) as [[| |r u]|] eqn:Ew; try done.
  pose proof (find_entry_elements _ _ _ E) as He.
  destruct (find_entry_Some _ _ _ E) as [_ Hid].
  assert (G : good base (e_elem en)).
  { destruct H as ((_ & _ & Hg & _) & _). by apply Hg. }
  destruct G as (_ & Hlo & Hk & Hc).
  assert (Hr : r < base) by (by apply (Hk r u)).
  assert (Hx : base <= label).
  { rewrite <- Hid. specialize (Hc _ Ew). apply orb_true_iff in Hc as [Hc|Hc].
    - destruct H as (_ & U & _). by apply U.
    - by apply Hlo. }
  apply kp_launch; [|done].
  apply (kp_update base c r (delete mark) _ (only_key_delete _)).
  by apply kp_remove.
Qed.

Lemma kp_step base c st ev : keeps_page base c st -> keeps_page base c (step st ev).
Proof.
  intros H. destruct ev as [m| | |i o|l]; cbn [step].
  - destruct (listening st); [by apply kp_handleMessage|done].
  - destruct (timers st) as [|n]; [done|].
    apply kp_processSearchResults. by apply (kp_frame base c st).
  - destruct (_ && _); [|done]. by apply (kp_frame base c st).
  - destruct (inflight st !! i) as [rq|] eqn:E; [|done].
    pose proof (wf_step base st (FetchSettles i o) (kp_wf _ _ _ H)) as W.
    cbn [step] in W. rewrite E in W.
    assert (Hr : rq_result rq < base).
    { destruct H as ((_ & _ & _ & Hi) & _). apply Hi. by apply list_elem_of_lookup_2 in E. }
    assert (H' : keeps_page base c (set_inflight (delete i (inflight st)) st)).
    { destruct H as ((Ht & Hb & Hg & Hi) & U & C). split; [|done].
      split; [done|]. split; [done|]. split; [done|]. cbn [inflight set_inflight].
      intros rq' Hin. apply Hi. by apply list_elem_of_delete_inv in Hin. }
    by apply kp_resume.
  - by apply kp_retry.
Qed.

Lemma kp_run base c evs st : keeps_page base c st -> keeps_page base c (run st evs).
Proof.
  revert st. induction evs as [|ev evs IH]; intros st H; [done|].
  cbn [run foldl]. apply IH. by apply kp_step.
Qed.

Lemma unmarked_id e : has_attr mark e = false -> unmarked e = e.
Proof.
  unfold has_attr, unmarked, with_attrs. intros H. destruct e as [i t cl a w]. cbn in *.
  f_equal. apply delete_id. by destruct (a !! mark).
Qed.

Lemma own_content_id base n :
  Forall (fun e => eid e < base /\ has_attr mark e = false) (elems n) ->
  own_content base n = [n].
Proof.
  induction n as [s|e kids IH] using node_ind; [done|].
  cbn [elems own_content]. intros [[Hlt Hm] Hk]%Forall_cons.
  apply Nat.leb_gt in Hlt. rewrite Hlt, unmarked_id by done. do 2 f_equal.
  clear Hlt Hm. induction IH as [|k kids Hk' _ IHk]; [done|].
  rewrite bind_cons in Hk. apply Forall_app in Hk as [Hk1 Hk2].
  rewrite bind_cons, Hk' by done. cbn [app]. f_equal. by apply IHk.
Qed.

Lemma page_content_id base d :
  Forall (fun e => eid e < base /\ has_attr mark e = false) (elements d) ->
  page_content base d = d.
Proof.
  unfold page_content, elements. induction d as [|n d IH]; [done|].
  rewrite !bind_cons. intros [H1 H2]%Forall_app.
  by rewrite own_content_id, IH.
Qed.

Lemma pristine_keeps_page d fresh o :
  pristine fresh d = true -> keeps_page fresh d (init o (new d fresh)).
Proof.
  unfold pristine. intros [[[H1 H2]%andb_true_iff H3]%andb_true_iff H4]%andb_true_iff.
  pose proof (wf_started d fresh o H1 H2 H3) as W.
  assert (D : doc (init o (new d fresh)) = d).
  { unfold init. cbv zeta. by destruct (negb _). }
  split; [done|]. unfold unlabelled. rewrite D. split.
  - intros e He Hc. rewrite forallb_forall in H4.
    apply list_elem_of_In, H4 in He. rewrite Hc in He. done.
  - apply page_content_id, Forall_forall. intros e He.
    rewrite forallb_forall in H2, H4. apply list_elem_of_In in He.
    specialize (H2 e He). specialize (H4 e He). apply Nat.ltb_lt in H2.
    apply andb_true_iff in H4 as [_ H4]. apply negb_true_iff in H4. done.
Qed.

End PageFacts.

(** ** Processing marks and suspended analyses *)

Module MarkFacts.
Import JS DOM Ext Notions DOMFacts ExtFacts LoopFacts.

Lemma marked_same_doc i st st' : doc st' = doc st -> marked i st' -> marked i st.
Proof. unfold marked. by intros ->. Qed.

Lemma marked_insertLabel i r le st :
  attrs le !! mark = None ->
  marked i (insertLabel r (Elem le []) st) -> marked i st.
Proof.
  intros Hle (e & He & Hi & Hm). apply insertLabel_elements in He as [He|[He| ->]].
  - by exists e.
  - cbn [elems] in He. apply list_elem_of_singleton in He as ->. congruence.
  - cbn in Hm. by rewrite lookup_singleton_ne in Hm.
Qed.

Lemma marked_created i r cls w st :
  (let (labelDiv, st1) := createLabel cls w st in marked i (insertLabel r labelDiv st1)) ->
  marked i st.
Proof.
  unfold createLabel. intros H. apply marked_insertLabel in H; [|done].
  by apply (marked_same_doc i st) in H.
Qed.

Lemma marked_displayErrorLabel i r url st :
  marked i (displayErrorLabel r url st) -> marked i st.
Proof. apply marked_created. Qed.

Lemma marked_addLoadingIndicator i r st :
  marked i (addLoadingIndicator r st) -> marked i st.
Proof.
  unfold addLoadingIndicator. destruct (find_entry r (doc st)); [|done].
  destruct (querySelector (Class "truthly-loading") e); [done|]. apply marked_created.
Qed.

Lemma marked_displayLabel i r analysis url st :
  marked i (fst (displayLabel r analysis url st)) -> marked i st.
Proof.
  unfold displayLabel. destruct (get analysis "label") as [e|label]; [done|].
  destruct (truthy label); [|apply marked_displayErrorLabel].
  destruct label; try done. apply marked_created.
Qed.

Lemma marked_remove i x st : marked i (set_doc (remove x (doc st)) st) -> marked i st.
Proof. intros (e & [He _]%elements_remove & Hi & Hm). by exists e. Qed.

Lemma marked_set_attr i r v st :
  marked i (set_doc (set_attr r mark v (doc st)) st) ->
  (i = r /\ v = "true") \/ (i <> r /\ marked i st).
Proof.
  intros (e & He & Hi & Hm). cbn [doc set_doc] in He. unfold set_attr in He.
  rewrite elements_update in He. apply list_elem_of_fmap in He as (e0 & -> & H0).
  rewrite touch_eid in Hi. unfold touch in Hm.
  destruct (decide (eid e0 = r)) as [E|E].
  - left. cbn in Hm. rewrite lookup_insert_eq in Hm. split; congruence.
  - right. split; [congruence|]. by exists e0.
Qed.

Lemma marked_del_attr i r st :
  marked i (set_doc (del_attr r mark (doc st)) st) -> i <> r /\ marked i st.
Proof.
  intros (e & He & Hi & Hm). cbn [doc set_doc] in He. unfold del_attr in He.
  rewrite elements_update in He. apply list_elem_of_fmap in He as (e0 & -> & H0).
  rewrite touch_eid in Hi. unfold touch in Hm.
  destruct (decide (eid e0 = r)) as [E|E].
  - cbn in Hm. by rewrite lookup_delete_eq in Hm.
  - split; [congruence|]. by exists e0.
Qed.

Lemma marked_cleanup i r st : marked i (cleanup r st) -> i <> r /\ marked i st.
Proof.
  unfold cleanup, removeLoadingIndicator.
  set (st1 := set_doc (set_attr r mark "false" (doc st)) st).
  assert (H1 : marked i st1 -> i <> r /\ marked i st).
  { intros [[_ [=]]|H]%marked_set_attr. done. }
  destruct (find_entry r (doc st1)) as [result|]; [|done].
  destruct (querySelector (Class "truthly-loading") result) as [loading|]; [|done].
  intros H%marked_remove. by apply H1.
Qed.

Lemma marked_settle i r body :
  marked i (fst (settle r body)) -> i <> r /\ marked i (fst body).
Proof. destruct body as [st [|e]]; apply marked_cleanup. Qed.

Lemma marked_processSearchResult i r st :
  marked i (fst (processSearchResult r st)) ->
  (i <> r /\ marked i st) \/ (i = r /\ exists rq, snd (processSearchResult r st) = Pending rq).
Proof.
  unfold processSearchResult. cbv zeta.
  set (st1 := set_doc (set_attr r mark "true" (doc st)) st).
  assert (H1 : forall st2, (marked i st2 -> marked i st1) ->
                 marked i (fst (settle r (st2, Normal))) -> i <> r /\ marked i st).
  { intros st2 H2 [N H]%marked_settle. cbn [fst] in H. apply H2 in H.
    apply marked_set_attr in H as [[? _]|[_ H]]; done. }
  destruct (find_entry r (doc st1)) as [result|]; [|left; by apply (H1 st1)].
  destruct (querySelector link_selector result) as [linkElement|];
    [|left; by apply (H1 st1)].
  destruct (find_title result) as [titleElement|]; [|left; by apply (H1 st1)].
  destruct (cache st1 !! href linkElement) as [cached|].
  - intros [N H]%marked_settle. apply marked_displayLabel in H.
    apply marked_set_attr in H as [[? _]|[_ H]]; [done|by left].
  - cbn [fst snd]. intros H%marked_addLoadingIndicator.
    apply marked_set_attr in H as [[-> _]|H]; [|by left]. right. by eauto.
Qed.

Lemma pending_launch r st : marks_are_pending st -> marks_are_pending (launch r st).
Proof.
  intros H i Hi.
  destruct (launch_frame r st) as (_ & _ & _ & _ & I).
  assert (D : doc (launch r st) = doc (fst (processSearchResult r st))).
  { unfold launch. by destruct (processSearchResult r st) as [st' [|e|rq]]. }
  apply (marked_same_doc i _ _ D) in Hi.
  apply marked_processSearchResult in Hi as [[N Hi]|[-> [rq E]]].
  - destruct (H i Hi) as (rq & Hrq & Hr). exists rq. rewrite I.
    split; [|done]. apply elem_of_app. by left.
  - exists rq. rewrite I, E. cbn [requests]. split; [apply elem_of_app; right; by left|].
    by apply processSearchResult_pending in E as [E _].
Qed.

Lemma marked_resume i rq o st :
  marked i (fst (resume rq o st)) -> i <> rq_result rq /\ marked i st.
Proof.
  unfold resume. cbv zeta. intros [N H]%marked_settle. split; [done|].
  destruct (truthy _ && _ && _).
  - apply marked_displayLabel in H. by destruct (cacheResults (settings st)).
  - by apply marked_displayErrorLabel in H.
Qed.

Lemma unmarked_removeAllLabels i st : ~ marked i (removeAllLabels st).
Proof.
  intros (e & He & Hi & Hm).
  pose proof (querySelectorAll_nil_test (HasAttr mark) _ e eq_refl
                (removeAllLabels_marks st) He) as T.
  unfold test in T. cbn [matches] in T. unfold has_attr in T. by rewrite Hm in T.
Qed.

Lemma pending_scan l st : marks_are_pending st -> marks_are_pending (scan l st).
Proof.
  revert st. induction l as [|en l IH]; intros st H; [done|].
  change (scan (en :: l) st)
    with (scan l (if shouldProcessResult (eid (e_elem en)) st
                  then launch (eid (e_elem en)) st else st)).
  apply IH. destruct (shouldProcessResult _ st); [by apply pending_launch|done].
Qed.

Lemma pending_frame st st' :
  doc st' = doc st -> inflight st' = inflight st ->
  marks_are_pending st -> marks_are_pending st'.
Proof. unfold marks_are_pending, marked. by intros -> ->. Qed.

Lemma pending_handleMessage m st :
  marks_are_pending st -> marks_are_pending (handleMessage m st).
Proof.
  intros H. destruct m as [s| |t]; cbn [handleMessage]; [| |done].
  - cbv zeta. destruct (negb _).
    + intros i Hi. by destruct (unmarked_removeAllLabels i _ Hi).
    + by apply (pending_frame st).
  - cbv zeta. intros i Hi. destruct (enabled _).
    + apply (marked_same_doc i (removeAllLabels (set_cache ∅ st))) in Hi; [|done].
      by destruct (unmarked_removeAllLabels i _ Hi).
    + by destruct (unmarked_removeAllLabels i _ Hi).
Qed.

Lemma pending_retry label st : marks_are_pending st -> marks_are_pending (retry label st).
Proof.
  intros H. unfold retry. destruct (find_entry label (doc st)) as [en|]; [|done].
  destruct (inner (e_elem en)) as [[| |r u]|]; try done.
  cbv zeta. apply pending_launch. intros i Hi.
  apply marked_del_attr in Hi as [_ Hi]. apply marked_remove in Hi. by apply H.
Qed.

Lemma elem_of_delete_or {A} (l : list A) i x y :
  l !! i = Some y -> x ∈ l -> x ∈ delete i l \/ x = y.
Proof.
  revert i. induction l as [|a l IH]; intros i Hy Hx; [by apply elem_of_nil in Hx|].
  destruct i as [|i].
  - cbn in Hy. injection Hy as <-. apply elem_of_cons in Hx as [->|Hx]; [by right|by left].
  - cbn in Hy. apply elem_of_cons in Hx as [->|Hx].
    + left. apply list_elem_of_here.
    + destruct (IH i Hy Hx) as [H|H]; [|by right]. left. by apply list_elem_of_further.
Qed.

Lemma pending_step st ev : marks_are_pending st -> marks_are_pending (step st ev).
Proof.
  intros H. destruct ev as [m| | |i o|label]; cbn [step].
  - destruct (listening st); [by apply pending_handleMessage|done].
  - destruct (timers st) as [|n]; [done|]. rewrite processSearchResults_scan.
    destruct (enabled _); [|by apply (pending_frame st)].
    apply pending_scan. by apply (pending_frame st).
  - destruct (_ && _); [|done]. by apply (pending_frame st).
  - destruct (inflight st !! i) as [rq|] eqn:E; [|done].
    intros j [N Hj]%marked_resume.
    destruct (resume_frame rq o (set_inflight (delete i (inflight st)) st))
      as (_ & _ & _ & I).
    rewrite I. cbn [inflight set_inflight].
    apply (marked_same_doc j st) in Hj; [|done].
    destruct (H j Hj) as (rq' & Hin & Hr).
    destruct (elem_of_delete_or _ _ _ _ E Hin) as [Hd| ->]; [by exists rq'|done].
  - by apply pending_retry.
Qed.

Lemma pending_run evs st : marks_are_pending st -> marks_are_pending (run st evs).
Proof.
  revert st. induction evs as [|ev evs IH]; intros st H; [done|].
  cbn [run foldl]. apply IH. by apply pending_step.
Qed.

Lemma pristine_pending d fresh o :
  pristine fresh d = true -> marks_are_pending (init o (new d fresh)).
Proof.
  unfold pristine. intros [_ H4]%andb_true_iff.
  assert (D : doc (init o (new d fresh)) = d).
  { unfold init. cbv zeta. by destruct (negb _). }
  intros i (e & He & _ & Hm). rewrite D in He. rewrite forallb_forall in H4.
  apply list_elem_of_In, H4 in He. apply andb_true_iff in He as [_ He].
  unfold has_attr in He. by rewrite Hm in He.
Qed.

Lemma processing_marked r st : processing r st = true -> marked r st.
Proof.
  unfold processing. destruct (find_entry r (doc st)) as [result|] eqn:E; [|done].
  intros H%bool_decide_eq_true. exists (e_elem result).
  split; [by eapply find_entry_elements|]. split; [|done].
  by destruct (find_entry_Some _ _ _ E).
Qed.

Lemma rendered_update i g st :
  rendered (set_doc (update i g (doc st)) st) = rendered st.
Proof.
  unfold rendered. cbn [doc set_doc]. rewrite elements_update.
  induction (elements (doc st)) as [|e l IH]; [done|].
  rewrite fmap_cons. cbn [omap list_omap]. rewrite IH.
  assert (E : widget_of (touch i g e) = widget_of e).
  { unfold widget_of. by rewrite touch_inner, touch_eid. }
  by rewrite E.
Qed.

Lemma processSearchResult_skips r st :
  link_url r st = None \/ title_text r st = None ->
  processSearchResult r st
  = (cleanup r (set_doc (set_attr r mark "true" (doc st)) st), Fulfilled).
Proof.
  intros H. unfold processSearchResult. cbv zeta.
  set (st1 := set_doc (set_attr r mark "true" (doc st)) st).
  assert (Hg : only_key mark (insert mark "true")) by apply only_key_insert.
  unfold st1 at 1. cbn [doc set_doc]. unfold set_attr.
  rewrite find_entry_update. unfold link_url, title_text in H.
  destruct (find_entry r (doc st)) as [result|]; [|done].
  cbn [fmap option_fmap option_map mbind option_bind] in *.
  rewrite querySelector_stable by (by apply stable_mark_link).
  rewrite find_title_touch by done.
  destruct (querySelector link_selector result) as [l|]; [|done].
  destruct (find_title result) as [t|]; [|done].
  by destruct H.
Qed.

End MarkFacts.

(** ** Facts about the background worker *)

Module WorkerFacts.
Import JS Background.

Lemma all_app p s t : all p (s ++ t)%string = all p s && all p t.
Proof.
  induction s as [|c s IH]; [by rewrite JSFacts.append_nil|].
  rewrite JSFacts.append_cons. cbn [all]. by rewrite IH, andb_assoc.
Qed.

Lemma hex_digit_safe n : url_safe (hex_digit n) = true.
Proof. do 17 (destruct n as [|n]; [reflexivity|]). reflexivity. Qed.

Lemma escape_safe c : all url_safe (escape c) = true.
Proof. unfold escape. cbn [all]. by rewrite !hex_digit_safe. Qed.

Lemma encodeURIComponent_safe s : all url_safe (encodeURIComponent s) = true.
Proof.
  induction s as [|c s IH]; [done|]. cbn [encodeURIComponent].
  rewrite all_app, IH, andb_true_r.
  destruct (unreserved c) eqn:E; [|apply escape_safe].
  cbn [all]. unfold url_safe. by rewrite E.
Qed.

Lemma hex_round_trip c :
  ascii_of_nat (16 * hex_value (hex_digit (nat_of_ascii c / 16))
                + hex_value (hex_digit (nat_of_ascii c mod 16))) = c.
Proof. destruct c as [[] [] [] [] [] [] [] []]; vm_compute; reflexivity. Qed.

Lemma unescape_escape c r :
  unescape (escape c ++ r) = String c (unescape r).
Proof.
  unfold escape. rewrite !JSFacts.append_cons, JSFacts.append_nil.
  cbn [unescape]. change (Ascii.eqb "%" "%") with true. cbv iota.
  by rewrite hex_round_trip.
Qed.

Lemma unescape_plain c r :
  unreserved c = true -> unescape (String c r) = String c (unescape r).
Proof.
  intros H. cbn [unescape]. destruct (Ascii.eqb c "%") eqn:E; [|done].
  apply Ascii.eqb_eq in E. subst c. discriminate H.
Qed.

Lemma unescape_encodeURIComponent s : unescape (encodeURIComponent s) = s.
Proof.
  induction s as [|c s IH]; [done|]. cbn [encodeURIComponent].
  destruct (unreserved c) eqn:E.
  - rewrite JSFacts.append_cons, JSFacts.append_nil, unescape_plain by done.
    by rewrite IH.
  - by rewrite unescape_escape, IH.
Qed.

Lemma assoc_list_to_map k fs :
  assoc k fs = default Undefined ((list_to_map fs : gmap string value) !! k).
Proof.
  induction fs as [|[k' v] fs IH]; [done|].
  cbn [assoc]. rewrite list_to_map_cons, lookup_insert.
  destruct (String.eqb k k') eqn:E.
  - apply String.eqb_eq in E as ->. by rewrite decide_True.
  - apply String.eqb_neq in E. by rewrite decide_False, IH.
Qed.

Lemma field_storage_get keys a k :
  field (storage_get keys a) k =
  if bool_decide (k ∈ keys) then default Undefined (a !! k) else Undefined.
Proof.
  unfold storage_get. cbn [field].
  induction keys as [|k' keys IH]; [done|].
  cbn [omap list_omap].
  destruct (decide (k = k')) as [->|N].
  - rewrite bool_decide_eq_true_2 by apply list_elem_of_here.
    destruct (a !! k') as [v|] eqn:E; cbn [fmap option_fmap option_map].
    + cbn [assoc]. by rewrite String.eqb_refl.
    + rewrite IH. by destruct (bool_decide _).
  - assert (B : bool_decide (k ∈ k' :: keys) = bool_decide (k ∈ keys)).
    { apply bool_decide_ext. rewrite elem_of_cons. split; [by intros [?|?]|by right]. }
    rewrite B. destruct (a !! k') as [v|]; cbn [fmap option_fmap option_map]; [|done].
    cbn [assoc]. apply String.eqb_neq in N. by rewrite N.
Qed.

Lemma lookup_storage_set items a k :
  storage_set items a !! k =
  match (list_to_map items : gmap string value) !! k with Some v => Some v | None => a !! k end.
Proof.
  unfold storage_set. rewrite lookup_union.
  destruct (list_to_map items !! k) as [v|]; [|by rewrite (left_id None _)].
  by destruct (a !! k).
Qed.

Lemma result_page_encoded s : result_page (result_url (encodeURIComponent s)).
Proof. exists (encodeURIComponent s). split; [done|apply encodeURIComponent_safe]. Qed.

Lemma onInstalled_others w :
  created (onInstalled w) = created w /\ local_area (onInstalled w) = local_area w /\
  sync_area (onInstalled w) = storage_set defaults (sync_area w).
Proof. unfold onInstalled. cbv zeta. by destruct (bool_decide _). Qed.

Lemma onMenuClicked_created i l s w :
  Forall result_page (created w) -> Forall result_page (created (onMenuClicked i l s w)).
Proof.
  intros H. unfold onMenuClicked. destruct (String.eqb i menu_id); [|done]. cbv zeta.
  destruct (truthy _); [|done]. destruct (ToString _) as [url|]; [|done].
  cbn [create_tab created]. apply Forall_app. split; [done|].
  constructor; [apply result_page_encoded|done].
Qed.

Lemma onMenuClicked_others i l s w :
  local_area (onMenuClicked i l s w) = local_area w /\
  sync_area (onMenuClicked i l s w) = sync_area w.
Proof.
  unfold onMenuClicked. destruct (String.eqb i menu_id); [|done]. cbv zeta.
  destruct (truthy _); [|done]. by destruct (ToString _).
Qed.

Lemma onMessage_created request now w w' keep :
  onMessage request now w = Some (inr (w', keep)) ->
  Forall result_page (created w) -> Forall result_page (created w').
Proof.
  intros H Hc. unfold onMessage in H.
  destruct (get request "action") as [e|action]; [done|].
  destruct (same action "getSettings"); [by injection H as <- <-|].
  destruct (same action "updateSettings").
  { destruct (field request "settings"); try done. by injection H as <- <-. }
  destruct (same action "clearCache"); [by injection H as <- <-|].
  cbv zeta in H.
  assert (G : forall u, Forall result_page (created (create_tab (result_url
                          (encodeURIComponent u)) w))).
  { intros u. cbn [create_tab created]. apply Forall_app. split; [done|].
    constructor; [apply result_page_encoded|done]. }
  destruct (same (field request "type") "OPEN_DETAILS").
  - destruct (ToString (field request "url")) as [u|]; [|done].
    cbn [mbind option_bind fmap option_fmap option_map] in H. injection H as <- <-.
    destruct (same (field request "type") "OPEN_FEEDBACK"); apply G.
  - cbn [mbind option_bind fmap option_fmap option_map] in H. injection H as <- <-.
    by destruct (same (field request "type") "OPEN_FEEDBACK").
Qed.

Lemma step_created w ev w' :
  step w ev = Some w' ->
  Forall result_page (created w) -> Forall result_page (created w').
Proof.
  intros H Hc. destruct ev as [|i u|request now|i l s]; cbn [step] in H.
  - injection H as <-. by rewrite (proj1 (onInstalled_others w)).
  - injection H as <-. destruct u as [url|]; cbn [onClicked]; [|done].
    by destruct (includes url "google.com/search").
  - destruct (onMessage request now w) as [[e|[w1 keep]]|] eqn:E; [| |done].
    + by injection H as <-.
    + injection H as <-. by eapply onMessage_created.
  - injection H as <-. by apply onMenuClicked_created.
Qed.

Lemma run_created evs w w' :
  run w evs = Some w' ->
  Forall result_page (created w) -> Forall result_page (created w').
Proof.
  revert w. induction evs as [|ev evs IH]; intros w H Hc.
  { by injection H as <-. }
  cbn [run] in H. destruct (step w ev) as [w1|] eqn:E; [|done].
  cbn [mbind option_bind] in H. apply (IH w1 H). by eapply step_created.
Qed.

Lemma step_modelled w ev : modelled ev = true -> is_Some (step w ev).
Proof.
  destruct ev as [|i u|request now|i l s]; cbn [step modelled]; [by eauto..| |by eauto].
  intros H. unfold onMessage.
  destruct (get request "action") as [e|action]; [by eauto|].
  destruct (same action "getSettings"); [by eauto|].
  destruct (same action "updateSettings").
  { destruct (field request "settings"); by eauto. }
  destruct (same action "clearCache"); [by eauto|].
  cbv zeta.
  destruct (same (field request "type") "OPEN_DETAILS"); cbn [negb orb] in H;
    [|by eauto].
  destruct (ToString (field request "url")); [by eauto|done].
Qed.

Lemma run_modelled evs w :
  Forall (fun ev => modelled ev = true) evs -> is_Some (run w evs).
Proof.
  revert w. induction evs as [|ev evs IH]; intros w H; [by eauto|].
  apply Forall_cons in H as [H1 H2].
  destruct (step_modelled w ev H1) as [w1 E]. cbn [run]. rewrite E. apply IH, H2.
Qed.

Lemma onMessage_local request now w w' keep :
  onMessage request now w = Some (inr (w', keep)) ->
  holds_feedback (local_area w) -> holds_feedback (local_area w').
Proof.
  intros H Hl. unfold onMessage in H.
  destruct (get request "action") as [e|action]; [done|].
  destruct (same action "getSettings"); [by injection H as <- <-|].
  destruct (same action "updateSettings").
  { destruct (field request "settings"); try done. by injection H as <- <-. }
  destruct (same action "clearCache"); [injection H as <- <-; by left|].
  cbv zeta in H.
  assert (G : forall w0, local_area w0 = local_area w ->
            holds_feedback (local_area
              (if same (field request "type") "OPEN_FEEDBACK"
               then openPopup (set_local (<["pendingFeedback" := feedback request now]>
                                            (local_area w0)) w0)
               else w0))).
  { intros w0 E. destruct (same (field request "type") "OPEN_FEEDBACK");
      [|by rewrite E].
    cbn [openPopup set_local local_area]. rewrite E. right. exists request, now.
    destruct Hl as [->|(r0 & n0 & ->)]; [done|]. apply insert_singleton_eq. }
  destruct (same (field request "type") "OPEN_DETAILS").
  - destruct (ToString (field request "url")) as [u|]; [|done].
    cbn [mbind option_bind fmap option_fmap option_map] in H. injection H as <- <-.
    by apply (G (create_tab (result_url (encodeURIComponent u)) w)).
  - cbn [mbind option_bind fmap option_fmap option_map] in H. injection H as <- <-.
    by apply (G w).
Qed.

Lemma step_local w ev w' :
  step w ev = Some w' ->
  holds_feedback (local_area w) -> holds_feedback (local_area w').
Proof.
  intros H Hl. destruct ev as [|i u|request now|i l s]; cbn [step] in H.
  - injection H as <-. by rewrite (proj1 (proj2 (onInstalled_others w))).
  - injection H as <-. destruct u as [url|]; cbn [onClicked]; [|done].
    by destruct (includes url "google.com/search").
  - destruct (onMessage request now w) as [[e|[w1 keep]]|] eqn:E; [| |done].
    + by injection H as <-.
    + injection H as <-. by eapply onMessage_local.
  - injection H as <-. by rewrite (proj1 (onMenuClicked_others i l s w)).
Qed.

Lemma run_local evs w w' :
  run w evs = Some w' ->
  holds_feedback (local_area w) -> holds_feedback (local_area w').
Proof.
  revert w. induction evs as [|ev evs IH]; intros w H Hl.
  { by injection H as <-. }
  cbn [run] in H. destruct (step w ev) as [w1|] eqn:E; [|done].
  cbn [mbind option_bind] in H. apply (IH w1 H). by eapply step_local.
Qed.

Lemma storage_set_keeps items a k :
  is_Some (a !! k) -> is_Some (storage_set items a !! k).
Proof.
  intros H. rewrite lookup_storage_set. by destruct (list_to_map items !! k).
Qed.

Lemma onMessage_sync request now w w' keep :
  onMessage request now w = Some (inr (w', keep)) ->
  sync_area w' =
  if same (field request "action") "updateSettings"
  then match field request "settings" with
       | Obj items => storage_set items (sync_area w)
       | _ => sync_area w
       end
  else sync_area w.
Proof.
  intros H. unfold onMessage in H.
  destruct (get request "action") as [e|action] eqn:G; [done|].
  assert (A : action = field request "action").
  { destruct request; cbn in G |- *; congruence. }
  subst action.
  destruct (same (field request "action") "getSettings") eqn:E1.
  { injection H as <- <-.
    destruct (field request "action") as [| | | |s| |]; try done.
    cbn [same] in *. apply String.eqb_eq in E1 as ->. done. }
  destruct (same (field request "action") "updateSettings").
  { destruct (field request "settings"); try done. by injection H as <- <-. }
  destruct (same (field request "action") "clearCache"); [by injection H as <- <-|].
  cbv zeta in H.
  destruct (same (field request "type") "OPEN_DETAILS").
  - destruct (ToString (field request "url")) as [u|]; [|done].
    cbn [mbind option_bind fmap option_fmap option_map] in H. injection H as <- <-.
    by destruct (same (field request "type") "OPEN_FEEDBACK").
  - cbn [mbind option_bind fmap option_fmap option_map] in H. injection H as <- <-.
    by destruct (same (field request "type") "OPEN_FEEDBACK").
Qed.

Lemma step_sync_keeps w ev w' k :
  step w ev = Some w' -> is_Some (sync_area w !! k) -> is_Some (sync_area w' !! k).
Proof.
  intros H Hk. destruct ev as [|i u|request now|i l s]; cbn [step] in H.
  - injection H as <-. rewrite (proj2 (proj2 (onInstalled_others w))).
    by apply storage_set_keeps.
  - injection H as <-. destruct u as [url|]; cbn [onClicked]; [|done].
    by destruct (includes url "google.com/search").
  - destruct (onMessage request now w) as [[e|[w1 keep]]|] eqn:E; [| |done].
    + by injection H as <-.
    + injection H as <-. rewrite (onMessage_sync _ _ _ _ _ E).
      destruct (same _ _); [|done].
      destruct (field request "settings"); try done. by apply storage_set_keeps.
  - injection H as <-. by rewrite (proj2 (onMenuClicked_others i l s w)).
Qed.

Lemma step_sync_same w ev w' :
  step w ev = Some w' -> writes_settings ev = false -> sync_area w' = sync_area w.
Proof.
  intros H Hw. destruct ev as [|i u|request now|i l s]; cbn [step] in H; [done|..].
  - injection H as <-. destruct u as [url|]; cbn [onClicked]; [|done].
    by destruct (includes url "google.com/search").
  - destruct (onMessage request now w) as [[e|[w1 keep]]|] eqn:E; [| |done].
    + by injection H as <-.
    + injection H as <-. rewrite (onMessage_sync _ _ _ _ _ E).
      cbn [writes_settings] in Hw. by rewrite Hw.
  - injection H as <-. by rewrite (proj2 (onMenuClicked_others i l s w)).
Qed.

Lemma updateSettings_saves request items now w :
  field request "action" = Str "updateSettings" ->
  field request "settings" = Obj items ->
  exists w1, onMessage request now w = Some (inr (w1, true)) /\
             sync_area w1 = storage_set items (sync_area w).
Proof.
  intros Ha Hs.
  assert (G : get request "action" = inr (Str "updateSettings")).
  { destruct request; cbn in Ha |- *; congruence. }
  eexists. split.
  - unfold onMessage. rewrite G. cbn [same]. rewrite Hs.
    change (String.eqb "updateSettings" "getSettings") with false.
    change (String.eqb "updateSettings" "updateSettings") with true.
    cbv iota. reflexivity.
  - done.
Qed.

Lemma run_sync_keeps evs w w' k :
  run w evs = Some w' -> is_Some (sync_area w !! k) -> is_Some (sync_area w' !! k).
Proof.
  revert w. induction evs as [|ev evs IH]; intros w H Hk.
  { by injection H as <-. }
  cbn [run] in H. destruct (step w ev) as [w1|] eqn:E; [|done].
  cbn [mbind option_bind] in H. apply (IH w1 H). by eapply step_sync_keeps.
Qed.

Lemma run_sync_same evs w w' :
  run w evs = Some w' -> Forall (fun ev => writes_settings ev = false) evs ->
  sync_area w' = sync_area w.
Proof.
  revert w. induction evs as [|ev evs IH]; intros w H Hw.
  { by injection H as <-. }
  apply Forall_cons in Hw as [Hw1 Hw2].
  cbn [run] in H. destruct (step w ev) as [w1|] eqn:E; [|done].
  cbn [mbind option_bind] in H. rewrite (IH w1 H Hw2). by eapply step_sync_same.
Qed.

Lemma feedback_fields request now :
  field (feedback request now) "analysis" = field request "analysis" /\
  field (feedback request now) "url" = field request "url" /\
  field (feedback request now) "timestamp" = Num (int now).
Proof.
  unfold feedback, serialized.
  destruct (field request "analysis"), (field request "url"); by cbn.
Qed.

Lemma OPEN_FEEDBACK_stores request now w :
  field request "type" = Str "OPEN_FEEDBACK" ->
  field request "action" = Undefined ->
  onMessage request now w
  = Some (inr (openPopup (set_local (<["pendingFeedback" := feedback request now]>
                                       (local_area w)) w), false)).
Proof.
  intros Ht Ha.
  assert (G : get request "action" = inr Undefined).
  { destruct request; cbn in Ht, Ha |- *; congruence. }
  unfold onMessage. rewrite G. cbn [same]. cbv zeta. rewrite Ht. cbn [same].
  change (String.eqb "OPEN_FEEDBACK" "OPEN_DETAILS") with false.
  change (String.eqb "OPEN_FEEDBACK" "OPEN_FEEDBACK") with true.
  cbv iota. reflexivity.
Qed.

End WorkerFacts.

(** ** Properties of the content script *)

Module Properties.
Import JS DOM Ext Notions DOMFacts ExtFacts LoopFacts PageFacts MarkFacts Samples.

(** X1. A content script that finds enabled stored as false installs
    nothing: no scan timer, no observer, no message listener.  On a page
    that shows no markup of the script it then stays as it started
    whatever happens, a later update that enables it included. *)
Theorem X1_started_disabled_stays_inert (d : document) (fresh : nat) (o : stored)
        (evs : list event) :
  s_enabled o = Bool false ->
  rendered (new d fresh) = [] ->
  let st := init o (new d fresh) in
  listening st = false /\ timers st = 0 /\ doc st = d /\ run st evs = st.
Proof.
  intros Ho Hr. cbv zeta.
  assert (E : init o (new d fresh) = loadSettings o (new d fresh)).
  { unfold init. cbv zeta. cbn [loadSettings settings set_settings enabled].
    by rewrite Ho. }
  rewrite E. repeat (split; [done|]). by apply inert_run.
Qed.

Lemma X1_witness :
  let o := {| s_enabled := Bool false; s_autoAnalyze := Undefined;
              s_cacheResults := Undefined |} in
  let evs := [Mutation; TimerFires;
              Message (SETTINGS_UPDATED {| enabled := true; autoAnalyze := true;
                                           cacheResults := true |});
              TimerFires; RetryClick 3; FetchSettles 0 (success scenario_data)] in
  s_enabled o = Bool false /\ rendered (new results_page 100) = [] /\
  run (init o (new results_page 100)) evs = init o (new results_page 100).
Proof.
  cbv zeta.
  assert (R : rendered (new results_page 100) = []) by (vm_compute; reflexivity).
  split; [reflexivity|]. split; [exact R|].
  exact (proj2 (proj2 (proj2
           (X1_started_disabled_stays_inert results_page 100
              {| s_enabled := Bool false; s_autoAnalyze := Undefined;
                 s_cacheResults := Undefined |}
              [Mutation; TimerFires;
               Message (SETTINGS_UPDATED {| enabled := true; autoAnalyze := true;
                                            cacheResults := true |});
               TimerFires; RetryClick 3; FetchSettles 0 (success scenario_data)]
              eq_refl R)))).
Defined.

(** X2. While the script listens and is enabled, every mutation notice
    sets one more scan timer and changes nothing else, and nothing
    cancels or merges timers: through any sequence of notices, timer
    firings, settled fetches and retry clicks, in any order in which
    every firing is that of a timer that waits, the number of waiting
    timers plus the firings is the number at the start plus the
    notices. *)
Theorem X2_every_mutation_notice_schedules_a_scan (st : State) (n : nat)
        (evs : list event) :
  listening st = true -> enabled (settings st) = true ->
  Forall (fun ev => is_message ev = false) evs ->
  due (timers st) evs = true ->
  run st (replicate n Mutation) = set_timers (timers st + n) st /\
  timers (run st evs) + firings evs = timers st + notices evs /\
  listening (run st evs) = true /\ enabled (settings (run st evs)) = true.
Proof.
  intros L E Hm Hd. split; [by apply mutations|]. by apply timers_counted.
Qed.

Lemma X2_witness :
  let evs := [TimerFires; Mutation; Mutation; TimerFires;
              FetchSettles 0 (success scenario_data); Mutation; RetryClick 102] in
  listening (started results_page) = true /\
  enabled (settings (started results_page)) = true /\
  Forall (fun ev => is_message ev = false) evs /\
  due (timers (started results_page)) evs = true /\
  timers (run (started results_page) evs) + firings evs
  = timers (started results_page) + notices evs.
Proof.
  cbv zeta.
  assert (F : Forall (fun ev => is_message ev = false)
                [TimerFires; Mutation; Mutation; TimerFires;
                 FetchSettles 0 (success scenario_data); Mutation; RetryClick 102])
    by (repeat constructor).
  split; [reflexivity|]. split; [reflexivity|]. split; [exact F|].
  split; [reflexivity|].
  exact (proj1 (proj2 (X2_every_mutation_notice_schedules_a_scan (started results_page) 0
                         _ eq_refl eq_refl F eq_refl))).
Defined.

(** X3. A scan leaves the cache, the settings and the timers alone and
    keeps every suspended analysis.  The elements of the analyses it
    starts are, in document order, a sublist of the elements that carry
    data-ved: an element gets at most one analysis in a scan (no two of
    the new requests are for one element when the elements of the
    document are distinct), and every new request goes to the analysis
    endpoint. *)
Theorem X3_scan_starts_at_most_one_analysis_per_candidate (st : State) :
  let st' := processSearchResults st in
  cache st' = cache st /\ settings st' = settings st /\ timers st' = timers st /\
  exists new,
    inflight st' = inflight st ++ new /\
    rq_result <$> new `sublist_of` candidates st /\
    (NoDup (eid <$> elements (doc st)) -> NoDup (rq_result <$> new)) /\
    Forall to_endpoint new.
Proof.
  cbv zeta. rewrite processSearchResults_scan. destruct (enabled (settings st)).
  - destruct (scan_frame (querySelectorAll (HasAttr "data-ved") (doc st)) st)
      as (C & S & T & _).
    destruct (scan_order (querySelectorAll (HasAttr "data-ved") (doc st)) st)
      as (new & I & Sub & F).
    repeat (split; [done|]). exists new. split; [done|]. split; [done|].
    split; [|done]. intros Hn.
    exact (sublist_NoDup _ _ (candidates_distinct st Hn) Sub).
  - repeat (split; [done|]). exists []. rewrite app_nil_r.
    split; [done|]. split; [apply sublist_nil_l|]. split; [|done].
    intros _. apply NoDup_nil_2.
Qed.

(** X4. Whatever page the script starts on and whatever happens, every
    request of a suspended analysis goes to the one analysis endpoint of
    the local server. *)
Theorem X4_requests_only_go_to_the_analysis_endpoint (d : document) (fresh : nat)
        (o : stored) (evs : list event) :
  Forall (fun rq => rq_endpoint rq = "http://localhost:5000/api/analyze-extension")
         (inflight (run (init o (new d fresh)) evs)).
Proof.
  apply (run_endpoint evs). unfold init. cbv zeta.
  by destruct (negb (enabled (settings (loadSettings o (new d fresh))))).
Qed.

(** X5. A fetch that fails (transport error, status outside 200..299
    whatever the body, or a body that does not parse) is turned into
    {success: false, error}; the analysis then ends normally, writes
    nothing to the cache, starts nothing, and leaves the error label of
    the element on the page. *)
Theorem X5_failed_fetch_ends_in_the_error_label (rq : request) (o : fetch_outcome)
        (st : State) :
  failed o = true ->
  (exists message, analyzeUrlExtension o = failure message) /\
  snd (resume rq o st) = Fulfilled /\
  cache (fst (resume rq o st)) = cache st /\
  inflight (fst (resume rq o st)) = inflight st /\
  (tidy st -> page_element (rq_result rq) st ->
   is_Some (find_entry (rq_result rq) (doc st)) ->
   (next_id st, ErrorLabel (rq_result rq) (rq_url rq)) ∈ rendered (fst (resume rq o st))).
Proof.
  intros Hf. destruct (failure_is_refused o Hf) as [m Hm].
  split; [by exists m|].
  assert (Hl : truthy (field (field (analyzeUrlExtension o) "data") "label") = false)
    by (by rewrite Hm).
  destruct (resume_without_label rq o st Hl) as (st1 & Hd & Hn & E).
  split; [by rewrite E|]. split.
  { rewrite resume_cache. cbv zeta. by rewrite Hm. }
  split; [apply resume_frame|].
  intros Ht Hr Hat. rewrite E. cbn [fst]. rewrite <- Hn. apply displayErrorLabel_stays.
  - destruct Ht as (T1 & T2 & T3). unfold tidy. by rewrite Hd, Hn.
  - intros e. rewrite Hd. apply Hr.
  - by rewrite Hd.
Qed.

Lemma X5_witness :
  let st := run (started results_page) [TimerFires] in
  let rq := request_for 1 example_url "Example" in
  let o := Response 500 (inr (Obj [("success", Bool true); ("data", scenario_data)])) in
  failed o = true /\ tidy st /\ page_element 1 st /\
  cache (fst (resume rq o st)) = cache st /\
  (next_id st, ErrorLabel 1 example_url) ∈ rendered (fst (resume rq o st)).
Proof.
  cbv zeta.
  assert (T : tidy (run (started results_page) [TimerFires]))
    by (apply tidyb_sound; vm_compute; reflexivity).
  assert (P : page_element 1 (run (started results_page) [TimerFires]))
    by (apply page_elementb_sound; vm_compute; reflexivity).
  destruct (X5_failed_fetch_ends_in_the_error_label
              (request_for 1 example_url "Example")
              (Response 500 (inr (Obj [("success", Bool true); ("data", scenario_data)])))
              (run (started results_page) [TimerFires]) eq_refl)
    as (_ & _ & C & _ & R).
  split; [reflexivity|]. split; [exact T|]. split; [exact P|]. split; [exact C|].
  apply (R T P). vm_compute. eexists. reflexivity.
Defined.

(** X7. An accepted response is written to the cache under the URL of the
    request when cacheResults is on, and no other entry changes; from
    then on an element whose link is that URL is served without a
    request. *)
Theorem X7_cached_analysis_is_not_requested_again (rq : request) (o : fetch_outcome)
        (st : State) :
  accepted (analyzeUrlExtension o) = true -> cacheResults (settings st) = true ->
  let st' := fst (resume rq o st) in
  cache st' !! rq_url rq = Some (field (analyzeUrlExtension o) "data") /\
  (forall k, k <> rq_url rq -> cache st' !! k = cache st !! k) /\
  forall r title,
    link_url r st' = Some (rq_url rq) -> title_text r st' = Some title ->
    requests (snd (processSearchResult r st')) = [] /\
    inflight (launch r st') = inflight st'.
Proof.
  intros Ha Hc. cbv zeta.
  assert (C : cache (fst (resume rq o st))
              = <[rq_url rq := field (analyzeUrlExtension o) "data"]> (cache st)).
  { rewrite resume_cache. cbv zeta. unfold accepted in Ha. by rewrite Ha, Hc. }
  assert (L : cache (fst (resume rq o st)) !! rq_url rq
              = Some (field (analyzeUrlExtension o) "data")).
  { rewrite C. apply lookup_insert_eq. }
  split; [done|]. split.
  - intros k Hk. rewrite C. by apply lookup_insert_ne.
  - intros r title Hu Ht.
    by destruct (cache_hit r _ _ _ _ Hu Ht L) as (_ & H2 & H3 & _).
Qed.

Lemma X7_witness :
  let st := run (started results_page) [TimerFires] in
  let rq := request_for 1 example_url "Example" in
  let st' := fst (resume rq (success scenario_data) st) in
  accepted (analyzeUrlExtension (success scenario_data)) = true /\
  cacheResults (settings st) = true /\
  cache st !! example_url = None /\
  cache st' !! example_url = Some scenario_data /\
  link_url 1 st' = Some example_url /\ title_text 1 st' = Some "Example" /\
  requests (snd (processSearchResult 1 st')) = [].
Proof.
  cbv zeta.
  set (st := run (started results_page) [TimerFires]).
  set (rq := request_for 1 example_url "Example").
  assert (Hu : link_url 1 (fst (resume rq (success scenario_data) st)) = Some example_url)
    by (vm_compute; reflexivity).
  assert (Ht : title_text 1 (fst (resume rq (success scenario_data) st)) = Some "Example")
    by (vm_compute; reflexivity).
  destruct (X7_cached_analysis_is_not_requested_again rq (success scenario_data) st
              eq_refl eq_refl) as (H1 & _ & H3).
  split; [reflexivity|]. split; [reflexivity|]. split; [vm_compute; reflexivity|].
  split; [exact H1|]. split; [exact Hu|]. split; [exact Ht|].
  exact (proj1 (H3 1 "Example" Hu Ht)).
Defined.

(** X8. Nothing but CLEAR_CACHE removes a cache entry: through any
    events without that message a cached URL stays cached (settings
    updates that switch caching or the extension off included), and an
    element whose link is that URL is still served without a request. *)
Theorem X8_cache_entries_stay_until_cleared (st : State) (evs : list event)
        (url : string) :
  Forall (fun ev => clears ev = false) evs ->
  is_Some (cache st !! url) ->
  let st' := run st evs in
  is_Some (cache st' !! url) /\
  forall r title,
    link_url r st' = Some url -> title_text r st' = Some title ->
    requests (snd (processSearchResult r st')) = [].
Proof.
  intros Hevs Hc. cbv zeta.
  pose proof (run_cache evs st url Hevs Hc) as [cached L].
  split; [by exists cached|].
  intros r title Hu Ht. by destruct (cache_hit r _ _ _ _ Hu Ht L) as (_ & H2 & _).
Qed.

Lemma X8_witness :
  let evs := [Mutation; Message (SETTINGS_UPDATED not_caching); TimerFires;
              Message (SETTINGS_UPDATED switched_off); Message (Other "PING")] in
  Forall (fun ev => clears ev = false) evs /\
  is_Some (cache analysed_state !! example_url) /\
  is_Some (cache (run analysed_state evs) !! example_url).
Proof.
  cbv zeta.
  assert (F : Forall (fun ev => clears ev = false)
                [Mutation; Message (SETTINGS_UPDATED not_caching); TimerFires;
                 Message (SETTINGS_UPDATED switched_off); Message (Other "PING")])
    by (repeat constructor).
  assert (C : is_Some (cache analysed_state !! example_url))
    by (vm_compute; eexists; reflexivity).
  split; [exact F|]. split; [exact C|].
  exact (proj1 (X8_cache_entries_stay_until_cleared analysed_state _ example_url F C)).
Defined.

(** X9. [removeAllLabels] only takes away: it creates no element,
    leaves the cache, the settings, the timers and the suspended
    analyses alone, and doing it twice is doing it once. *)
Theorem X9_removeAllLabels_is_idempotent (st : State) :
  removeAllLabels (removeAllLabels st) = removeAllLabels st /\
  eid <$> elements (doc (removeAllLabels st)) `sublist_of` eid <$> elements (doc st) /\
  frame st (removeAllLabels st).
Proof.
  split; [apply removeAllLabels_bare_id, removeAllLabels_bare|].
  split; [|apply frame_removeAllLabels].
  unfold removeAllLabels. cbv zeta. cbn [doc set_doc].
  rewrite ids_del_all. apply ids_remove_all.
Qed.

(** X10. In a document whose elements are distinct objects,
    [insertLabel] on an element of the document adds exactly one wrapper
    div and the label, and neither drops nor changes any other
    element. *)
Theorem X10_insertLabel_adds_one_wrapper_and_the_label (r : nat) (lab : node)
        (st : State) :
  NoDup (eid <$> elements (doc st)) -> is_Some (find_entry r (doc st)) ->
  elements (doc (insertLabel r lab st))
  ≡ₚ elements (doc st) ++ wrapper_div (next_id st) :: elems lab /\
  next_id (insertLabel r lab st) = S (next_id st) /\
  frame st (insertLabel r lab st).
Proof.
  intros Hn Hr. destruct (insertLabel_conserves r lab st Hn Hr) as [H1 H2].
  split; [done|]. split; [done|]. apply frame_insertLabel.
Qed.

Lemma X10_witness :
  let st := started flat_page in
  let lab := Elem (el 100 "div" ["truthly-loading"] []) [] in
  NoDup (eid <$> elements (doc st)) /\ is_Some (find_entry 1 (doc st)) /\
  elements (doc (insertLabel 1 lab st))
  ≡ₚ elements (doc st) ++ wrapper_div (next_id st) :: elems lab.
Proof.
  cbv zeta.
  assert (N : NoDup (eid <$> elements (doc (started flat_page))))
    by (apply distinct_NoDup; vm_compute; reflexivity).
  assert (F : is_Some (find_entry 1 (doc (started flat_page))))
    by (vm_compute; eexists; reflexivity).
  split; [exact N|]. split; [exact F|].
  exact (proj1 (X10_insertLabel_adds_one_wrapper_and_the_label 1 _ _ N F)).
Defined.

(** X18. The script never changes what the page itself holds: on a page
    as loaded, after any events, the document without the elements the
    script created and without the processing marks is the page as it
    was loaded. *)
Theorem X18_page_content_is_never_altered (d : document) (fresh : nat) (o : stored)
        (evs : list event) :
  pristine fresh d = true ->
  page_content fresh (doc (run (init o (new d fresh)) evs)) = d.
Proof.
  intros H.
  by destruct (kp_run fresh d evs _ (pristine_keeps_page d fresh o H)) as (_ & _ & C).
Qed.

Lemma X18_witness :
  let evs := [TimerFires; Mutation; FetchSettles 0 (Response 500 (inl "x")); TimerFires;
              RetryClick 102; Message CLEAR_CACHE; TimerFires;
              FetchSettles 0 (success scenario_data)] in
  pristine 100 flat_page = true /\
  doc (run (started flat_page) evs) <> flat_page /\
  page_content 100 (doc (run (started flat_page) evs)) = flat_page.
Proof.
  cbv zeta.
  assert (P : pristine 100 flat_page = true) by (vm_compute; reflexivity).
  split; [exact P|]. split; [vm_compute; discriminate|].
  exact (X18_page_content_is_never_altered flat_page 100 nothing_stored _ P).
Defined.

(** X19. On a page as loaded, after any events, an element that is
    marked as being processed has an analysis suspended at its fetch: no
    element stays marked once its analysis has ended. *)
Theorem X19_a_marked_element_has_a_pending_request (d : document) (fresh : nat)
        (o : stored) (evs : list event) (r : nat) :
  pristine fresh d = true ->
  processing r (run (init o (new d fresh)) evs) = true ->
  exists rq, rq ∈ inflight (run (init o (new d fresh)) evs) /\ rq_result rq = r.
Proof.
  intros H Hp.
  apply (pending_run evs _ (pristine_pending d fresh o H)). by apply processing_marked.
Qed.

Lemma X19_witness :
  let st := run (started results_page) [TimerFires; Mutation] in
  pristine 100 results_page = true /\ processing 1 st = true /\
  exists rq, rq ∈ inflight st /\ rq_result rq = 1.
Proof.
  cbv zeta.
  assert (P : pristine 100 results_page = true) by (vm_compute; reflexivity).
  assert (M : processing 1 (run (started results_page) [TimerFires; Mutation]) = true)
    by (vm_compute; reflexivity).
  split; [exact P|]. split; [exact M|].
  exact (X19_a_marked_element_has_a_pending_request results_page 100 nothing_stored
           [TimerFires; Mutation] 1 P M).
Defined.

(** X20. An element without a link or without a title is skipped:
    [processSearchResult] ends at once, sends no request, touches neither
    the cache nor the timers, adds nothing to the page, and leaves the
    element unmarked. *)
Theorem X20_element_without_link_or_title_is_skipped (r : nat) (st : State) :
  link_url r st = None \/ title_text r st = None ->
  snd (processSearchResult r st) = Fulfilled /\
  frame st (launch r st) /\
  processing r (launch r st) = false /\
  forall i w, (i, w) ∈ rendered (launch r st) -> (i, w) ∈ rendered st.
Proof.
  intros H. pose proof (processSearchResult_skips r st H) as E.
  assert (L : launch r st = cleanup r (set_doc (set_attr r mark "true" (doc st)) st)).
  { unfold launch. by rewrite E. }
  rewrite E, L. split; [done|]. split.
  { eapply frame_trans; [apply frame_set_doc|apply frame_cleanup]. }
  split; [apply cleanup_clears_mark|].
  intros i w Hw%rendered_cleanup. unfold set_attr in Hw. by rewrite rendered_update in Hw.
Qed.

Lemma X20_witness :
  let st := started untitled_page in
  (link_url 1 st = None \/ title_text 1 st = None) /\
  shouldProcessResult 1 st = true /\
  snd (processSearchResult 1 st) = Fulfilled /\ frame st (launch 1 st).
Proof.
  cbv zeta.
  assert (H : link_url 1 (started untitled_page) = None \/
              title_text 1 (started untitled_page) = None)
    by (right; vm_compute; reflexivity).
  destruct (X20_element_without_link_or_title_is_skipped 1 (started untitled_page) H)
    as (H1 & H2 & _).
  split; [exact H|]. split; [vm_compute; reflexivity|]. exact (conj H1 H2).
Defined.

End Properties.

(** ** Properties of the background worker and of its settings *)

Module WorkerProperties.
Import JS Background WorkerFacts WorkerSamples.

(** X11. [encodeURIComponent] produces letters, digits, the marks
    - _ . ! ~ * ' ( ) and percent signs only, so the text it escapes
    cannot end or extend the query parameter it is put in; and it loses
    nothing: two texts have the same escaped form only if they are the
    same text. *)
Theorem X11_encodeURIComponent_is_safe_and_loses_nothing (s t : string) :
  all url_safe (encodeURIComponent s) = true /\
  (encodeURIComponent s = encodeURIComponent t <-> s = t).
Proof.
  split; [apply encodeURIComponent_safe|]. split; [|by intros ->].
  intros E. by rewrite <- (unescape_encodeURIComponent s), E, unescape_encodeURIComponent.
Qed.

(** X12. The worker handles every sequence of events whose OPEN_DETAILS
    messages carry a text (or no) URL, and every tab it ever creates is
    a result page of the local front end whose one query parameter is
    the escaped target. *)
Theorem X12_worker_only_opens_result_pages (evs : list event) :
  Forall (fun ev => modelled ev = true) evs ->
  exists w, run blank evs = Some w /\ Forall result_page (created w).
Proof.
  intros H. destruct (run_modelled evs blank H) as [w E]. exists w. split; [done|].
  by apply (run_created evs blank w E).
Qed.

Lemma X12_witness :
  Forall (fun ev => modelled ev = true) a_day /\
  exists w, run blank a_day = Some w /\ Forall result_page (created w).
Proof.
  assert (F : Forall (fun ev => modelled ev = true) a_day) by (repeat constructor).
  split; [exact F|]. exact (X12_worker_only_opens_result_pages a_day F).
Defined.

(** X13. Settings saved with updateSettings are what getSettings
    reports next: for each of enabled, serverUrl, frontendUrl and
    autoAnalyze the value just saved, or the value stored before when the
    saved object has no such key.  No other key is ever reported,
    cacheResults included. *)
Theorem X13_saved_settings_are_reported (request : value)
        (items : list (string * value)) (now now' : Z) (w : Worker) :
  field request "action" = Str "updateSettings" ->
  field request "settings" = Obj items ->
  exists w1 w2 answer,
    onMessage request now w = Some (inr (w1, true)) /\
    onMessage getSettings now' w1 = Some (inr (w2, true)) /\
    replies w2 = replies w ++ [success; answer] /\
    forall k,
      field answer k =
      if bool_decide (k ∈ reported)
      then match (list_to_map items : gmap string value) !! k with
           | Some v => v
           | None => default Undefined (sync_area w !! k)
           end
      else Undefined.
Proof.
  intros Ha Hs.
  assert (G : get request "action" = inr (Str "updateSettings")).
  { destruct request; cbn in Ha |- *; congruence. }
  eexists _, _, _. split; [|split; [|split]].
  - unfold onMessage. rewrite G. cbn [same]. rewrite Hs.
    change (String.eqb "updateSettings" "getSettings") with false.
    change (String.eqb "updateSettings" "updateSettings") with true.
    cbv iota. reflexivity.
  - unfold onMessage, getSettings. cbn [get field assoc same].
    change (String.eqb "action" "action") with true. cbv iota.
    change (String.eqb "getSettings" "getSettings") with true. cbv iota.
    reflexivity.
  - cbn [replies sendResponse set_sync]. by rewrite <- app_assoc.
  - intros k. rewrite field_storage_get. cbn [sync_area sendResponse set_sync].
    destruct (bool_decide (k ∈ reported)); [|done].
    rewrite lookup_storage_set. by destruct (list_to_map items !! k).
Qed.

Lemma X13_witness :
  let request := updateSettings [("enabled", Bool false); ("cacheResults", Bool false)] in
  field request "action" = Str "updateSettings" /\
  exists w1 w2 answer,
    onMessage request 1 (onInstalled blank) = Some (inr (w1, true)) /\
    onMessage getSettings 2 w1 = Some (inr (w2, true)) /\
    replies w2 = replies (onInstalled blank) ++ [success; answer] /\
    forall k,
      field answer k =
      if bool_decide (k ∈ reported)
      then match (list_to_map [("enabled", Bool false); ("cacheResults", Bool false)]
                  : gmap string value) !! k with
           | Some v => v
           | None => default Undefined (sync_area (onInstalled blank) !! k)
           end
      else Undefined.
Proof.
  cbv zeta. split; [reflexivity|].
  exact (X13_saved_settings_are_reported
           (updateSettings [("enabled", Bool false); ("cacheResults", Bool false)])
           [("enabled", Bool false); ("cacheResults", Bool false)] 1 2
           (onInstalled blank) eq_refl eq_refl).
Defined.

(** X14. After installation, whatever was stored before, the content
    script loads enabled, autoAnalyze and cacheResults as true and
    starts: it listens and has one scan scheduled. *)
Theorem X14_installation_enables_the_content_script (w : Worker) (d : DOM.document)
        (fresh : nat) :
  let st := Ext.init (loaded (sync_area (onInstalled w))) (Ext.new d fresh) in
  Ext.settings st = {| Ext.enabled := true; Ext.autoAnalyze := true;
                       Ext.cacheResults := true |} /\
  Ext.listening st = true /\ Ext.timers st = 1 /\ Ext.doc st = d.
Proof.
  cbv zeta. rewrite (proj2 (proj2 (onInstalled_others w))).
  assert (L : forall k v, (list_to_map defaults : gmap string value) !! k = Some v ->
                bool_decide (k ∈ ["enabled"; "autoAnalyze"; "cacheResults"]) = true ->
                field (storage_get ["enabled"; "autoAnalyze"; "cacheResults"]
                         (storage_set defaults (sync_area w))) k = v).
  { intros k v Hk Hin. by rewrite field_storage_get, Hin, lookup_storage_set, Hk. }
  unfold Ext.init, Ext.loadSettings, loaded. cbv zeta.
  rewrite (L "enabled" (Bool true)), (L "autoAnalyze" (Bool true)),
    (L "cacheResults" (Bool true)) by (vm_compute; reflexivity).
  done.
Qed.

(** X15. When an updateSettings message saved enabled as false, a
    content script that starts afterwards on a page without markup of
    its own installs nothing and stays as it started whatever happens. *)
Theorem X15_saved_disabled_keeps_the_content_script_off (request : value)
        (items : list (string * value)) (now : Z) (w : Worker)
        (d : DOM.document) (fresh : nat) (evs : list Ext.event) :
  field request "action" = Str "updateSettings" ->
  field request "settings" = Obj items ->
  assoc "enabled" items = Bool false ->
  Ext.rendered (Ext.new d fresh) = [] ->
  exists w1,
    onMessage request now w = Some (inr (w1, true)) /\
    let st := Ext.init (loaded (sync_area w1)) (Ext.new d fresh) in
    Ext.listening st = false /\ Ext.timers st = 0 /\ Ext.run st evs = st.
Proof.
  intros Ha Hs He Hr.
  destruct (updateSettings_saves request items now w Ha Hs) as (w1 & E & S).
  exists w1. split; [done|]. cbv zeta.
  assert (En : Ext.s_enabled (loaded (sync_area w1)) = Bool false).
  { unfold loaded. cbv zeta. cbn [Ext.s_enabled].
    rewrite field_storage_get, S, lookup_storage_set.
    rewrite bool_decide_eq_true_2 by (apply list_elem_of_here).
    rewrite assoc_list_to_map in He.
    destruct (list_to_map items !! "enabled") as [v|]; [done|discriminate He]. }
  assert (I : Ext.init (loaded (sync_area w1)) (Ext.new d fresh)
              = Ext.loadSettings (loaded (sync_area w1)) (Ext.new d fresh)).
  { unfold Ext.init. cbv zeta.
    cbn [Ext.loadSettings Ext.settings Ext.set_settings Ext.enabled]. by rewrite En. }
  rewrite I. split; [done|]. split; [done|]. by apply LoopFacts.inert_run.
Qed.

Lemma X15_witness :
  let request := updateSettings [("enabled", Bool false)] in
  field request "action" = Str "updateSettings" /\
  assoc "enabled" [("enabled", Bool false)] = Bool false /\
  Ext.rendered (Ext.new Samples.results_page 100) = [] /\
  exists w1,
    onMessage request 5 (onInstalled blank) = Some (inr (w1, true)) /\
    let st := Ext.init (loaded (sync_area w1)) (Ext.new Samples.results_page 100) in
    Ext.listening st = false /\ Ext.timers st = 0 /\
    Ext.run st [Ext.Mutation; Ext.TimerFires; Ext.RetryClick 1] = st.
Proof.
  cbv zeta.
  assert (R : Ext.rendered (Ext.new Samples.results_page 100) = [])
    by (vm_compute; reflexivity).
  split; [reflexivity|]. split; [reflexivity|]. split; [exact R|].
  exact (X15_saved_disabled_keeps_the_content_script_off
           (updateSettings [("enabled", Bool false)]) [("enabled", Bool false)] 5
           (onInstalled blank) Samples.results_page 100
           [Ext.Mutation; Ext.TimerFires; Ext.RetryClick 1]
           eq_refl eq_refl eq_refl R).
Defined.

(** X16. Through every sequence of events whose OPEN_DETAILS messages
    carry a text (or no) URL, starting from empty storage, the local
    storage area never holds anything but one pending feedback.  An
    OPEN_FEEDBACK message, as the content script sends it, then leaves
    exactly its analysis, its URL and the time as the pending feedback,
    replacing an earlier one, and opens the popup once; it sends no
    response, creates no tab and leaves the settings alone. *)
Theorem X16_local_storage_holds_the_latest_feedback (evs : list event)
        (request : value) (now : Z) :
  Forall (fun ev => modelled ev = true) evs ->
  field request "type" = Str "OPEN_FEEDBACK" ->
  field request "action" = Undefined ->
  exists w,
    run blank evs = Some w /\
    holds_feedback (local_area w) /\
    exists w',
      onMessage request now w = Some (inr (w', false)) /\
      local_area w' = {[ "pendingFeedback" := feedback request now ]} /\
      field (feedback request now) "analysis" = field request "analysis" /\
      field (feedback request now) "url" = field request "url" /\
      field (feedback request now) "timestamp" = Num (int now) /\
      popups w' = S (popups w) /\ replies w' = replies w /\
      created w' = created w /\ sync_area w' = sync_area w.
Proof.
  intros Hevs Ht Ha. destruct (run_modelled evs blank Hevs) as [w Hrun].
  exists w. split; [done|].
  assert (Hl : holds_feedback (local_area w)).
  { apply (run_local evs blank w Hrun). by left. }
  split; [done|]. eexists. split; [by apply OPEN_FEEDBACK_stores|].
  destruct (feedback_fields request now) as (F1 & F2 & F3).
  cbn [openPopup set_local local_area popups replies created sync_area].
  split; [|done].
  destruct Hl as [->|(r0 & n0 & ->)]; [done|apply insert_singleton_eq].
Qed.

Lemma X16_witness :
  let request := OPEN_FEEDBACK (Obj [("label", Str "Fake")]) "http://example.com/b" in
  Forall (fun ev => modelled ev = true) a_day /\
  field request "type" = Str "OPEN_FEEDBACK" /\
  exists w,
    run blank a_day = Some w /\
    exists w',
      onMessage request 50 w = Some (inr (w', false)) /\
      local_area w' = {[ "pendingFeedback" := feedback request 50 ]}.
Proof.
  cbv zeta.
  assert (F : Forall (fun ev => modelled ev = true) a_day) by (repeat constructor).
  split; [exact F|]. split; [reflexivity|].
  destruct (X16_local_storage_holds_the_latest_feedback a_day
              (OPEN_FEEDBACK (Obj [("label", Str "Fake")]) "http://example.com/b") 50
              F eq_refl eq_refl) as (w & E & _ & w' & H1 & H2 & _).
  exists w. split; [exact E|]. exists w'. exact (conj H1 H2).
Defined.

(** X17. Through every sequence of events whose OPEN_DETAILS messages
    carry a text (or no) URL, the worker never removes a stored setting:
    a key of the sync area stays; and when the sequence holds neither an
    installation nor an updateSettings message, the sync area is
    unchanged. *)
Theorem X17_stored_settings_are_only_overwritten (evs : list event) (w : Worker) :
  Forall (fun ev => modelled ev = true) evs ->
  exists w',
    run w evs = Some w' /\
    (forall k, is_Some (sync_area w !! k) -> is_Some (sync_area w' !! k)) /\
    (Forall (fun ev => writes_settings ev = false) evs -> sync_area w' = sync_area w).
Proof.
  intros Hevs. destruct (run_modelled evs w Hevs) as [w' H]. exists w'.
  split; [done|]. split.
  - intros k. by apply (run_sync_keeps evs).
  - by apply run_sync_same.
Qed.

Lemma X17_witness :
  Forall (fun ev => modelled ev = true) a_day /\
  is_Some (sync_area (onInstalled blank) !! "cacheResults") /\
  exists w',
    run (onInstalled blank) a_day = Some w' /\
    is_Some (sync_area w' !! "cacheResults").
Proof.
  assert (F : Forall (fun ev => modelled ev = true) a_day) by (repeat constructor).
  assert (K : is_Some (sync_area (onInstalled blank) !! "cacheResults"))
    by (vm_compute; eexists; reflexivity).
  split; [exact F|]. split; [exact K|].
  destruct (X17_stored_settings_are_only_overwritten a_day (onInstalled blank) F)
    as (w' & E & H & _).
  exists w'. split; [exact E|]. exact (H "cacheResults" K).
Defined.

End WorkerProperties.
